(** * Trade settlement engine of server/routes.ts

    A shallow embedding of the trade routes of the server:
    [POST /api/trades] (the trade creation handler inside [registerRoutes])
    and [resolvePendingTrades] (the settlement sweep), together with the
    helpers they use ([numToString], the settlement constants) and the
    part of shared/schema.ts they rely on ([accounts], [trades],
    [insertTradeSchema]).

    Modelling conventions.
    - A JavaScript number is an exact rational ([Q]): the arithmetic of the
      handlers is kept, the rounding of IEEE doubles is not.
    - A decimal text (a [decimal] column, the result of [toFixed]) is
      represented by the rational it denotes, so [parseFloat] of such a text
      is the identity and [toFixed 8] is rounding to eight fractional
      digits; the texts ["-0.00000000"] and ["0.00000000"] are the same
      rational.
    - A table is a finite map from its primary key to the other columns.
      A world holds the text the program writes. What the database keeps
      of it, at the scale declared for each [decimal] column, is given
      separately by [Column], [kept] and [stored]; the statements about
      a value that is read back, or answered from [.returning()], are
      made through these. The width of the [integer] columns is not
      modelled. The primary key of [trades] and the not-null constraint
      of [balance] are; any other failure of a statement (a lost
      connection, a value out of the range of its column, another
      constraint) is decided by an oracle, [fault].
    - The handlers run in a small state-and-exception monad over the
      database, the [Math.random] stream and the console. [Date.now()] is
      an argument of the handlers. *)

From Stdlib Require Import ZArith QArith Qround Lia Lqa.
From stdpp Require Import base option list gmap strings sorting.

Local Open Scope Z_scope.

(** ** Numbers and decimal texts *)

Module Num.

(** [10^f] as a positive denominator. *)
Definition pow10 (f : nat) : positive := Pos.pow 10 (Pos.of_nat f).

(** The integer [n] for which [n - x] is as close to zero as possible,
    the larger one when there are two (for [0 <= x]). *)
Definition nearest (x : Q) : Z := Qfloor (x + (1 # 2)).

(** [Number.prototype.toFixed(f)] for [1 <= f]: a negative number is
    printed as ["-"] followed by the digits of its absolute value. *)
Definition toFixed (f : nat) (x : Q) : Q :=
  if Qlt_le_dec x 0
  then Qopp (Qmake (nearest (Qopp x * inject_Z (Zpos (pow10 f)))) (pow10 f))
  else Qmake (nearest (x * inject_Z (Zpos (pow10 f)))) (pow10 f).

(** [parseFloat] of a decimal text. *)
Definition parseFloat (s : Q) : Q := s.

(** [x || '0'] followed by [parseFloat], for a nullable decimal text. *)
Definition parseFloatOr0 (s : option Q) : Q :=
  parseFloat (default 0%Q s).

(** A value is on the eight-digit grid when it is a whole number of
    [10^-8] units. *)
Definition onGrid8 (x : Q) : Prop :=
  exists n : Z, Qeq x (Qmake n (pow10 8)).

End Num.

(** [numToString]: [null] and [undefined] give [null], a number is printed
    with eight fractional digits. The [isNaN] branch has no counterpart,
    a rational is never NaN. *)
Definition numToString (val : option Q) : option Q :=
  match val with
  | None => None
  | Some num => Some (Num.toFixed 8 num)
  end.

(** ** Data model (shared/schema.ts) *)

Inductive Status := pending | completed.
Inductive Outcome := win | loss | draw.
Inductive Direction := up | down.
Inductive TradeType := buy | sell.

Global Instance Status_eq_dec : EqDecision Status.
Proof. solve_decision. Defined.
Global Instance Outcome_eq_dec : EqDecision Outcome.
Proof. solve_decision. Defined.
Global Instance Direction_eq_dec : EqDecision Direction.
Proof. solve_decision. Defined.

(** A row of [accounts]; the primary key [id] is the key of the table.
    Only [balance] is read or written by the trade routes. *)
Record Account := mkAccount {
  username : string;
  balance : Q;
  email : string;
}.

(** A row of [trades]; the primary key [id] is the key of the table. *)
Record Trade := mkTrade {
  user_id : string;
  crypto_id : string;
  crypto_name : string;
  crypto_symbol : string;
  type : TradeType;
  direction : Direction;
  amount : Q;
  initial_price : Q;
  delivery_time : Z;
  status : Status;
  timestamp : Z;
  trade_email : option string;
  gain_percentage : option Q;
  final_amount : option Q;
  simulated_final_price : option Q;
  current_trade_value : option Q;
  current_gain_loss_percentage : option Q;
  outcome : option Outcome;
}.

(** The body of [POST /api/trades], as [insertTradeSchema] types it. An
    optional or nullable field is an [option]. *)
Module InsertTrade.
Record t := mk {
  id : string;
  userId : string;
  cryptoId : string;
  cryptoName : string;
  cryptoSymbol : string;
  type : TradeType;
  direction : Direction;
  amount : Q;
  entryPrice : Q;
  deliveryTime : Z;
  status : option Status;
  timestamp : Z;
  email : option string;
  gainPercentage : option Q;
  finalAmount : option Q;
  simulatedFinalPrice : option Q;
  currentTradeValue : option Q;
  currentGainLossPercentage : option Q;
  outcome : option Outcome;
}.
End InsertTrade.

(** ** The world the handlers run in *)

(** What [console.log], [console.warn] and [console.error] print, one
    constructor per message. *)
Inductive LogEntry :=
  | LogStarted
  | LogFound (n : nat)
  | LogPendingCheck (tradeId : string) (st : Status)
  | LogPastDelivery (tradeId : string)
  | LogOutcome (tradeId : string) (o : Outcome)
  | LogBalanceUpdated (userId : string)
  | WarnAccountNotFound (userId tradeId : string)
  | LogResolved (tradeId : string) (o : Outcome)
  | LogNotReady (tradeId : string)
  | ErrorResolving
  | LogFinished
  | ErrorCreate.

Record World := mkWorld {
  accounts : gmap string Account;
  trades : gmap string Trade;
  cursor : nat;
  console : list LogEntry;
}.

Definition setAccounts (a : gmap string Account) (w : World) : World :=
  mkWorld a (trades w) (cursor w) (console w).
Definition setTrades (t : gmap string Trade) (w : World) : World :=
  mkWorld (accounts w) t (cursor w) (console w).

(** The statements sent to the database. *)
Inductive DbOp :=
  | OpSelectDueTrades
  | OpSelectAccount (id : string)
  | OpUpdateAccount (id : string)
  | OpUpdateTrade (id : string)
  | OpInsertTrade (id : string).

Inductive Exn :=
  | ZodError
  | DbError (op : DbOp).

Inductive Result (A : Type) :=
  | Ok (a : A)
  | Throw (e : Exn).
Arguments Ok {A} a.
Arguments Throw {A} e.

(** A computation reads and writes the world and returns or throws. *)
Definition M (A : Type) : Type := World -> World * Result A.

Global Instance M_ret : MRet M := fun A a w => (w, Ok a).
Global Instance M_bind : MBind M := fun A B f m w =>
  match m w with
  | (w', Ok a) => f a w'
  | (w', Throw e) => (w', Throw e)
  end.

Definition throw {A} (e : Exn) : M A := fun w => (w, Throw e).

(** [try { m } catch (error) { h error }] *)
Definition tryCatch {A} (m : M A) (h : Exn -> M A) : M A := fun w =>
  match m w with
  | (w', Ok a) => (w', Ok a)
  | (w', Throw e) => h e w'
  end.

(** [try { m } finally { f }] *)
Definition tryFinally {A} (m : M A) (f : M unit) : M A := fun w =>
  match m w with
  | (w', r) =>
      match f w' with
      | (w'', Ok _) => (w'', r)
      | (w'', Throw e) => (w'', Throw e)
      end
  end.

Definition addLog (e : LogEntry) (w : World) : World :=
  mkWorld (accounts w) (trades w) (cursor w) (console w ++ [e]).

Definition log (e : LogEntry) : M unit := fun w => (addLog e w, Ok tt).

(** [db.transaction(body)]: the writes of [body] to the tables are
    undone when it throws, and the exception goes on to the caller. *)
Definition transaction {A} (body : M A) : M A := fun w =>
  match body w with
  | (w', Ok a) => (w', Ok a)
  | (w', Throw e) =>
      (mkWorld (accounts w) (trades w) (cursor w') (console w'), Throw e)
  end.

(** The local variables of one settlement: [outcome], [finalAmount],
    [gainPercentage], [simulatedFinalPrice]. *)
Module Settle.
Record t := mk {
  outcome : Outcome;
  finalAmount : Q;
  gainPercentage : Q;
  simulatedFinalPrice : Q;
}.

(** Assignments to the locals. *)
Definition setOutcome (o : Outcome) (l : t) : t :=
  mk o (finalAmount l) (gainPercentage l) (simulatedFinalPrice l).
Definition setFinalAmount (x : Q) (l : t) : t :=
  mk (outcome l) x (gainPercentage l) (simulatedFinalPrice l).
Definition setGainPercentage (x : Q) (l : t) : t :=
  mk (outcome l) (finalAmount l) x (simulatedFinalPrice l).
Definition setSimulatedFinalPrice (x : Q) (l : t) : t :=
  mk (outcome l) (finalAmount l) (gainPercentage l) x.
End Settle.

(** The answers of [POST /api/trades]. *)
Inductive Response :=
  | TradeCreated          (* 201 "Trade created successfully." *)
  | ValidationFailed      (* 400 "Validation failed" *)
  | UserAccountNotFound   (* 404 "User account not found." *)
  | InsufficientBalance   (* 400 "Insufficient balance." *)
  | FailedToCreate.       (* 500 "Failed to create single trade" *)

Definition statusCode (r : Response) : Z :=
  match r with
  | TradeCreated => 201
  | ValidationFailed => 400
  | UserAccountNotFound => 404
  | InsufficientBalance => 400
  | FailedToCreate => 500
  end.

(** ** Settlement constants *)

Definition WIN_PERCENTAGE_SIMULATION : Q := 0.85.
Definition MIN_PROFIT_PERCENTAGE : Q := 0.07.
Definition MAX_PROFIT_PERCENTAGE : Q := 0.19.
Definition MIN_LOSS_PERCENTAGE : Q := 0.01.
Definition MAX_LOSS_PERCENTAGE : Q := 0.05.

(** The text of a column that cannot be null ([numToString(x)!]);
    [numToString] of a number is never [null]. *)
Definition nonNull (s : option Q) : Q := default 0%Q s.

Definition setBalance (b : Q) (a : Account) : Account :=
  mkAccount (username a) b (email a).

(** The [.set({...})] of the settlement update. *)
Definition setSettlement (st : Status) (o : Outcome)
    (gain final price value gainLoss : option Q) (t : Trade) : Trade :=
  mkTrade (user_id t) (crypto_id t) (crypto_name t) (crypto_symbol t)
    (type t) (direction t) (amount t) (initial_price t) (delivery_time t)
    st (timestamp t) (trade_email t)
    gain final price value gainLoss (Some o).

Section Server.

(** What the program does not decide: which database statements fail,
    what [Math.random] returns, and the string formats checked by zod. *)
Variable fault : DbOp -> bool.
Variable random : nat -> Q.
Variable is_uuid : string -> bool.
Variable is_email : string -> bool.

(** *** Database statements *)

Definition statement {A} (op : DbOp) (run : M A) : M A :=
  if fault op then throw (DbError op) else run.

Definition isDue (nowMs : Z) (row : string * Trade) : Prop :=
  status row.2 = pending /\ delivery_time row.2 <= nowMs.

Global Instance isDue_dec nowMs row : Decision (isDue nowMs row).
Proof. unfold isDue. apply _. Defined.

(** [db.select().from(trades).where(and(eq(trades.status, 'pending'),
    lte(trades.delivery_time, nowMs)))] *)
Definition selectDueTrades (nowMs : Z) : M (list (string * Trade)) :=
  statement OpSelectDueTrades
    (fun w => (w, Ok (filter (isDue nowMs) (map_to_list (trades w))))).

(** [select().from(accounts).where(eq(accounts.id, id))], first row;
    also [db.query.accounts.findFirst]. *)
Definition selectAccount (id : string) : M (option Account) :=
  statement (OpSelectAccount id) (fun w => (w, Ok (accounts w !! id))).

(** [update(accounts).set({ balance }).where(eq(accounts.id, id))];
    [balance] is a column that cannot be null. *)
Definition updateAccountBalance (id : string) (b : option Q) : M unit :=
  statement (OpUpdateAccount id)
    match b with
    | Some b' => fun w =>
        (setAccounts (alter (setBalance b') id (accounts w)) w, Ok tt)
    | None => throw (DbError (OpUpdateAccount id))
    end.

(** [update(trades).set(...).where(eq(trades.id, id))] *)
Definition updateTrade (id : string) (set : Trade -> Trade) : M unit :=
  statement (OpUpdateTrade id)
    (fun w => (setTrades (alter set id (trades w)) w, Ok tt)).

(** [insert(trades).values(row)]; [id] is the primary key. *)
Definition insertTrade (id : string) (row : Trade) : M unit :=
  statement (OpInsertTrade id)
    (fun w =>
       match trades w !! id with
       | Some _ => (w, Throw (DbError (OpInsertTrade id)))
       | None => (setTrades (<[id := row]> (trades w)) w, Ok tt)
       end).

(** [Math.random()] *)
Definition mathRandom : M Q := fun w =>
  (mkWorld (accounts w) (trades w) (S (cursor w)) (console w),
   Ok (random (cursor w))).

(** [for (const x of xs) { await body(x) }] *)
Fixpoint forEach {A} (xs : list A) (body : A -> M unit) : M unit :=
  match xs with
  | [] => mret tt
  | x :: rest => body x ;; forEach rest body
  end.

(** *** resolvePendingTrades *)

(** The simulation block of the callback: the locals start as ['draw'],
    [0], [0] and the entry price, then one draw picks the branch and a
    second one the percentage. [amount] and [initial_price] cannot be
    null, so the [|| '0'] of the source never applies. *)
Definition simulateOutcome (trade : string * Trade) : M Settle.t :=
  let locals :=
    Settle.mk draw 0 0 (Num.parseFloat (initial_price trade.2)) in
  randomNumber ← mathRandom;
  let initialAmountInvested := Num.parseFloat (amount trade.2) in
  let initialPriceAtTrade := Num.parseFloat (initial_price trade.2) in
  if Qlt_le_dec randomNumber WIN_PERCENTAGE_SIMULATION then
    r ← mathRandom;
    let randomProfitPercentage :=
      (MIN_PROFIT_PERCENTAGE
       + r * (MAX_PROFIT_PERCENTAGE - MIN_PROFIT_PERCENTAGE))%Q in
    let gainPercentage := (randomProfitPercentage * 100)%Q in
    let profitAmount := (initialAmountInvested * randomProfitPercentage)%Q in
    let finalAmount := (initialAmountInvested + profitAmount)%Q in
    let simulatedFinalPrice :=
      (initialPriceAtTrade * (1 + randomProfitPercentage))%Q in
    log (LogOutcome trade.1 win) ;;
    mret (Settle.setSimulatedFinalPrice simulatedFinalPrice
            (Settle.setFinalAmount finalAmount
               (Settle.setGainPercentage gainPercentage
                  (Settle.setOutcome win locals))))
  else
    r ← mathRandom;
    let randomLossPercentage :=
      (MIN_LOSS_PERCENTAGE
       + r * (MAX_LOSS_PERCENTAGE - MIN_LOSS_PERCENTAGE))%Q in
    let gainPercentage := (- randomLossPercentage * 100)%Q in
    let lossAmount := (initialAmountInvested * randomLossPercentage)%Q in
    let finalAmount := (initialAmountInvested - lossAmount)%Q in
    let simulatedFinalPrice :=
      (initialPriceAtTrade * (1 - randomLossPercentage))%Q in
    log (LogOutcome trade.1 loss) ;;
    mret (Settle.setSimulatedFinalPrice simulatedFinalPrice
            (Settle.setFinalAmount finalAmount
               (Settle.setGainPercentage gainPercentage
                  (Settle.setOutcome loss locals)))).

(** The callback given to [db.transaction] for one trade of the sweep;
    [trade] is the row as the query of the sweep returned it. *)
Definition settleTrade (nowMs : Z) (trade : string * Trade) : M unit :=
  let deliveryTimeMs := delivery_time trade.2 in
  log (LogPendingCheck trade.1 (status trade.2)) ;;
  if decide (deliveryTimeMs <= nowMs) then
    log (LogPastDelivery trade.1) ;;
    locals ← simulateOutcome trade;
    userAccount ← selectAccount (user_id trade.2);
    match userAccount with
    | Some userAccount =>
        let currentBalance := Num.parseFloat (balance userAccount) in
        let newBalance := (currentBalance + Settle.finalAmount locals)%Q in
        updateAccountBalance (user_id trade.2)
          (numToString (Some newBalance)) ;;
        log (LogBalanceUpdated (user_id trade.2))
    | None => log (WarnAccountNotFound (user_id trade.2) trade.1)
    end ;;
    updateTrade trade.1
      (setSettlement completed (Settle.outcome locals)
         (numToString (Some (Settle.gainPercentage locals)))
         (numToString (Some (Settle.finalAmount locals)))
         (numToString (Some (Settle.simulatedFinalPrice locals)))
         (numToString (Some (Settle.finalAmount locals)))
         (numToString (Some (Settle.gainPercentage locals)))) ;;
    log (LogResolved trade.1 (Settle.outcome locals))
  else
    log (LogNotReady trade.1).

(** The sweep after its query: one transaction per selected trade. *)
Definition resolveEach (nowMs : Z) (pendingTrades : list (string * Trade))
    : M unit :=
  forEach pendingTrades (fun trade => transaction (settleTrade nowMs trade)).

(** [nowMs] is the reading of [Date.now()] at the start of the sweep. *)
Definition resolvePendingTrades (nowMs : Z) : M unit :=
  log LogStarted ;;
  tryFinally
    (tryCatch
       (pendingTrades ← selectDueTrades nowMs;
        log (LogFound (length pendingTrades)) ;;
        resolveEach nowMs pendingTrades)
       (fun error => log ErrorResolving))
    (log LogFinished).

(** *** POST /api/trades *)

Definition validEmail (e : option string) : bool :=
  match e with
  | Some e' => is_email e'
  | None => true
  end.

(** The checks of [insertTradeSchema]. *)
Definition schemaAccepts (body : InsertTrade.t) : bool :=
  is_uuid (InsertTrade.id body)
  && is_uuid (InsertTrade.userId body)
  && Qle_bool 0 (InsertTrade.amount body)
  && Qle_bool 0 (InsertTrade.entryPrice body)
  && (0 <? InsertTrade.deliveryTime body)
  && (0 <? InsertTrade.timestamp body)
  && validEmail (InsertTrade.email body).

(** The body with the default of the schema filled in:
    [status: z.enum([...]).optional().default('pending')]. *)
Definition withDefaults (body : InsertTrade.t) : InsertTrade.t :=
  InsertTrade.mk
    (InsertTrade.id body) (InsertTrade.userId body)
    (InsertTrade.cryptoId body) (InsertTrade.cryptoName body)
    (InsertTrade.cryptoSymbol body) (InsertTrade.type body)
    (InsertTrade.direction body) (InsertTrade.amount body)
    (InsertTrade.entryPrice body) (InsertTrade.deliveryTime body)
    (Some (default pending (InsertTrade.status body)))
    (InsertTrade.timestamp body) (InsertTrade.email body)
    (InsertTrade.gainPercentage body) (InsertTrade.finalAmount body)
    (InsertTrade.simulatedFinalPrice body)
    (InsertTrade.currentTradeValue body)
    (InsertTrade.currentGainLossPercentage body)
    (InsertTrade.outcome body).

(** [insertTradeSchema.parse(req.body)]: a [ZodError] when a check
    fails, else the body with its defaults. *)
Definition parse (body : InsertTrade.t) : M InsertTrade.t :=
  if schemaAccepts body then mret (withDefaults body) else throw ZodError.

(** The row built from the validated body; [nowMs] is [Date.now()]. *)
Definition tradeToInsert (nowMs : Z) (validatedData : InsertTrade.t)
    : Trade :=
  {| user_id := InsertTrade.userId validatedData;
     crypto_id := InsertTrade.cryptoId validatedData;
     crypto_name := InsertTrade.cryptoName validatedData;
     crypto_symbol := InsertTrade.cryptoSymbol validatedData;
     type := InsertTrade.type validatedData;
     direction := InsertTrade.direction validatedData;
     amount := nonNull (numToString (Some (InsertTrade.amount validatedData)));
     initial_price :=
       nonNull (numToString (Some (InsertTrade.entryPrice validatedData)));
     delivery_time := InsertTrade.deliveryTime validatedData;
     status := default pending (InsertTrade.status validatedData);
     timestamp :=
       if decide (InsertTrade.timestamp validatedData = 0) then nowMs
       else InsertTrade.timestamp validatedData;
     trade_email := InsertTrade.email validatedData;
     outcome := InsertTrade.outcome validatedData;
     gain_percentage := numToString (InsertTrade.gainPercentage validatedData);
     final_amount := numToString (InsertTrade.finalAmount validatedData);
     simulated_final_price :=
       numToString (InsertTrade.simulatedFinalPrice validatedData);
     current_trade_value :=
       numToString (InsertTrade.finalAmount validatedData);
     current_gain_loss_percentage :=
       numToString (InsertTrade.currentGainLossPercentage validatedData) |}.

(** The handler of [POST /api/trades]; the result is the response sent. *)
Definition postTrade (nowMs : Z) (body : InsertTrade.t) : M Response :=
  tryCatch
    (validatedData ← parse body;
     userAccount ← selectAccount (InsertTrade.userId validatedData);
     match userAccount with
     | None => mret UserAccountNotFound
     | Some userAccount =>
         let tradeAmount :=
           Num.parseFloatOr0
             (numToString (Some (InsertTrade.amount validatedData))) in
         if Qlt_le_dec (Num.parseFloat (balance userAccount)) tradeAmount
         then mret InsufficientBalance
         else
           let newBalance :=
             (Num.parseFloat (balance userAccount) - tradeAmount)%Q in
           transaction
             (updateAccountBalance (InsertTrade.userId validatedData)
                (numToString (Some newBalance)) ;;
              insertTrade (InsertTrade.id validatedData)
                (tradeToInsert nowMs validatedData)) ;;
           mret TradeCreated
     end)
    (fun error =>
       match error with
       | ZodError => mret ValidationFailed
       | DbError _ => log ErrorCreate ;; mret FailedToCreate
       end).

End Server.

(** ** The effect of a settlement, as functions of the world

    These functions restate what [simulateOutcome] and [settleTrade] do
    when no statement fails; the lemmas below relate them to the
    handlers. *)

(** The locals after the simulation block, from the two draws. *)
Definition settleLocals (randomNumber r : Q) (t : Trade) : Settle.t :=
  if Qlt_le_dec randomNumber WIN_PERCENTAGE_SIMULATION then
    let p := (MIN_PROFIT_PERCENTAGE
              + r * (MAX_PROFIT_PERCENTAGE - MIN_PROFIT_PERCENTAGE))%Q in
    Settle.mk win (amount t + amount t * p)%Q (p * 100)%Q
      (initial_price t * (1 + p))%Q
  else
    let p := (MIN_LOSS_PERCENTAGE
              + r * (MAX_LOSS_PERCENTAGE - MIN_LOSS_PERCENTAGE))%Q in
    Settle.mk loss (amount t - amount t * p)%Q (- p * 100)%Q
      (initial_price t * (1 - p))%Q.

(** The update of the trade row with the locals [l]. *)
Definition settledRow (l : Settle.t) : Trade -> Trade :=
  setSettlement completed (Settle.outcome l)
    (numToString (Some (Settle.gainPercentage l)))
    (numToString (Some (Settle.finalAmount l)))
    (numToString (Some (Settle.simulatedFinalPrice l)))
    (numToString (Some (Settle.finalAmount l)))
    (numToString (Some (Settle.gainPercentage l))).

(** The update of the account row with the credit [x]. *)
Definition creditAccount (x : Q) (a : Account) : Account :=
  setBalance (Num.toFixed 8 (balance a + x)) a.

(** The world after the settlement of [trade] went through. *)
Definition settleWorld (random : nat -> Q) (trade : string * Trade)
    (w : World) : World :=
  let l := settleLocals (random (cursor w)) (random (S (cursor w))) trade.2 in
  mkWorld
    (alter (creditAccount (Settle.finalAmount l)) (user_id trade.2)
       (accounts w))
    (alter (settledRow l) trade.1 (trades w))
    (S (S (cursor w)))
    (((((console w ++ [LogPendingCheck trade.1 (status trade.2)])
          ++ [LogPastDelivery trade.1])
         ++ [LogOutcome trade.1 (Settle.outcome l)])
        ++ [match accounts w !! user_id trade.2 with
            | Some _ => LogBalanceUpdated (user_id trade.2)
            | None => WarnAccountNotFound (user_id trade.2) trade.1
            end])
       ++ [LogResolved trade.1 (Settle.outcome l)]).

(** The worlds agree on the two tables. *)
Definition sameTables (w w' : World) : Prop :=
  accounts w' = accounts w /\ trades w' = trades w.

Definition isResolved (e : LogEntry) : bool :=
  match e with
  | LogResolved _ _ => true
  | _ => false
  end.

(** How many trades the console reports as resolved. *)
Definition resolvedCount (c : list LogEntry) : nat :=
  length (List.filter isResolved c).

(** No statement fails. *)
Definition noFault : DbOp -> bool := fun _ => false.

(** The rows the query of the sweep returns at [nowMs]. *)
Definition dueTrades (nowMs : Z) (w : World) : list (string * Trade) :=
  filter (isDue nowMs) (map_to_list (trades w)).

(** The world after the settlements of [l] went through, one by one. *)
Definition sweepWorld (random : nat -> Q) (l : list (string * Trade))
    (w : World) : World :=
  foldl (fun w trade => settleWorld random trade w) w l.

(** The world once the sweep has printed its first two lines. *)
Definition started (n : nat) (w : World) : World :=
  addLog (LogFound n) (addLog LogStarted w).

(** A trade row with its [direction] blanked, and a world with the
    [direction] of every trade row blanked. *)
Definition forgetDirection (t : Trade) : Trade :=
  mkTrade (user_id t) (crypto_id t) (crypto_name t) (crypto_symbol t)
    (type t) up (amount t) (initial_price t) (delivery_time t)
    (status t) (timestamp t) (trade_email t)
    (gain_percentage t) (final_amount t) (simulated_final_price t)
    (current_trade_value t) (current_gain_loss_percentage t) (outcome t).

Definition forgetRow (x : string * Trade) : string * Trade :=
  (x.1, forgetDirection x.2).

Definition forgetDirections (w : World) : World :=
  setTrades (forgetDirection <$> trades w) w.

(** Across the settlements of [l], the row under key [k] is either as it
    was or has been settled. *)
Definition rowStep (l : list (string * Trade)) (k : string)
    (o o' : option Trade) : Prop :=
  o' = o
  \/ exists t s, o = Some t /\ (exists t0, (k, t0) ∈ l)
       /\ o' = Some (settledRow s t)
       /\ (Settle.outcome s = win \/ Settle.outcome s = loss).

(** ** Concrete worlds and requests *)

Module Example.

(** Every string passes the format checks; every draw is [0.5] (a win
    with profit fraction [0.13]) or [0.9] (a loss with loss fraction
    [0.046]). *)
Definition anyString : string -> bool := fun _ => true.
Definition half : nat -> Q := fun _ => 0.5%Q.
Definition high : nat -> Q := fun _ => 0.9%Q.

Definition alice (b : Q) : Account := mkAccount "alice" b "alice@example.com".

(** A request of [amount] on bitcoin at 30000, due at time 1000. *)
Definition request (id : string) (amount : Q) : InsertTrade.t :=
  InsertTrade.mk id "u1" "bitcoin" "Bitcoin" "BTC" buy up amount 30000
    1000 None 500 None None None None None None None.


(** A pending row of [amount], due at time 1000. *)
Definition pendingRow (d : Direction) (amount : Q) : Trade :=
  mkTrade "u1" "bitcoin" "Bitcoin" "BTC" buy d amount 30000 1000 pending
    500 None None None None None None None.

(** No account and no trade. *)
Definition nobody : World := mkWorld ∅ ∅ 0 [].

(** One account and no trade. *)
Definition bank (b : Q) : World := mkWorld {["u1" := alice b]} ∅ 0 [].

(** One account with 9000 and one pending trade of 1000. *)
Definition oneTrade (d : Direction) : World :=
  mkWorld {["u1" := alice 9000]} {["t1" := pendingRow d 1000]} 0 [].

(** One account with 8000 and two pending trades of 1000. *)
Definition twoTrades : World :=
  mkWorld {["u1" := alice 8000]}
    {["t1" := pendingRow up 1000; "t2" := pendingRow up 1000]} 0 [].

(** The update of the trade row [id] fails, nothing else does. *)
Definition failsOn (id : string) : DbOp -> bool := fun op =>
  match op with
  | OpUpdateTrade id' => String.eqb id id'
  | _ => false
  end.

End Example.

(** ** The scale of the decimal columns (shared/schema.ts)

    The worlds above hold the texts the handlers write. Postgres keeps a
    text written to a [decimal(p, s)] column as a number with [s]
    fractional digits, rounded to the nearest one, a tie away from zero,
    and that number is what a later query or [.returning()] gives back.
    The definitions below say what the database keeps of a row; a value
    too large for the precision [p] of its column is a failed statement,
    which is left to [fault]. *)

Module Column.

(** What a [decimal(p, scale)] column keeps of the number [x]. *)
Definition numeric (scale : nat) (x : Q) : Q := Num.toFixed scale x.

(** [x] has at most [f] fractional digits. *)
Definition onGrid (f : nat) (x : Q) : Prop :=
  exists n : Z, Qeq x (Qmake n (Num.pow10 f)).

(** [accounts]: [balance] is [decimal(20, 2)]. *)
Definition account (a : Account) : Account :=
  mkAccount (username a) (numeric 2 (balance a)) (email a).

(** [trades]: [amount], [initial_price], [final_amount],
    [simulated_final_price] and [current_trade_value] are
    [decimal(18, 8)]; [gain_percentage] and
    [current_gain_loss_percentage] are [decimal(10, 4)]. *)
Definition trade (t : Trade) : Trade :=
  mkTrade (user_id t) (crypto_id t) (crypto_name t) (crypto_symbol t)
    (type t) (direction t)
    (numeric 8 (amount t)) (numeric 8 (initial_price t))
    (delivery_time t) (status t) (timestamp t) (trade_email t)
    (numeric 4 <$> gain_percentage t)
    (numeric 8 <$> final_amount t)
    (numeric 8 <$> simulated_final_price t)
    (numeric 8 <$> current_trade_value t)
    (numeric 4 <$> current_gain_loss_percentage t)
    (outcome t).

End Column.



(** * The other routes and helpers of server/routes.ts

    The routes below use tables and console lines the trade routes above do
    not: they run over a [Store], which holds the [World] of the trade
    routes, the [uid] column of [accounts], the tables [strategies] and
    [investments], the stream of [uuidv4()] and a second console. *)

(** [stringToNum]: [null] and [undefined] give [0], a decimal text its
    number. The [isNaN] branch has no counterpart. *)
Definition stringToNum (val : option Q) : Q :=
  match val with
  | None => 0%Q
  | Some s => Num.parseFloat s
  end.

(** A row of [strategies]; the primary key [id] is the key of the table. *)
Module Strategy.
Record t := mk {
  name : string;
  dailyReturn : option Q;
  maxDrawdown : option Q;
  duration_days : Z;
}.
End Strategy.

(** A row of [investments]; the primary key [id] is the key of the table. *)
Module Investment.
Inductive Status := active | completed | cancelled.
Record t := mk {
  userId : string;
  strategyId : string;
  investmentAmount : Q;
  currentValue : Q;
  startDate : Z;
  durationDays : Z;
  status : Status;
  createdAt : Z;
  updatedAt : Z;
}.
End Investment.

(** The statements of the other routes. *)
Inductive Stmt :=
  | StmtSelectUid (uid : Z)
  | StmtSelectStrategy (id : string)
  | StmtInsertInvestment (id : string)
  | StmtSelectAnyStrategy
  | StmtInsertStrategies
  | StmtSelectTradesByEmail (email : string)
  | StmtInsertTrades (ids : list string)
  | StmtSelectUserInvestments (userId : string).

Inductive Error :=
  | CoreError (e : Exn)
  | StmtError (s : Stmt)
  | UidDatabaseError      (* "Database error during UID generation: ..." *)
  | UidExhausted          (* "Failed to generate a unique Account UID ..." *)
  | InvestmentNotCreated. (* "Failed to create investment record." *)

(** What the other routes print. *)
Inductive Note :=
  | NoteManualRequest
  | NoteManualFailed
  | NoteUidCheckError
  | NoteUpdateBalanceFailed
  | NoteAdminBalanceFailed (userId : string)
  | NoteInvestError
  | NoteSeedAttempt
  | NoteSeedNone
  | NoteSeedDone
  | NoteSeedExists
  | NoteSeedError
  | NoteTransactionsFailed
  | NoteFetchTransactionsError
  | NoteUserInvestmentsFailed
  | NoteProcessing (tradeId : string).

Record Store := mkStore {
  world : World;
  uids : gset Z;
  strategies : gmap string Strategy.t;
  investments : gmap string Investment.t;
  uuidCursor : nat;
  journal : list Note;
}.

Definition setWorld (w : World) (s : Store) : Store :=
  mkStore w (uids s) (strategies s) (investments s) (uuidCursor s) (journal s).
Definition setStrategies (t : gmap string Strategy.t) (s : Store) : Store :=
  mkStore (world s) (uids s) t (investments s) (uuidCursor s) (journal s).
Definition setInvestments (t : gmap string Investment.t) (s : Store) : Store :=
  mkStore (world s) (uids s) (strategies s) t (uuidCursor s) (journal s).
Definition addNote (n : Note) (s : Store) : Store :=
  mkStore (world s) (uids s) (strategies s) (investments s) (uuidCursor s)
    (journal s ++ [n]).

Inductive Reply (A : Type) :=
  | Done (a : A)
  | Raised (e : Error).
Arguments Done {A} a.
Arguments Raised {A} e.

(** A computation over the store. *)
Definition R (A : Type) : Type := Store -> Store * Reply A.

Global Instance R_ret : MRet R := fun A a s => (s, Done a).
Global Instance R_bind : MBind R := fun A B f m s =>
  match m s with
  | (s', Done a) => f a s'
  | (s', Raised e) => (s', Raised e)
  end.

Definition raise {A} (e : Error) : R A := fun s => (s, Raised e).

(** [try { m } catch (error) { h error }] *)
Definition tryCatchR {A} (m : R A) (h : Error -> R A) : R A := fun s =>
  match m s with
  | (s', Done a) => (s', Done a)
  | (s', Raised e) => h e s'
  end.

Definition note (n : Note) : R unit := fun s => (addNote n s, Done tt).

(** A computation of the trade routes, run on the world of the store. *)
Definition liftCore {A} (m : M A) : R A := fun s =>
  match m (world s) with
  | (w', Ok a) => (setWorld w' s, Done a)
  | (w', Throw e) => (setWorld w' s, Raised (CoreError e))
  end.

(** The bodies and answers of the routes. *)
Module BalanceBody.
Record t := mk {
  userId : string;          (* [""] stands for a missing user id *)
  balance : option Q;       (* [None]: not a number *)
}.
End BalanceBody.

(** The answers of [POST /api/update-balance]. *)
Inductive BalanceResponse :=
  | BalanceUpdated (balance : Q)   (* 200 [{ success: true, balance }] *)
  | BalanceBadRequest     (* 400 "userId and numeric balance are required." *)
  | BalanceUserNotFound   (* 404 "User not found." *)
  | BalanceFailed.        (* 500 "Failed to update balance" *)

(** The answers of [PUT /api/admin/users/:userId/balance]. *)
Inductive AdminBalanceResponse :=
  | AdminBalanceUpdated (id email : string) (balance : Q)
      (* 200 [{ success: true, message: "Balance for user ... updated
         successfully.", user: { id, email, balance } }] *)
  | AdminBalanceBadRequest     (* 400 "A numeric balance is required." *)
  | AdminBalanceForbidden      (* 403 "Access Denied: ..." *)
  | AdminBalanceUserNotFound   (* 404 "User not found." *)
  | AdminBalanceFailed.        (* 500 "Failed to update user balance." *)

Inductive CompleteResponse :=
  | CompleteInitiated    (* 200 "Trade resolution process initiated ..." *)
  | CompleteFailed.      (* 500 "Failed to manually resolve trades" *)

Module InvestBody.
Record t := mk {
  userId : string;          (* [""] stands for a missing user id *)
  amount : option Q;        (* [None]: not a number *)
  strategyId : string;      (* [""] stands for a missing strategy id *)
}.
End InvestBody.

Inductive InvestResponse :=
  | InvestSimulated (investmentId : string)  (* 200 *)
  | InvestBadRequest        (* 400 "User ID, amount, and strategy ID ..." *)
  | InvestUserNotFound      (* 404 "User account not found." *)
  | InvestInsufficient      (* 400 "Insufficient balance." *)
  | InvestStrategyNotFound  (* 404 "Strategy not found." *)
  | InvestFailed.           (* 500 "Failed to process investment" *)

(** An element of the answer of [GET /api/user-investments]. A time is
    represented by its reading in milliseconds, also where the route
    prints it with [toISOString]. *)
Module InvestmentView.
Record t := mk {
  id : string;
  userId : string;
  strategyId : string;
  strategyName : string;
  investmentAmount : Q;
  currentValue : Q;
  expectedReturn : option Q;   (* [None]: the text ['N/A'] *)
  status : Investment.Status;
  startDate : Z;
  durationDays : Z;
  createdAt : Z;
  updatedAt : Z;
}.
End InvestmentView.

Inductive InvestmentsResponse :=
  | InvestmentsList (l : list InvestmentView.t)   (* 200 *)
  | InvestmentsUserRequired                       (* 400 *)
  | InvestmentsFetchFailed.                       (* 500 *)

(** [investments.userId = userId] *)
Definition ofUser (userId : string) (x : string * Investment.t) : Prop :=
  Investment.userId x.2 = userId.

Global Instance ofUser_dec userId x : Decision (ofUser userId x).
Proof. unfold ofUser. apply _. Defined.

(** [formattedInvestments]: one element of the answer, from a row of
    [investments] and the row of [strategies] the left join found for
    it. *)
Definition formattedInvestment
    (inv : string * Investment.t * option Strategy.t) : InvestmentView.t :=
  let strategyName := Strategy.name <$> inv.2 in
  let expectedReturn := inv.2 ≫= Strategy.dailyReturn in
  {| InvestmentView.id := inv.1.1;
     InvestmentView.userId := Investment.userId inv.1.2;
     InvestmentView.strategyId := Investment.strategyId inv.1.2;
     InvestmentView.strategyName :=
       match strategyName with
       | Some name => if decide (name = "") then "Unknown Strategy" else name
       | None => "Unknown Strategy"
       end;
     InvestmentView.investmentAmount :=
       Num.parseFloat (Investment.investmentAmount inv.1.2);
     InvestmentView.currentValue :=
       Num.parseFloat (Investment.currentValue inv.1.2);
     InvestmentView.expectedReturn :=
       Num.toFixed 2 <$> (Num.parseFloat <$> expectedReturn);
     InvestmentView.status := Investment.status inv.1.2;
     InvestmentView.startDate := Investment.startDate inv.1.2;
     InvestmentView.durationDays := Investment.durationDays inv.1.2;
     InvestmentView.createdAt := Investment.createdAt inv.1.2;
     InvestmentView.updatedAt := Investment.updatedAt inv.1.2 |}.

(** An element of the answer of [GET /api/transactions]: the row of the
    trade ([...trade], its [amount] as a number) and the fields added to
    it. *)
Module TradeView.
Record t := mk {
  id : string;
  row : Trade;
  initialPrice : Q;
  gainPercentage : option Q;
  finalAmount : option Q;
  simulatedFinalPrice : option Q;
  currentTradeValue : option Q;
  currentGainLossPercentage : option Q;
  timestamp : Z;
  deliveryTime : Z;
  userId : string;
  cryptoId : string;
  entryPrice : Q;
}.
End TradeView.

Inductive TransactionsResponse :=
  | TransactionsList (l : list TradeView.t)   (* 200 *)
  | TransactionsEmailRequired                 (* 400 *)
  | TransactionsFetchFailed.                  (* 500 *)

Module TransactionsBody.
Record t := mk {
  userId : string;                            (* [""]: missing *)
  transactions : option (list InsertTrade.t); (* [None]: not an array *)
}.
End TransactionsBody.

Inductive SaveResponse :=
  | TransactionsSaved         (* 200 "Transactions saved successfully." *)
  | SaveBadRequest            (* 400 "userId and an array ..." *)
  | SaveValidationFailed      (* 400 "Validation failed for one or more ..." *)
  | SaveFailed.               (* 500 "Failed to save transactions" *)

(** [parsedTrades]: one element of the answer. *)
Definition parsedTrade (trade : string * Trade) : TradeView.t :=
  {| TradeView.id := trade.1;
     TradeView.row := trade.2;
     TradeView.initialPrice := Num.parseFloat (initial_price trade.2);
     TradeView.gainPercentage := Num.parseFloat <$> gain_percentage trade.2;
     TradeView.finalAmount := Num.parseFloat <$> final_amount trade.2;
     TradeView.simulatedFinalPrice :=
       Num.parseFloat <$> simulated_final_price trade.2;
     TradeView.currentTradeValue :=
       Num.parseFloat <$> current_trade_value trade.2;
     TradeView.currentGainLossPercentage :=
       Num.parseFloat <$> current_gain_loss_percentage trade.2;
     TradeView.timestamp := timestamp trade.2;
     TradeView.deliveryTime := delivery_time trade.2;
     TradeView.userId := user_id trade.2;
     TradeView.cryptoId := crypto_id trade.2;
     TradeView.entryPrice := Num.parseFloat (initial_price trade.2) |}.

(** [orderBy(desc(trades.timestamp))]: [x] may come before [y]. *)
Definition newerFirst (x y : string * Trade) : Prop :=
  timestamp y.2 <= timestamp x.2.

Global Instance newerFirst_dec x y : Decision (newerFirst x y).
Proof. unfold newerFirst. apply _. Defined.

(** [eq(trades.email, email)] *)
Definition hasEmail (email : string) (x : string * Trade) : Prop :=
  trade_email x.2 = Some email.

Global Instance hasEmail_dec email x : Decision (hasEmail email x).
Proof. unfold hasEmail. apply _. Defined.

(** The object given to [insertTradeSchema.parse] for one element of
    [transactions]: its fields, with the [userId] of the body. *)
Definition withUserId (userId : string) (trade : InsertTrade.t)
    : InsertTrade.t :=
  InsertTrade.mk
    (InsertTrade.id trade) userId
    (InsertTrade.cryptoId trade) (InsertTrade.cryptoName trade)
    (InsertTrade.cryptoSymbol trade) (InsertTrade.type trade)
    (InsertTrade.direction trade) (InsertTrade.amount trade)
    (InsertTrade.entryPrice trade) (InsertTrade.deliveryTime trade)
    (InsertTrade.status trade)
    (InsertTrade.timestamp trade) (InsertTrade.email trade)
    (InsertTrade.gainPercentage trade) (InsertTrade.finalAmount trade)
    (InsertTrade.simulatedFinalPrice trade)
    (InsertTrade.currentTradeValue trade)
    (InsertTrade.currentGainLossPercentage trade)
    (InsertTrade.outcome trade).

(** The row [POST /api/transactions] builds from a validated element;
    [nowMs] is [Date.now()]. *)
Definition transactionToInsert (nowMs : Z) (trade : InsertTrade.t)
    : string * Trade :=
  (InsertTrade.id trade,
   {| user_id := InsertTrade.userId trade;
      crypto_id := InsertTrade.cryptoId trade;
      crypto_name := InsertTrade.cryptoName trade;
      crypto_symbol := InsertTrade.cryptoSymbol trade;
      type := InsertTrade.type trade;
      direction := InsertTrade.direction trade;
      amount := nonNull (numToString (Some (InsertTrade.amount trade)));
      initial_price :=
        nonNull (numToString (Some (InsertTrade.entryPrice trade)));
      delivery_time := InsertTrade.deliveryTime trade;
      status := default pending (InsertTrade.status trade);
      timestamp :=
        if decide (InsertTrade.timestamp trade = 0) then nowMs
        else InsertTrade.timestamp trade;
      trade_email := InsertTrade.email trade;
      outcome := InsertTrade.outcome trade;
      gain_percentage := numToString (InsertTrade.gainPercentage trade);
      final_amount := numToString (InsertTrade.finalAmount trade);
      simulated_final_price :=
        numToString (InsertTrade.simulatedFinalPrice trade);
      current_trade_value :=
        numToString (InsertTrade.currentTradeValue trade);
      current_gain_loss_percentage :=
        numToString (InsertTrade.currentGainLossPercentage trade) |}).

(** The address [isAdmin] compares the [x-user-email] header with. *)
Definition ADMIN_EMAIL : string := "calvingleichner181@gmail.com".

Definition MAX_ATTEMPTS : nat := 10.

(** The rows [seedStrategies] inserts. *)
Definition defaultStrategies : list (string * Strategy.t) :=
  [("5day", Strategy.mk "5-Day Strategy" (Some 0.015%Q) (Some 0.02%Q) 5);
   ("30day", Strategy.mk "30-Day Strategy" (Some 0.012%Q) (Some 0.05%Q) 30);
   ("90day", Strategy.mk "90-Day Strategy" (Some 0.010%Q) (Some 0.08%Q) 90)].

Section Routes.

Variable fault : DbOp -> bool.
Variable faultS : Stmt -> bool.
Variable random : nat -> Q.
Variable uuidv4 : nat -> string.
Variable is_uuid : string -> bool.
Variable is_email : string -> bool.
Variable trim : string -> string.

Definition statementS {A} (st : Stmt) (run : R A) : R A :=
  if faultS st then raise (StmtError st) else run.

(** The first row [.returning()] gives after
    [update(accounts).set({ balance }).where(eq(accounts.id, id))]: the
    row of [id] as the database holds it, its balance at the scale of the
    column. *)
Definition updatedRow (id : string) : R (option Account) := fun s =>
  (s, Done (Column.account <$> accounts (world s) !! id)).

Definition updateBalanceReturning (id : string) (b : option Q)
    : R (option Account) :=
  liftCore (updateAccountBalance fault id b) ;; updatedRow id.

(** [db.query.strategies.findFirst({ where: eq(strategies.id, id) })] *)
Definition findStrategy (id : string) : R (option Strategy.t) :=
  statementS (StmtSelectStrategy id) (fun s => (s, Done (strategies s !! id))).

(** [db.insert(investments).values(row).returning()], first row. *)
Definition insertInvestment (id : string) (row : Investment.t)
    : R (option Investment.t) :=
  statementS (StmtInsertInvestment id)
    (fun s =>
       match investments s !! id with
       | Some _ => (s, Raised (StmtError (StmtInsertInvestment id)))
       | None => (setInvestments (<[id := row]> (investments s)) s,
                  Done (Some row))
       end).

(** [uuidv4()] *)
Definition newUuid : R string := fun s =>
  (mkStore (world s) (uids s) (strategies s) (investments s)
     (S (uuidCursor s)) (journal s),
   Done (uuidv4 (uuidCursor s))).

(** *** isAdmin *)

(** [isAdmin]: the request goes on when the header is the admin address. *)
Definition isAdmin (userEmail : option string) : bool :=
  bool_decide (userEmail = Some ADMIN_EMAIL).

(** *** POST /api/update-balance and PUT /api/admin/users/:userId/balance *)

Definition postUpdateBalance (body : BalanceBody.t) : R BalanceResponse :=
  if bool_decide (BalanceBody.userId body = "")
     || bool_decide (BalanceBody.balance body = None)
  then mret BalanceBadRequest
  else
    tryCatchR
      (let balanceStr := numToString (BalanceBody.balance body) in
       updated ← updateBalanceReturning (BalanceBody.userId body) balanceStr;
       match updated with
       | None => mret BalanceUserNotFound
       | Some updated => mret (BalanceUpdated (Num.parseFloat (balance updated)))
       end)
      (fun error => note NoteUpdateBalanceFailed ;; mret BalanceFailed).

(** [updatedUser.id] is [userId]: the row was selected by
    [eq(accounts.id, userId)], and the id is the key of the table. *)
Definition putAdminBalance (userEmail : option string) (userId : string)
    (bodyBalance : option Q) : R AdminBalanceResponse :=
  if isAdmin userEmail then
    if bool_decide (bodyBalance = None) then mret AdminBalanceBadRequest
    else
      tryCatchR
        (let balanceStr := numToString bodyBalance in
         updatedUser ← updateBalanceReturning userId balanceStr;
         match updatedUser with
         | None => mret AdminBalanceUserNotFound
         | Some updatedUser =>
             mret (AdminBalanceUpdated userId (email updatedUser)
                     (Num.parseFloat (balance updatedUser)))
         end)
        (fun error =>
           note (NoteAdminBalanceFailed userId) ;; mret AdminBalanceFailed)
  else mret AdminBalanceForbidden.

(** *** POST /api/trades/complete *)

(** [nowMs] is what [Date.now()] returns inside the sweep. *)
Definition postTradesComplete (nowMs : Z) : R CompleteResponse :=
  note NoteManualRequest ;;
  tryCatchR
    (liftCore (resolvePendingTrades fault random nowMs) ;;
     mret CompleteInitiated)
    (fun error => note NoteManualFailed ;; mret CompleteFailed).

(** *** generateUniqueAccountUid *)

(** [select({ id }).from(accounts).where(eq(accounts.uid, uid)).limit(1)]:
    whether a row came back. *)
Definition uidExists (uid : Z) : R bool :=
  statementS (StmtSelectUid uid)
    (fun s => (s, Done (bool_decide (uid ∈ uids s)))).

(** [Math.floor(10000000 + Math.random() * 90000000)]; the uid is the
    decimal text of this number. *)
Definition uidCandidate (r : Q) : Z := Qfloor (10000000 + r * 90000000)%Q.

(** The [while] loop with [left] attempts remaining
    ([left = MAX_ATTEMPTS - attempts], and [isUnique] still false). *)
Fixpoint uidLoop (left : nat) : R Z :=
  match left with
  | O => raise UidExhausted
  | S left' =>
      r ← liftCore (mathRandom random);
      let uid := uidCandidate r in
      tryCatchR (uidExists uid)
        (fun error => note NoteUidCheckError ;; raise UidDatabaseError)
      ≫= fun existing : bool =>
      if existing then uidLoop left' else mret uid
  end.

Definition generateUniqueAccountUid : R Z := uidLoop MAX_ATTEMPTS.

(** *** POST /api/invest *)

(** [nowMs] is the reading of [new Date()]. *)
Definition postInvest (nowMs : Z) (body : InvestBody.t) : R InvestResponse :=
  match InvestBody.amount body with
  | Some amount =>
      if bool_decide (InvestBody.userId body = "")
         || bool_decide (InvestBody.strategyId body = "")
      then mret InvestBadRequest
      else
        let userId := InvestBody.userId body in
        let strategyId := InvestBody.strategyId body in
        tryCatchR
          (userAccount ← liftCore (selectAccount fault userId);
           match userAccount with
           | None => mret InvestUserNotFound
           | Some userAccount =>
               let currentBalance := Num.parseFloat (balance userAccount) in
               if Qlt_le_dec currentBalance amount
               then mret InvestInsufficient
               else
                 let newBalance := (currentBalance - amount)%Q in
                 liftCore (updateAccountBalance fault userId
                             (numToString (Some newBalance))) ;;
                 selectedStrategy ← findStrategy strategyId;
                 match selectedStrategy with
                 | None => mret InvestStrategyNotFound
                 | Some selectedStrategy =>
                     newInvestmentId ← newUuid;
                     let investmentData :=
                       Investment.mk userId strategyId
                         (nonNull (numToString (Some amount)))
                         (nonNull (numToString (Some amount)))
                         nowMs
                         (Strategy.duration_days selectedStrategy)
                         Investment.active nowMs nowMs in
                     insertedInvestment ←
                       insertInvestment newInvestmentId investmentData;
                     match insertedInvestment with
                     | None => raise InvestmentNotCreated
                     | Some _ => mret (InvestSimulated newInvestmentId)
                     end
                 end
           end)
          (fun error => note NoteInvestError ;; mret InvestFailed)
  | None => mret InvestBadRequest
  end.

(** *** GET /api/user-investments *)

(** [db.select({...}).from(investments)
    .leftJoin(strategies, eq(investments.strategyId, strategies.id))
    .where(eq(investments.userId, userId))]: every investment of the
    user, with the strategy of its [strategyId] if there is one. *)
Definition selectUserInvestments (userId : string)
    : R (list (string * Investment.t * option Strategy.t)) :=
  statementS (StmtSelectUserInvestments userId)
    (fun s =>
       (s, Done ((fun x => (x, strategies s !! Investment.strategyId x.2))
                   <$> filter (ofUser userId)
                         (map_to_list (investments s))))).

(** [userId] is the query parameter. *)
Definition getUserInvestments (userId : option string)
    : R InvestmentsResponse :=
  match userId with
  | None => mret InvestmentsUserRequired
  | Some userId =>
      if bool_decide (userId = "") then mret InvestmentsUserRequired
      else
        tryCatchR
          (userInvestments ← selectUserInvestments userId;
           mret (InvestmentsList (formattedInvestment <$> userInvestments)))
          (fun error =>
             note NoteUserInvestmentsFailed ;; mret InvestmentsFetchFailed)
  end.

(** *** seedStrategies *)

(** [db.select().from(strategies).limit(1)]: whether a row came back. *)
Definition anyStrategy : R bool :=
  statementS StmtSelectAnyStrategy
    (fun s => (s, Done (bool_decide (strategies s <> ∅)))).

(** [db.insert(strategies).values(rows).returning()]; one statement, which
    fails as a whole when a primary key is taken. *)
Definition insertStrategies (rows : list (string * Strategy.t)) : R unit :=
  statementS StmtInsertStrategies
    (fun s =>
       if bool_decide (NoDup rows.*1
                       /\ Forall (fun k => strategies s !! k = None) rows.*1)
       then (setStrategies (list_to_map rows ∪ strategies s) s, Done tt)
       else (s, Raised (StmtError StmtInsertStrategies))).

Definition seedStrategies : R unit :=
  note NoteSeedAttempt ;;
  tryCatchR
    (anyStrategy ≫= fun existingStrategies : bool =>
     if existingStrategies then note NoteSeedExists
     else
       note NoteSeedNone ;;
       insertStrategies defaultStrategies ;;
       note NoteSeedDone)
    (fun error => note NoteSeedError).

(** *** GET /api/transactions *)

(** [db.select().from(trades).where(eq(trades.email, email))
    .orderBy(desc(trades.timestamp))] *)
Definition selectTradesByEmail (email : string)
    : R (list (string * Trade)) :=
  statementS (StmtSelectTradesByEmail email)
    (fun s =>
       (s, Done (merge_sort newerFirst
                   (filter (hasEmail email)
                      (map_to_list (trades (world s))))))).

(** [email] is the query parameter; [trim] is [String.prototype.trim]. *)
Definition getTransactions (email : option string) : R TransactionsResponse :=
  match email with
  | None => mret TransactionsEmailRequired
  | Some email =>
      if bool_decide (email = "") then mret TransactionsEmailRequired
      else
        tryCatchR
          (let trimmedEmail := trim email in
           tradesData ← selectTradesByEmail trimmedEmail;
           mret (TransactionsList (parsedTrade <$> tradesData)))
          (fun error =>
             note NoteFetchTransactionsError ;; mret TransactionsFetchFailed)
  end.

(** *** POST /api/transactions *)

(** [transactions.map(trade => insertTradeSchema.parse({...}))]: the
    first element the schema refuses throws. *)
Fixpoint parseAll (userId : string) (transactions : list InsertTrade.t)
    : R (list InsertTrade.t) :=
  match transactions with
  | [] => mret []
  | trade :: rest =>
      validated ← liftCore (parse is_uuid is_email (withUserId userId trade));
      others ← parseAll userId rest;
      mret (validated :: others)
  end.

(** [db.insert(trades).values(rows)]; one statement, which fails as a
    whole when a primary key is taken or given twice; [values] refuses an
    empty list of rows. *)
Definition insertTrades (rows : list (string * Trade)) : R unit :=
  statementS (StmtInsertTrades rows.*1)
    (fun s =>
       if bool_decide
            (rows <> []
             /\ NoDup rows.*1
             /\ Forall (fun k => trades (world s) !! k = None) rows.*1)
       then (setWorld
               (setTrades (list_to_map rows ∪ trades (world s)) (world s)) s,
             Done tt)
       else (s, Raised (StmtError (StmtInsertTrades rows.*1)))).

Definition postTransactions (nowMs : Z) (body : TransactionsBody.t)
    : R SaveResponse :=
  tryCatchR
    (match TransactionsBody.transactions body with
     | None => mret SaveBadRequest
     | Some transactions =>
         if bool_decide (TransactionsBody.userId body = "")
         then mret SaveBadRequest
         else
           validatedTransactions ←
             parseAll (TransactionsBody.userId body) transactions;
           let tradesToInsert :=
             transactionToInsert nowMs <$> validatedTransactions in
           insertTrades tradesToInsert ;;
           mret TransactionsSaved
     end)
    (fun error =>
       note NoteTransactionsFailed ;;
       match error with
       | CoreError ZodError => mret SaveValidationFailed
       | _ => mret SaveFailed
       end).

(** *** The second copy of resolvePendingTrades

    The file holds a second, module-local [resolvePendingTrades], run by
    [setInterval] every minute. It sends its statements straight to [db],
    outside any transaction, and prints one more line per trade. *)

Definition tryFinallyR {A} (m : R A) (f : R unit) : R A := fun s =>
  match m s with
  | (s', r) =>
      match f s' with
      | (s'', Done _) => (s'', r)
      | (s'', Raised e) => (s'', Raised e)
      end
  end.

Fixpoint forEachR {A} (xs : list A) (body : A -> R unit) : R unit :=
  match xs with
  | [] => mret tt
  | x :: rest => body x ;; forEachR rest body
  end.

(** The body of the loop for one trade. *)
Definition settleTradeDirect (nowMs : Z) (trade : string * Trade) : R unit :=
  let deliveryTimeMs := delivery_time trade.2 in
  liftCore (log (LogPendingCheck trade.1 (status trade.2))) ;;
  if decide (deliveryTimeMs <= nowMs) then
    liftCore (log (LogPastDelivery trade.1)) ;;
    note (NoteProcessing trade.1) ;;
    locals ← liftCore (simulateOutcome random trade);
    userAccount ← liftCore (selectAccount fault (user_id trade.2));
    match userAccount with
    | Some userAccount =>
        let currentBalance := Num.parseFloat (balance userAccount) in
        let newBalance := (currentBalance + Settle.finalAmount locals)%Q in
        liftCore (updateAccountBalance fault (user_id trade.2)
                    (numToString (Some newBalance))) ;;
        liftCore (log (LogBalanceUpdated (user_id trade.2)))
    | None =>
        liftCore (log (WarnAccountNotFound (user_id trade.2) trade.1))
    end ;;
    liftCore
      (updateTrade fault trade.1
         (setSettlement completed (Settle.outcome locals)
            (numToString (Some (Settle.gainPercentage locals)))
            (numToString (Some (Settle.finalAmount locals)))
            (numToString (Some (Settle.simulatedFinalPrice locals)))
            (numToString (Some (Settle.finalAmount locals)))
            (numToString (Some (Settle.gainPercentage locals))))) ;;
    liftCore (log (LogResolved trade.1 (Settle.outcome locals)))
  else
    liftCore (log (LogNotReady trade.1)).

Definition resolvePendingTradesDirect (nowMs : Z) : R unit :=
  liftCore (log LogStarted) ;;
  tryFinallyR
    (tryCatchR
       (pendingTrades ← liftCore (selectDueTrades fault nowMs);
        liftCore (log (LogFound (length pendingTrades))) ;;
        forEachR pendingTrades (settleTradeDirect nowMs))
       (fun error => liftCore (log ErrorResolving)))
    (liftCore (log LogFinished)).

End Routes.

(** ** Relations between a row before and after a handler *)

(** An account row is still there, with the same [username] and [email],
    and with a balance that is either the same or a text written by
    [numToString]. *)
Definition accountStep (o o' : option Account) : Prop :=
  match o, o' with
  | None, None => True
  | Some a, Some a' =>
      username a' = username a /\ email a' = email a
      /\ (balance a' = balance a \/ Num.onGrid8 (balance a'))
  | _, _ => False
  end.

(** Every balance of the world has at most eight fractional digits. *)
Definition balancesOnGrid (w : World) : Prop :=
  forall k a, accounts w !! k = Some a -> Num.onGrid8 (balance a).

(** No balance is negative and no trade has a negative amount. *)
Definition solvent (w : World) : Prop :=
  (forall k a, accounts w !! k = Some a -> (0 <= balance a)%Q)
  /\ (forall k t, trades w !! k = Some t -> (0 <= amount t)%Q).

(** An account row is still there, and its balances before and after are
    related by [R]. *)
Definition balanceStep (R : Q -> Q -> Prop) (o o' : option Account) : Prop :=
  match o, o' with
  | None, None => True
  | Some a, Some a' => R (balance a) (balance a')
  | _, _ => False
  end.

(** A balance that was not negative is not negative. *)
Definition staysNonneg (b b' : Q) : Prop := (0 <= b -> 0 <= b')%Q.

(** A balance that had at most eight fractional digits has not gone down
    and still has at most eight fractional digits. *)
Definition raisedOnGrid (b b' : Q) : Prop :=
  Num.onGrid8 b -> (b <= b')%Q /\ Num.onGrid8 b'.

(** ** The candidates of generateUniqueAccountUid *)

(** The uids the loop draws from draw number [c] on, if it runs [n]
    times. *)
Fixpoint candidatesFrom (random : nat -> Q) (c n : nat) : list Z :=
  match n with
  | O => []
  | S n' => uidCandidate (random c) :: candidatesFrom random (S c) n'
  end.

(** The uids [generateUniqueAccountUid] draws from the store [s], if it
    uses all its attempts. *)
Definition uidCandidates (random : nat -> Q) (s : Store) : list Z :=
  candidatesFrom random (cursor (world s)) MAX_ATTEMPTS.

(** The store after [n] more draws of [Math.random]. *)
Definition afterDraws (n : nat) (s : Store) : Store :=
  setWorld
    (mkWorld (accounts (world s)) (trades (world s))
       (n + cursor (world s)) (console (world s)))
    s.

(** ** The steps of POST /api/invest *)

(** The store once the balance of [userId] has been set to [b]. *)
Definition debited (userId : string) (b : Q) (s : Store) : Store :=
  setWorld
    (setAccounts (alter (setBalance b) userId (accounts (world s)))
       (world s))
    s.

(** The store once [uuidv4()] has been called. *)
Definition afterUuid (s : Store) : Store :=
  mkStore (world s) (uids s) (strategies s) (investments s)
    (S (uuidCursor s)) (journal s).

(** The row [POST /api/invest] inserts. *)
Definition investmentRow (nowMs : Z) (userId strategyId : string)
    (amount : Q) (strategy : Strategy.t) : Investment.t :=
  Investment.mk userId strategyId
    (nonNull (numToString (Some amount)))
    (nonNull (numToString (Some amount)))
    nowMs (Strategy.duration_days strategy) Investment.active nowMs nowMs.

(** ** The rows of POST /api/transactions *)

(** What [insertTradeSchema.parse] returns for an element of
    [transactions] it accepts. *)
Definition validated (userId : string) (trade : InsertTrade.t)
    : InsertTrade.t :=
  withDefaults (withUserId userId trade).

(** The rows the handler inserts for the elements [l]. *)
Definition savedRows (nowMs : Z) (userId : string) (l : list InsertTrade.t)
    : list (string * Trade) :=
  transactionToInsert nowMs <$> (validated userId <$> l).

(** ** Concrete stores and requests for the other routes *)

Module Demo.

(** No statement of the other routes fails. *)
Definition noFaultS : Stmt -> bool := fun _ => false.

(** The ids [uuidv4()] returns, one after the other. *)
Definition uuids : nat -> string := fun n =>
  match n with
  | O => "inv-0"
  | _ => "inv-n"
  end.

(** [trim] on a text without blanks around it. *)
Definition sameText : string -> string := fun e => e.

(** The world [w], no uid, no strategy and no investment. *)
Definition store (w : World) : Store := mkStore w ∅ ∅ ∅ 0 [].

(** The world [w] and the three default strategies. *)
Definition seeded (w : World) : Store :=
  mkStore w ∅ (list_to_map defaultStrategies) ∅ 0 [].

(** The world [w] and one account uid, the one a draw of [0.5] gives. *)
Definition taken (w : World) : Store := mkStore w {[55000000]} ∅ ∅ 0 [].

(** An element of a bulk request that names another user, "u2". *)
Definition foreign (id : string) (amount : Q) : InsertTrade.t :=
  InsertTrade.mk id "u2" "bitcoin" "Bitcoin" "BTC" buy up amount 30000
    1000 None 500 None None None None None None None.

(** A pending row of 10 with a timestamp and an email. *)
Definition mailed (timestamp : Z) (mail : string) : Trade :=
  mkTrade "u1" "bitcoin" "Bitcoin" "BTC" buy up 10 30000 1000 pending
    timestamp (Some mail) None None None None None None.

(** Three trades, two of them of "a@example.com". *)
Definition mailbox : World :=
  mkWorld {["u1" := Example.alice 100]}
    {["t1" := mailed 500 "a@example.com";
      "t2" := mailed 700 "a@example.com";
      "t3" := mailed 600 "b@example.com"]} 0 [].

End Demo.

(** Further worlds, draws and failures for the trade routes. *)
Module Sample.




(** The query of the sweep fails, nothing else does. *)
Definition queryFails : DbOp -> bool := fun op =>
  match op with
  | OpSelectDueTrades => true
  | _ => false
  end.

End Sample.

(** * Properties *)

(** ** Rounding to eight fractional digits *)

Section Rounding.
Local Open Scope Q_scope.

Lemma Qfloor_unique (x : Q) (z : Z) :
  inject_Z z <= x -> x < inject_Z (z + 1) -> Qfloor x = z.
Proof.
  intros Hlo Hhi.
  pose proof (Qfloor_le x) as H1. pose proof (Qlt_floor x) as H2.
  assert (inject_Z (Qfloor x) < inject_Z (z + 1)) as H3 by lra.
  assert (inject_Z z < inject_Z (Qfloor x + 1)) as H4 by lra.
  rewrite <- Zlt_Qlt in H3, H4. lia.
Qed.

Lemma Qfloor_add_Z (z : Z) (y : Q) :
  Qfloor (inject_Z z + y) = (z + Qfloor y)%Z.
Proof.
  apply Qfloor_unique.
  - rewrite inject_Z_plus. pose proof (Qfloor_le y). lra.
  - replace (z + Qfloor y + 1)%Z with (z + (Qfloor y + 1))%Z by lia.
    rewrite inject_Z_plus. pose proof (Qlt_floor y). lra.
Qed.

Lemma nearest_Z (z : Z) : Num.nearest (inject_Z z) = z.
Proof.
  unfold Num.nearest. rewrite Qfloor_add_Z.
  change (Qfloor (1 # 2)) with 0%Z. lia.
Qed.


Lemma nearest_nonneg (x : Q) : 0 <= x -> (0 <= Num.nearest x)%Z.
Proof.
  intros Hx. unfold Num.nearest.
  change 0%Z with (Qfloor 0). apply Qfloor_resp_le. lra.
Qed.

Lemma Qmake_scaled (n : Z) (p : positive) :
  (n # p) * inject_Z (Zpos p) == inject_Z n.
Proof. unfold Qeq, Qmult, inject_Z. simpl. lia. Qed.

Lemma toFixed_Qeq (f : nat) (x y : Q) :
  x == y -> Num.toFixed f x = Num.toFixed f y.
Proof.
  intros Hxy. unfold Num.toFixed, Num.nearest.
  destruct (Qlt_le_dec x 0), (Qlt_le_dec y 0); try lra.
  - f_equal. f_equal. apply Qfloor_comp. rewrite Hxy. reflexivity.
  - f_equal. apply Qfloor_comp. rewrite Hxy. reflexivity.
Qed.

Lemma toFixed_onGrid8 (x : Q) : Num.onGrid8 (Num.toFixed 8 x).
Proof.
  unfold Num.toFixed. destruct (Qlt_le_dec x 0).
  - exists (- Num.nearest (- x * inject_Z (Z.pos (Num.pow10 8))))%Z.
    reflexivity.
  - eexists. reflexivity.
Qed.

Lemma toFixed_nonneg (x : Q) : 0 <= x -> 0 <= Num.toFixed 8 x.
Proof.
  intros Hx. unfold Num.toFixed. destruct (Qlt_le_dec x 0); [lra|].
  pose proof (nearest_nonneg (x * inject_Z (Z.pos (Num.pow10 8)))) as H.
  unfold Qle. simpl. 
  assert (0 <= x * inject_Z (Z.pos (Num.pow10 8))) as H0.
  { apply Qmult_le_0_compat; [done|]. unfold Qle; simpl; lia. }
  specialize (H H0). lia.
Qed.

Lemma toFixed_id_onGrid (x : Q) : Num.onGrid8 x -> Num.toFixed 8 x == x.
Proof.
  intros [n Hn]. unfold Num.toFixed.
  destruct (Qlt_le_dec x 0).
  - assert (Num.nearest (- x * inject_Z (Z.pos (Num.pow10 8))) = (- n)%Z) as ->.
    { transitivity (Num.nearest (inject_Z (- n))); [|apply nearest_Z].
      unfold Num.nearest. apply Qfloor_comp.
      rewrite Hn, inject_Z_opp, <- (Qmake_scaled n (Num.pow10 8)). ring. }
    rewrite Hn. unfold Qeq. simpl. lia.
  - assert (Num.nearest (x * inject_Z (Z.pos (Num.pow10 8))) = n) as ->.
    { transitivity (Num.nearest (inject_Z n)); [|apply nearest_Z].
      unfold Num.nearest. apply Qfloor_comp.
      rewrite Hn, (Qmake_scaled n (Num.pow10 8)). reflexivity. }
    rewrite Hn. reflexivity.
Qed.




End Rounding.

(** ** Rounding: bounds, fixed points and order *)

Section RoundingBounds.
Local Open Scope Q_scope.


Lemma Qmake_as_div (n : Z) (p : positive) :
  n # p == inject_Z n / inject_Z (Zpos p).
Proof. apply Qmake_Qdiv. Qed.

Lemma Qmake_nonneg (n : Z) (p : positive) : (0 <= n)%Z -> 0 <= n # p.
Proof. intros Hn. unfold Qle. cbn [Qnum Qden]. lia. Qed.

Lemma toFixed_nonneg_value (x : Q) :
  0 <= x ->
  Num.toFixed 8 x
  = Num.nearest (x * inject_Z (Zpos (Num.pow10 8))) # Num.pow10 8.
Proof. intros Hx. unfold Num.toFixed. destruct (Qlt_le_dec x 0); [lra|done]. Qed.

Lemma toFixed_neg_value (x : Q) :
  x < 0 ->
  Num.toFixed 8 x
  = - (Num.nearest (- x * inject_Z (Zpos (Num.pow10 8))) # Num.pow10 8).
Proof. intros Hx. unfold Num.toFixed. destruct (Qlt_le_dec x 0); [done|lra]. Qed.


Lemma toFixed_grid_fixpoint (m : Z) :
  Num.toFixed 8 (m # Num.pow10 8) = (m # Num.pow10 8).
Proof.
  unfold Num.toFixed. destruct (Qlt_le_dec _ _) as [Hneg|Hpos].
  - assert (Num.nearest (- (m # Num.pow10 8) * inject_Z (Zpos (Num.pow10 8)))
            = (- m)%Z) as ->.
    { transitivity (Num.nearest (inject_Z (- m))); [|apply nearest_Z].
      unfold Num.nearest. apply Qfloor_comp.
      rewrite inject_Z_opp, <- (Qmake_scaled m (Num.pow10 8)). ring. }
    unfold Qopp. cbn [Qnum Qden]. rewrite Z.opp_involutive. reflexivity.
  - assert (Num.nearest ((m # Num.pow10 8) * inject_Z (Zpos (Num.pow10 8)))
            = m) as ->; [|reflexivity].
    transitivity (Num.nearest (inject_Z m)); [|apply nearest_Z].
    unfold Num.nearest. apply Qfloor_comp.
    rewrite (Qmake_scaled m (Num.pow10 8)). reflexivity.
Qed.

Lemma toFixed_is_grid (x : Q) :
  exists m : Z, Num.toFixed 8 x = (m # Num.pow10 8).
Proof.
  unfold Num.toFixed. destruct (Qlt_le_dec x 0); eexists; reflexivity.
Qed.

Lemma toFixed_le (x y : Q) : x <= y -> Num.toFixed 8 x <= Num.toFixed 8 y.
Proof.
  intros Hxy.
  assert (forall a b : Z, (a <= b)%Z -> a # Num.pow10 8 <= b # Num.pow10 8)
    as Hmake.
  { intros a b Hab. unfold Qle. cbn [Qnum Qden].
    apply Z.mul_le_mono_nonneg_r; lia. }
  assert (0 <= inject_Z (Zpos (Num.pow10 8))) as Hp by (unfold Qle; cbn; lia).
  destruct (Qlt_le_dec x 0) as [Hx|Hx], (Qlt_le_dec y 0) as [Hy|Hy].
  - rewrite !toFixed_neg_value by done.
    apply Qopp_le_compat, Hmake. unfold Num.nearest. apply Qfloor_resp_le.
    assert (- y * inject_Z (Zpos (Num.pow10 8))
            <= - x * inject_Z (Zpos (Num.pow10 8))); [|lra].
    apply Qmult_le_compat_r; lra.
  - rewrite toFixed_neg_value, toFixed_nonneg_value by done.
    assert (0 <= Num.nearest (- x * inject_Z (Zpos (Num.pow10 8)))
            # Num.pow10 8).
    { apply Qmake_nonneg, nearest_nonneg.
      apply Qmult_le_0_compat; lra. }
    assert (0 <= Num.nearest (y * inject_Z (Zpos (Num.pow10 8)))
            # Num.pow10 8).
    { apply Qmake_nonneg, nearest_nonneg.
      apply Qmult_le_0_compat; lra. }
    lra.
  - lra.
  - rewrite !toFixed_nonneg_value by done.
    apply Hmake. unfold Num.nearest. apply Qfloor_resp_le.
    assert (x * inject_Z (Zpos (Num.pow10 8))
            <= y * inject_Z (Zpos (Num.pow10 8))); [|lra].
    apply Qmult_le_compat_r; lra.
Qed.


(** *** Any number of fractional digits *)

Lemma toFixed_fixpoint_at (f : nat) (m : Z) :
  Num.toFixed f (m # Num.pow10 f) = (m # Num.pow10 f).
Proof.
  unfold Num.toFixed. destruct (Qlt_le_dec _ _) as [Hneg|Hpos].
  - assert (Num.nearest (- (m # Num.pow10 f) * inject_Z (Zpos (Num.pow10 f)))
            = (- m)%Z) as ->.
    { transitivity (Num.nearest (inject_Z (- m))); [|apply nearest_Z].
      unfold Num.nearest. apply Qfloor_comp.
      rewrite inject_Z_opp, <- (Qmake_scaled m (Num.pow10 f)). ring. }
    unfold Qopp. cbn [Qnum Qden]. rewrite Z.opp_involutive. reflexivity.
  - assert (Num.nearest ((m # Num.pow10 f) * inject_Z (Zpos (Num.pow10 f)))
            = m) as ->; [|reflexivity].
    transitivity (Num.nearest (inject_Z m)); [|apply nearest_Z].
    unfold Num.nearest. apply Qfloor_comp.
    rewrite (Qmake_scaled m (Num.pow10 f)). reflexivity.
Qed.

Lemma toFixed_is_grid_at (f : nat) (x : Q) :
  exists m : Z, Num.toFixed f x = (m # Num.pow10 f).
Proof.
  unfold Num.toFixed. destruct (Qlt_le_dec x 0); eexists; reflexivity.
Qed.

(** Rounding twice to the same number of digits is rounding once. *)
Lemma toFixed_twice (f : nat) (x : Q) :
  Num.toFixed f (Num.toFixed f x) = Num.toFixed f x.
Proof.
  destruct (toFixed_is_grid_at f x) as [m ->]. apply toFixed_fixpoint_at.
Qed.




Lemma onGrid_8 (x : Q) : Column.onGrid 8 x <-> Num.onGrid8 x.
Proof. reflexivity. Qed.


End RoundingBounds.

(** ** One settlement *)

Section Steps.
Variable fault : DbOp -> bool.
Variable random : nat -> Q.

Lemma simulateOutcome_run (trade : string * Trade) (w : World) :
  simulateOutcome random trade w =
    (let l := settleLocals (random (cursor w)) (random (S (cursor w))) trade.2 in
     mkWorld (accounts w) (trades w) (S (S (cursor w)))
             (console w ++ [LogOutcome trade.1 (Settle.outcome l)]),
     Ok (settleLocals (random (cursor w)) (random (S (cursor w))) trade.2)).
Proof.
  unfold simulateOutcome, settleLocals, mbind, M_bind, mathRandom, log, mret, M_ret.
  simpl. destruct (Qlt_le_dec _ _); reflexivity.
Qed.

Lemma alter_credit (x : Q) (id : string) (a : Account) (m : gmap string Account) :
  m !! id = Some a ->
  alter (setBalance (Num.toFixed 8 (Num.parseFloat (balance a) + x))) id m
  = alter (creditAccount x) id m.
Proof.
  intros Ha. apply map_eq. intros k. rewrite !lookup_alter.
  case_decide; [subst; rewrite Ha|]; reflexivity.
Qed.

Lemma settleTrade_ok (nowMs : Z) (trade : string * Trade) (w : World) :
  delivery_time trade.2 <= nowMs ->
  fault (OpSelectAccount (user_id trade.2)) = false ->
  fault (OpUpdateAccount (user_id trade.2)) = false ->
  fault (OpUpdateTrade trade.1) = false ->
  settleTrade fault random nowMs trade w = (settleWorld random trade w, Ok tt).
Proof.
  intros Hdue F1 F2 F3. unfold settleTrade.
  destruct (decide _); [|lia].
  unfold mbind, M_bind at 1 2 3. cbn [log].
  rewrite simulateOutcome_run. cbn zeta.
  unfold selectAccount, updateAccountBalance, updateTrade, statement.
  rewrite F1, F2, F3. unfold mbind, M_bind, log, settleWorld. cbn.
  destruct (accounts w !! user_id trade.2) as [a|] eqn:Ha; cbn.
  - rewrite (alter_credit _ _ a) by done. reflexivity.
  - rewrite (alter_id' (creditAccount _)) by done. reflexivity.
Qed.

(** Whatever fails, one transaction either settles the trade, or finds it
    not yet due, or leaves the tables as they were. *)
Local Ltac thrown :=
  right; right; eexists; split; [reflexivity|split; [done|split; reflexivity]].

Lemma settleTrade_cases (nowMs : Z) (trade : string * Trade) (w : World) :
  let res := transaction (settleTrade fault random nowMs trade) w in
  (delivery_time trade.2 <= nowMs /\ res = (settleWorld random trade w, Ok tt))
  \/ (res.2 = Ok tt /\ nowMs < delivery_time trade.2 /\ sameTables w res.1)
  \/ (exists e, res.2 = Throw e /\ delivery_time trade.2 <= nowMs /\ sameTables w res.1).
Proof.
  cbn zeta.
  destruct (decide (delivery_time trade.2 <= nowMs)) as [Hdue|Hnot].
  - unfold transaction, settleTrade. destruct (decide _); [|lia].
    unfold selectAccount, updateAccountBalance, updateTrade, statement.
    unfold mbind, M_bind, throw; cbn [log].
    rewrite simulateOutcome_run; cbn.
    destruct (fault (OpSelectAccount _)); cbn; [thrown|].
    destruct (accounts w !! user_id trade.2) as [a|] eqn:Ha; cbn.
    + destruct (fault (OpUpdateAccount _)); cbn; [thrown|].
      destruct (fault (OpUpdateTrade _)); cbn; [thrown|].
      left. split; [done|]. unfold settleWorld. rewrite Ha.
      rewrite (alter_credit _ _ a) by done. reflexivity.
    + destruct (fault (OpUpdateTrade _)); cbn; [thrown|].
      left. split; [done|]. unfold settleWorld. rewrite Ha.
      rewrite (alter_id' (creditAccount _)) by done. reflexivity.
  - right; left. unfold transaction, settleTrade.
    destruct (decide _); [lia|]. cbn. split; [done|]. split; [lia|].
    split; reflexivity.
Qed.
End Steps.

(** ** The sweep *)

Section Sweep.
Variable fault : DbOp -> bool.
Variable random : nat -> Q.

Lemma settleLocals_outcome (r u : Q) (t : Trade) :
  Settle.outcome (settleLocals r u t) = win
  \/ Settle.outcome (settleLocals r u t) = loss.
Proof. unfold settleLocals. destruct (Qlt_le_dec _ _); cbn; auto. Qed.

Lemma resolveEach_cons (nowMs : Z) x l (w : World) :
  resolveEach fault random nowMs (x :: l) w =
    match transaction (settleTrade fault random nowMs x) w with
    | (w', Ok _) => resolveEach fault random nowMs l w'
    | (w', Throw e) => (w', Throw e)
    end.
Proof. reflexivity. Qed.

Lemma resolveEach_ok (nowMs : Z) l (w : World) :
  (forall op, fault op = false) ->
  Forall (fun x => delivery_time x.2 <= nowMs) l ->
  resolveEach fault random nowMs l w = (sweepWorld random l w, Ok tt).
Proof.
  intros Hok Hdue. revert w.
  induction Hdue as [|x l Hx _ IH]; intros w; [reflexivity|].
  rewrite resolveEach_cons. unfold transaction.
  rewrite (settleTrade_ok fault random) by auto. apply IH.
Qed.

(** The loop ends at the first transaction that throws. *)
Lemma resolveEach_throw (nowMs : Z) l1 x l2 (w w1 w2 : World) e :
  resolveEach fault random nowMs l1 w = (w1, Ok tt) ->
  transaction (settleTrade fault random nowMs x) w1 = (w2, Throw e) ->
  resolveEach fault random nowMs (l1 ++ x :: l2) w = (w2, Throw e).
Proof.
  revert w. induction l1 as [|y l1 IH]; intros w H1 H2.
  - cbn in H1. injection H1 as <-.
    change ([] ++ x :: l2) with (x :: l2).
    rewrite resolveEach_cons, H2. reflexivity.
  - change ((y :: l1) ++ x :: l2) with (y :: (l1 ++ x :: l2)).
    rewrite resolveEach_cons.
    rewrite resolveEach_cons in H1.
    destruct (transaction _ w) as [w' [[]|e']]; [|discriminate].
    apply IH; assumption.
Qed.

(** The sweep, unfolded around its loop. *)
Lemma resolvePendingTrades_run (nowMs : Z) (w : World) :
  resolvePendingTrades fault random nowMs w =
    if fault OpSelectDueTrades
    then (addLog LogFinished (addLog ErrorResolving (addLog LogStarted w)),
          Ok tt)
    else
      let due := dueTrades nowMs w in
      match resolveEach fault random nowMs due (started (length due) w) with
      | (w1, Ok _) => (addLog LogFinished w1, Ok tt)
      | (w1, Throw _) => (addLog LogFinished (addLog ErrorResolving w1), Ok tt)
      end.
Proof.
  unfold resolvePendingTrades, tryFinally, tryCatch, selectDueTrades,
    statement, mbind, M_bind, throw, log.
  destruct (fault OpSelectDueTrades); [reflexivity|].
  cbn. unfold started, dueTrades. cbn.
  destruct (resolveEach _ _ _ _ _) as [w1 [[]|e]]; reflexivity.
Qed.

(** *** Rows across the loop, whatever fails *)

Lemma settleTrade_rows (nowMs : Z) (trade : string * Trade) (w : World) k :
  rowStep [trade] k (trades w !! k)
    (trades (transaction (settleTrade fault random nowMs trade) w).1 !! k).
Proof.
  destruct (settleTrade_cases fault random nowMs trade w)
    as [[_ ->]|[(_ & _ & _ & ->)|(e & _ & _ & _ & ->)]];
    [|left; reflexivity..].
  cbn. rewrite lookup_alter. case_decide as Hk; [|left; reflexivity].
  subst k. destruct (trades w !! trade.1) as [t|]; [|left; reflexivity].
  right. eexists t, _. split; [reflexivity|]. split.
  - exists trade.2. destruct trade. cbn. apply list_elem_of_singleton. reflexivity.
  - split; [reflexivity|]. apply settleLocals_outcome.
Qed.

Lemma settleTrade_accounts_dom (nowMs : Z) (trade : string * Trade) (w : World) k :
  is_Some (accounts (transaction (settleTrade fault random nowMs trade) w).1 !! k)
  <-> is_Some (accounts w !! k).
Proof.
  destruct (settleTrade_cases fault random nowMs trade w)
    as [[_ ->]|[(_ & _ & -> & _)|(e & _ & _ & -> & _)]]; [|done..].
  cbn. rewrite lookup_alter. case_decide; [subst|done].
  rewrite fmap_is_Some. done.
Qed.

Lemma resolveEach_rows (nowMs : Z) l (w : World) k :
  NoDup l.*1 ->
  rowStep l k (trades w !! k)
    (trades (resolveEach fault random nowMs l w).1 !! k).
Proof.
  revert w. induction l as [|x l IH]; intros w Hnd; [left; reflexivity|].
  cbn in Hnd. apply NoDup_cons in Hnd as [Hx Hnd].
  rewrite resolveEach_cons.
  pose proof (settleTrade_rows nowMs x w k) as Hstep.
  destruct (transaction _ w) as [w' [[]|e]]; cbn in Hstep.
  - specialize (IH w' Hnd).
    destruct Hstep as [Heq|(t & s & Ho & [t0 Hin] & Ho' & Hs)].
    + rewrite <- Heq. destruct IH as [IH|(t & s & Ho & [t0 Hin] & Ho' & Hs)].
      * left. exact IH.
      * right. exists t, s. split; [done|]. split; [|done].
        exists t0. apply elem_of_cons. right. exact Hin.
    + apply list_elem_of_singleton in Hin. subst x. cbn in Hx.
      destruct IH as [IH|(t1 & s1 & _ & [t2 Hin] & _)].
      * right. exists t, s. rewrite IH. split; [done|]. split; [|done].
        exists t0. apply elem_of_cons. left. reflexivity.
      * exfalso. apply Hx. apply list_elem_of_fmap. exists (k, t2). done.
  - destruct Hstep as [Heq|(t & s & Ho & [t0 Hin] & Ho' & Hs)].
    + left. exact Heq.
    + right. exists t, s. split; [done|]. split; [|done].
      apply list_elem_of_singleton in Hin. subst x.
      exists t0. apply elem_of_cons. left. reflexivity.
Qed.

Lemma elem_of_dueTrades (nowMs : Z) (w : World) k t :
  (k, t) ∈ dueTrades nowMs w <->
  trades w !! k = Some t /\ status t = pending /\ delivery_time t <= nowMs.
Proof.
  unfold dueTrades. rewrite list_elem_of_filter, elem_of_map_to_list.
  unfold isDue. cbn. tauto.
Qed.

Lemma NoDup_dueTrades (nowMs : Z) (w : World) : NoDup (dueTrades nowMs w).*1.
Proof.
  unfold dueTrades.
  eapply sublist_NoDup; [apply (NoDup_fst_map_to_list (trades w))|].
  apply fmap_sublist, sublist_filter.
Qed.

Lemma status_settledRow (s : Settle.t) (t : Trade) :
  status (settledRow s t) = completed.
Proof. reflexivity. Qed.

Lemma outcome_settledRow (s : Settle.t) (t : Trade) :
  outcome (settledRow s t) = Some (Settle.outcome s).
Proof. reflexivity. Qed.

(** Across a whole sweep a row is left as it was, or it was pending and
    due and is now completed as a win or a loss. *)
Lemma sweep_rows (nowMs : Z) (w : World) k :
  let w' := (resolvePendingTrades fault random nowMs w).1 in
  trades w' !! k = trades w !! k
  \/ exists t t', trades w !! k = Some t /\ status t = pending
       /\ delivery_time t <= nowMs
       /\ trades w' !! k = Some t' /\ status t' = completed
       /\ (outcome t' = Some win \/ outcome t' = Some loss).
Proof.
  cbn zeta. rewrite resolvePendingTrades_run.
  destruct (fault OpSelectDueTrades); [left; reflexivity|]. cbn zeta.
  pose proof (resolveEach_rows nowMs (dueTrades nowMs w)
                (started (length (dueTrades nowMs w)) w) k
                (NoDup_dueTrades nowMs w)) as H.
  assert (forall w1 r,
    resolveEach fault random nowMs (dueTrades nowMs w)
      (started (length (dueTrades nowMs w)) w) = (w1, r) ->
    trades (match r with
            | Ok _ => (addLog LogFinished w1, Ok tt)
            | Throw _ => (addLog LogFinished (addLog ErrorResolving w1), Ok tt)
            end).1 !! k = trades w1 !! k) as Hsame
    by (intros w1 [[]|e] _; reflexivity).
  destruct (resolveEach _ _ _ _ _) as [w1 r] eqn:Hrun.
  specialize (Hsame w1 r eq_refl). rewrite Hsame. clear Hsame.
  cbn in H. destruct H as [H|(t & s & Ho & [t0 Hin] & Ho' & Hs)].
  - left. exact H.
  - right. apply elem_of_dueTrades in Hin as (Hk & Hp & Hd).
    rewrite Hk in Ho. injection Ho as <-.
    exists t0, (settledRow s t0). rewrite outcome_settledRow.
    repeat split; try done. destruct Hs as [-> | ->]; auto.
Qed.


End Sweep.

(** ** A sweep in which no statement fails *)

Section SweepWorld.
Variable random : nat -> Q.

Lemma sweepWorld_cons x l (w : World) :
  sweepWorld random (x :: l) w = sweepWorld random l (settleWorld random x w).
Proof. reflexivity. Qed.

Lemma sweepWorld_cursor l (w : World) :
  cursor (sweepWorld random l w) = (cursor w + 2 * length l)%nat.
Proof.
  revert w. induction l as [|x l IH]; intros w.
  - cbn. lia.
  - rewrite sweepWorld_cons, IH. cbn. lia.
Qed.

Lemma sweepWorld_trades_notin l (w : World) (k : string) :
  k ∉ l.*1 -> trades (sweepWorld random l w) !! k = trades w !! k.
Proof.
  revert w. induction l as [|x l IH]; intros w Hk; [reflexivity|].
  rewrite fmap_cons, not_elem_of_cons in Hk. destruct Hk as [Hx Hl].
  rewrite sweepWorld_cons, IH by done. cbn.
  rewrite lookup_alter_ne by done. reflexivity.
Qed.

Lemma sweepWorld_trades_at l (w : World) (i : nat) (k : string) (t : Trade) :
  NoDup l.*1 -> l !! i = Some (k, t) ->
  trades (sweepWorld random l w) !! k =
    settledRow (settleLocals (random (cursor w + 2 * i)%nat)
                  (random (S (cursor w + 2 * i))) t)
      <$> trades w !! k.
Proof.
  revert w i. induction l as [|x l IH]; intros w i Hnd Hi; [done|].
  rewrite fmap_cons in Hnd. apply NoDup_cons in Hnd as [Hx Hnd].
  rewrite sweepWorld_cons. destruct i as [|i]; cbn in Hi.
  - injection Hi as ->. rewrite sweepWorld_trades_notin by done. cbn.
    rewrite lookup_alter_eq. repeat f_equal; lia.
  - rewrite (IH _ i) by done. cbn [settleWorld trades cursor].
    assert (x.1 <> k) as Hne.
    { intros <-. apply Hx. apply list_elem_of_fmap. exists (x.1, t).
      split; [done|]. eapply list_elem_of_lookup_2. exact Hi. }
    rewrite lookup_alter_ne by done.
    replace (cursor w + 2 * S i)%nat with (S (S (cursor w)) + 2 * i)%nat by lia.
    reflexivity.
Qed.

Lemma resolvedCount_app (c1 c2 : list LogEntry) :
  resolvedCount (c1 ++ c2) = (resolvedCount c1 + resolvedCount c2)%nat.
Proof. unfold resolvedCount. rewrite List.filter_app, length_app. reflexivity. Qed.

Lemma sweepWorld_resolvedCount l (w : World) :
  resolvedCount (console (sweepWorld random l w))
  = (resolvedCount (console w) + length l)%nat.
Proof.
  revert w. induction l as [|x l IH]; intros w.
  - cbn. lia.
  - rewrite sweepWorld_cons, IH. cbn [settleWorld console length].
    rewrite !resolvedCount_app.
    destruct (accounts w !! user_id x.2); cbn; lia.
Qed.

Lemma Forall_dueTrades (nowMs : Z) (w : World) :
  Forall (fun x => delivery_time x.2 <= nowMs) (dueTrades nowMs w).
Proof.
  apply Forall_forall. intros [k t] Hin.
  apply elem_of_dueTrades in Hin. cbn. tauto.
Qed.

Lemma resolvePendingTrades_noFault (fault : DbOp -> bool) (nowMs : Z)
    (w : World) :
  (forall op, fault op = false) ->
  resolvePendingTrades fault random nowMs w =
    (addLog LogFinished
       (sweepWorld random (dueTrades nowMs w)
          (started (length (dueTrades nowMs w)) w)),
     Ok tt).
Proof.
  intros Hok. rewrite resolvePendingTrades_run, Hok. cbn zeta.
  rewrite resolveEach_ok by auto using Forall_dueTrades. reflexivity.
Qed.
End SweepWorld.

(** * The claims about resolvePendingTrades *)

Section SettlementClaims.
Variable fault : DbOp -> bool.
Variable random : nat -> Q.

Local Open Scope Q_scope.





(** C10. Whatever fails, after a sweep every trade row is either exactly
    as it was before the sweep or has status [completed] with outcome
    [win] or [loss]: the default ['draw'] of the locals is never written,
    and neither is [null]. The simulation block itself always returns an
    outcome other than ['draw']. *)
Theorem never_records_draw (nowMs : Z) (w : World) (k : string)
    (t' : Trade) :
  trades (resolvePendingTrades fault random nowMs w).1 !! k = Some t' ->
  (trades w !! k = Some t'
   \/ (status t' = completed
       /\ (outcome t' = Some win \/ outcome t' = Some loss)))
  /\ (forall trade w0, exists w1 locals,
        simulateOutcome random trade w0 = (w1, Ok locals)
        /\ Settle.outcome locals <> draw).
Proof.
  intros Hrow. split.
  - destruct (sweep_rows fault random nowMs w k)
      as [Heq|(t & t1 & _ & _ & _ & Hk & Hst & Hout)].
    + left. rewrite <- Heq. exact Hrow.
    + right. rewrite Hk in Hrow. injection Hrow as <-. auto.
  - intros trade w0. rewrite simulateOutcome_run. eexists _, _.
    split; [reflexivity|].
    destruct (settleLocals_outcome (random (cursor w0))
                (random (S (cursor w0))) trade.2) as [-> | ->]; discriminate.
Qed.

(** C8, amended. When no statement of a sweep fails, the sweep reports
    as many trades resolved as there were rows with status [pending] and
    a delivery time not after [nowMs] when it started; each of these rows
    is then completed and no other row is changed. A second sweep at the
    same [nowMs] then finds no row to settle, or fails at its query:
    whatever fails in it, it leaves both tables and the random stream as
    they are and reports no further trade as resolved. A sweep whose
    query fails, as it does when the database refuses the comparison,
    changes neither table and reports no trade as resolved. *)
Theorem second_sweep_is_noop (fault2 : DbOp -> bool) (nowMs : Z)
    (w : World) :
  let w1 := (resolvePendingTrades fault random nowMs w).1 in
  let w2 := (resolvePendingTrades fault2 random nowMs w1).1 in
  ((forall op, fault op = false) ->
   resolvedCount (console w1)
     = (resolvedCount (console w) + length (dueTrades nowMs w))%nat
   /\ (forall k t, (k, t) ∈ dueTrades nowMs w ->
         status <$> trades w1 !! k = Some completed)
   /\ (forall k, k ∉ (dueTrades nowMs w).*1 ->
         trades w1 !! k = trades w !! k)
   /\ dueTrades nowMs w1 = []
   /\ sameTables w1 w2
   /\ cursor w2 = cursor w1
   /\ resolvedCount (console w2) = resolvedCount (console w1))
  /\ (fault OpSelectDueTrades = true ->
      sameTables w w1
      /\ cursor w1 = cursor w
      /\ resolvedCount (console w1) = resolvedCount (console w)).
Proof.
  cbn zeta. split; [intros Hok|].
  2: { intros Hsel. rewrite resolvePendingTrades_run, Hsel.
       cbn [fst addLog accounts trades cursor console].
       split; [split; reflexivity|]. split; [reflexivity|].
       rewrite !resolvedCount_app. cbn. lia. }
  assert (forall k t, (k, t) ∈ dueTrades nowMs w ->
            status <$> trades (resolvePendingTrades fault random nowMs w).1 !! k
            = Some completed) as Hdone.
  { intros k t Hin. rewrite resolvePendingTrades_noFault by done.
    cbn [fst addLog trades].
    apply list_elem_of_lookup_1 in Hin as Hi. destruct Hi as [i Hi].
    rewrite (sweepWorld_trades_at random _ _ i k t)
      by auto using NoDup_dueTrades.
    apply elem_of_dueTrades in Hin as [Hrow _].
    cbn [started addLog trades]. rewrite Hrow. reflexivity. }
  assert (dueTrades nowMs (resolvePendingTrades fault random nowMs w).1 = [])
    as Hnone.
  { destruct (dueTrades nowMs (resolvePendingTrades fault random nowMs w).1)
      as [|[k t'] l] eqn:Hdue; [reflexivity|].
    exfalso.
    assert ((k, t') ∈ dueTrades nowMs
              (resolvePendingTrades fault random nowMs w).1) as Hin
      by (rewrite Hdue; apply elem_of_cons; auto).
    apply elem_of_dueTrades in Hin as (Hrow & Hp & Hd).
    destruct (sweep_rows fault random nowMs w k)
      as [Heq|(t & t1 & _ & _ & _ & Hk & Hst & _)].
    - rewrite Hrow in Heq. symmetry in Heq.
      assert ((k, t') ∈ dueTrades nowMs w) as Hin
        by (apply elem_of_dueTrades; auto).
      apply Hdone in Hin. rewrite Hrow in Hin. cbn in Hin. congruence.
    - rewrite Hrow in Hk. injection Hk as <-. congruence. }
  split.
  { rewrite resolvePendingTrades_noFault by done. cbn [fst addLog console].
    rewrite resolvedCount_app, sweepWorld_resolvedCount.
    cbn [started addLog console]. rewrite !resolvedCount_app. cbn. lia. }
  split; [exact Hdone|].
  split.
  { intros k Hk.
    destruct (sweep_rows fault random nowMs w k)
      as [Heq|(t & t1 & Hrow & Hp & Hd & _)]; [exact Heq|].
    exfalso. apply Hk. apply list_elem_of_fmap. exists (k, t).
    split; [reflexivity|]. apply elem_of_dueTrades. auto. }
  split; [exact Hnone|].
  rewrite (resolvePendingTrades_run fault2 random nowMs
             (resolvePendingTrades fault random nowMs w).1).
  rewrite Hnone.
  destruct (fault2 OpSelectDueTrades);
    cbn [fst resolveEach forEach length started addLog
         accounts trades cursor console mret M_ret];
    (split; [split; reflexivity|]); (split; [reflexivity|]);
    rewrite !resolvedCount_app; cbn; lia.
Qed.

(** C5, amended. Whatever fails, a sweep never creates or removes a trade
    row, and a row it changes was pending and due at the query of the
    sweep and is completed afterwards: the status only moves from
    [pending] to [completed], and a row that is completed before a sweep
    is left untouched by it, so sweeps that run one after the other settle
    a row at most once. The settlement of one row does not read the stored
    status: given a row whose delivery time has passed, it credits the
    account and rewrites the stored row whatever that row's status is. *)
Theorem status_only_moves_to_completed (nowMs : Z) (w : World)
    (trade : string * Trade) :
  (delivery_time trade.2 <= nowMs)%Z ->
  (forall k,
     let w' := (resolvePendingTrades fault random nowMs w).1 in
     match trades w !! k with
     | None => trades w' !! k = None
     | Some t =>
         trades w' !! k = Some t
         \/ (status t = pending /\ (delivery_time t <= nowMs)%Z
             /\ exists t', trades w' !! k = Some t'
                           /\ status t' = completed)
     end)
  /\ (let locals :=
        settleLocals (random (cursor w)) (random (S (cursor w))) trade.2 in
      exists w',
        transaction (settleTrade noFault random nowMs trade) w = (w', Ok tt)
        /\ trades w' !! trade.1 = settledRow locals <$> trades w !! trade.1
        /\ accounts w' !! user_id trade.2
           = creditAccount (Settle.finalAmount locals)
               <$> accounts w !! user_id trade.2).
Proof.
  intros Hdue. split.
  - intros k. cbn zeta.
    destruct (sweep_rows fault random nowMs w k)
      as [Heq|(t & t1 & Hk & Hp & Hd & Hk' & Hst & _)].
    + rewrite Heq. destruct (trades w !! k); auto.
    + rewrite Hk. right. eauto 6.
  - cbn zeta. eexists. unfold transaction.
    rewrite (settleTrade_ok noFault random) by done.
    split; [reflexivity|]. cbn [settleWorld trades accounts].
    rewrite !lookup_alter_eq. split; reflexivity.
Qed.

(** C7, amended. The sweep never throws. A failure raised while one row
    is settled undoes the writes of that row's transaction, is caught
    around the whole loop and logged, and ends the sweep: the tables stay
    as they were after the rows settled before it, and the failing row and
    every row after it in the result of the query are left as the query
    returned them. *)
Theorem failure_ends_the_sweep (nowMs : Z) (w : World) :
  (resolvePendingTrades fault random nowMs w).2 = Ok tt
  /\ (forall l1 x l2 w1 w2 e,
        fault OpSelectDueTrades = false ->
        dueTrades nowMs w = l1 ++ x :: l2 ->
        resolveEach fault random nowMs l1
          (started (length (dueTrades nowMs w)) w) = (w1, Ok tt) ->
        transaction (settleTrade fault random nowMs x) w1 = (w2, Throw e) ->
        resolvePendingTrades fault random nowMs w
          = (addLog LogFinished (addLog ErrorResolving w2), Ok tt)
        /\ sameTables w1 w2
        /\ (forall k t, (k, t) ∈ x :: l2 -> trades w2 !! k = Some t)).
Proof.
  split.
  { rewrite resolvePendingTrades_run.
    destruct (fault OpSelectDueTrades); [reflexivity|]. cbn zeta.
    destruct (resolveEach _ _ _ _ _) as [w1 [[]|e]]; reflexivity. }
  intros l1 x l2 w1 w2 e Hsel Hdue H1 H2.
  pose proof (settleTrade_cases fault random nowMs x w1) as Hcases.
  cbn zeta in Hcases. rewrite H2 in Hcases.
  assert (sameTables w1 w2) as Hsame.
  { destruct Hcases as [[_ Heq]|[(Heq & _)|(_ & _ & _ & Hs)]];
      [discriminate..|exact Hs]. }
  split; [|split; [exact Hsame|]].
  - rewrite resolvePendingTrades_run, Hsel. cbn zeta. rewrite Hdue at 1.
    rewrite (resolveEach_throw fault random nowMs l1 x l2 _ w1 w2 e H1 H2).
    reflexivity.
  - intros k t Hin. destruct Hsame as [_ ->].
    pose proof (NoDup_dueTrades nowMs w) as Hnd. rewrite Hdue in Hnd.
    rewrite fmap_app in Hnd. apply NoDup_app in Hnd as (Hnd1 & Hdisj & _).
    pose proof (resolveEach_rows fault random nowMs l1
                  (started (length (dueTrades nowMs w)) w) k Hnd1) as Hrows.
    rewrite H1 in Hrows. cbn [fst started addLog trades] in Hrows.
    assert ((k, t) ∈ dueTrades nowMs w) as Hin'
      by (rewrite Hdue; apply elem_of_app; auto).
    apply elem_of_dueTrades in Hin' as [Hrow _].
    destruct Hrows as [Heq|(t1 & s & _ & [t0 Hin0] & _)].
    + rewrite Heq. exact Hrow.
    + exfalso. apply (Hdisj k).
      * apply list_elem_of_fmap. exists (k, t0). done.
      * apply list_elem_of_fmap. exists (k, t). done.
Qed.
End SettlementClaims.

(** ** The direction of a trade *)

Section Direction.
Variable fault : DbOp -> bool.
Variable random : nat -> Q.

Lemma settleLocals_forget (r u : Q) (t : Trade) :
  settleLocals r u (forgetDirection t) = settleLocals r u t.
Proof. reflexivity. Qed.

Lemma forget_settledRow (s : Settle.t) (t : Trade) :
  forgetDirection (settledRow s t) = settledRow s (forgetDirection t).
Proof. reflexivity. Qed.

Lemma forgetDirections_addLog (e : LogEntry) (w : World) :
  forgetDirections (addLog e w) = addLog e (forgetDirections w).
Proof. reflexivity. Qed.

Lemma forget_alter_settlement st o a b c d e (k : string)
    (m : gmap string Trade) :
  forgetDirection <$> alter (setSettlement st o a b c d e) k m
  = alter (setSettlement st o a b c d e) k (forgetDirection <$> m).
Proof. apply fmap_alter. reflexivity. Qed.

(** One settlement commutes with blanking the directions. *)
Lemma settleTrade_forget (nowMs : Z) (x : string * Trade) (w : World) :
  transaction (settleTrade fault random nowMs (forgetRow x))
    (forgetDirections w)
  = (forgetDirections (transaction (settleTrade fault random nowMs x) w).1,
     (transaction (settleTrade fault random nowMs x) w).2).
Proof.
  destruct x as [k t]. unfold transaction, settleTrade, forgetRow.
  cbn [fst snd]. change (delivery_time (forgetDirection t)) with (delivery_time t).
  destruct (decide _); [|reflexivity].
  unfold selectAccount, updateAccountBalance, updateTrade, statement.
  unfold mbind, M_bind, throw; cbn [log].
  rewrite !simulateOutcome_run; cbn.
  destruct (fault (OpSelectAccount _)); cbn; [reflexivity|].
  destruct (accounts w !! user_id t) as [a|]; cbn.
  - destruct (fault (OpUpdateAccount _)); cbn; [reflexivity|].
    destruct (fault (OpUpdateTrade _)); cbn; [reflexivity|].
    unfold forgetDirections, setTrades. cbn.
    rewrite forget_alter_settlement. reflexivity.
  - destruct (fault (OpUpdateTrade _)); cbn; [reflexivity|].
    unfold forgetDirections, setTrades. cbn.
    rewrite forget_alter_settlement. reflexivity.
Qed.

Lemma resolveEach_forget (nowMs : Z) l (w : World) :
  resolveEach fault random nowMs (forgetRow <$> l) (forgetDirections w)
  = (forgetDirections (resolveEach fault random nowMs l w).1,
     (resolveEach fault random nowMs l w).2).
Proof.
  revert w. induction l as [|x l IH]; intros w; [reflexivity|].
  rewrite fmap_cons, !resolveEach_cons, settleTrade_forget.
  destruct (transaction _ w) as [w' [[]|e]]; cbn [fst snd]; [apply IH|].
  reflexivity.
Qed.

Lemma filter_isDue_forget (nowMs : Z) (l : list (string * Trade)) :
  filter (isDue nowMs) (forgetRow <$> l)
  = forgetRow <$> filter (isDue nowMs) l.
Proof.
  induction l as [|x l IH]; [reflexivity|].
  rewrite fmap_cons, !filter_cons, IH.
  destruct (decide (isDue nowMs x)) as [H|H];
    destruct (decide (isDue nowMs (forgetRow x))) as [H'|H'];
    try reflexivity; contradiction.
Qed.

Lemma dueTrades_forget (nowMs : Z) (w : World) :
  dueTrades nowMs (forgetDirections w) = forgetRow <$> dueTrades nowMs w.
Proof.
  unfold dueTrades. cbn [forgetDirections setTrades trades].
  rewrite map_to_list_fmap. apply filter_isDue_forget.
Qed.

(** The sweep commutes with blanking the directions. *)
Lemma resolvePendingTrades_forget (nowMs : Z) (w : World) :
  resolvePendingTrades fault random nowMs (forgetDirections w)
  = (forgetDirections (resolvePendingTrades fault random nowMs w).1,
     (resolvePendingTrades fault random nowMs w).2).
Proof.
  rewrite !resolvePendingTrades_run.
  destruct (fault OpSelectDueTrades); [reflexivity|]. cbn zeta.
  rewrite dueTrades_forget, length_fmap.
  change (started ?n (forgetDirections w))
    with (forgetDirections (started n w)).
  rewrite resolveEach_forget.
  destruct (resolveEach _ _ _ _ _) as [w1 [[]|e]]; reflexivity.
Qed.

(** C9. Two sweeps that start from worlds equal up to the [direction] of
    their trade rows, with the same draws and the same failures, end in
    worlds equal up to the [direction] of their trade rows: every row gets
    the same outcome, gain percentage, final amount and simulated final
    price, and every account the same balance. The simulation block
    returns the same locals for two rows that differ in [direction]
    only. *)
Theorem direction_does_not_influence_settlement (nowMs : Z)
    (w1 w2 : World) :
  forgetDirections w1 = forgetDirections w2 ->
  forgetDirections (resolvePendingTrades fault random nowMs w1).1
    = forgetDirections (resolvePendingTrades fault random nowMs w2).1
  /\ (resolvePendingTrades fault random nowMs w1).2
     = (resolvePendingTrades fault random nowMs w2).2
  /\ (forall k t1 t2 w,
        forgetDirection t1 = forgetDirection t2 ->
        simulateOutcome random (k, t1) w = simulateOutcome random (k, t2) w).
Proof.
  intros Hw.
  pose proof (resolvePendingTrades_forget nowMs w1) as H1.
  pose proof (resolvePendingTrades_forget nowMs w2) as H2.
  rewrite Hw, H2 in H1.
  split; [exact (eq_sym (f_equal fst H1))|].
  split; [exact (eq_sym (f_equal snd H1))|].
  intros k t1 t2 w Ht. rewrite !simulateOutcome_run. cbn [fst snd].
  rewrite <- (settleLocals_forget _ _ t1), <- (settleLocals_forget _ _ t2), Ht.
  reflexivity.
Qed.
End Direction.

(** ** The handler of POST /api/trades *)

Section PostTrade.
Variable fault : DbOp -> bool.
Variable is_uuid : string -> bool.
Variable is_email : string -> bool.

Local Open Scope Q_scope.

Local Abbreviation post := (postTrade fault is_uuid is_email).
Local Abbreviation accepts := (schemaAccepts is_uuid is_email).

Lemma postTrade_invalid (nowMs : Z) (body : InsertTrade.t) (w : World) :
  accepts body = false ->
  post nowMs body w = (w, Ok ValidationFailed).
Proof.
  intros Hv. unfold postTrade, tryCatch, parse, mbind, M_bind.
  rewrite Hv. reflexivity.
Qed.

(** The handler, unfolded along its checks, for a body the schema
    accepts. *)
Lemma postTrade_run (nowMs : Z) (body : InsertTrade.t) (w : World) :
  accepts body = true ->
  post nowMs body w =
    if fault (OpSelectAccount (InsertTrade.userId body))
    then (addLog ErrorCreate w, Ok FailedToCreate)
    else
      match accounts w !! InsertTrade.userId body with
      | None => (w, Ok UserAccountNotFound)
      | Some a =>
          if Qlt_le_dec (balance a) (Num.toFixed 8 (InsertTrade.amount body))
          then (w, Ok InsufficientBalance)
          else if fault (OpUpdateAccount (InsertTrade.userId body))
          then (addLog ErrorCreate w, Ok FailedToCreate)
          else if fault (OpInsertTrade (InsertTrade.id body))
          then (addLog ErrorCreate w, Ok FailedToCreate)
          else
            match trades w !! InsertTrade.id body with
            | Some _ => (addLog ErrorCreate w, Ok FailedToCreate)
            | None =>
                (mkWorld
                   (alter
                      (setBalance
                         (Num.toFixed 8
                            (balance a
                             - Num.toFixed 8 (InsertTrade.amount body))))
                      (InsertTrade.userId body) (accounts w))
                   (<[InsertTrade.id body :=
                        tradeToInsert nowMs (withDefaults body)]> (trades w))
                   (cursor w) (console w),
                 Ok TradeCreated)
            end
      end.
Proof.
  intros Hv.
  unfold postTrade, tryCatch, parse, mbind, M_bind, selectAccount,
    updateAccountBalance, insertTrade, transaction, statement, throw.
  rewrite Hv. cbn.
  destruct (fault (OpSelectAccount _)); [reflexivity|].
  destruct (accounts w !! InsertTrade.userId body) as [a|]; [|reflexivity].
  unfold Num.parseFloatOr0, Num.parseFloat. cbn.
  destruct (Qlt_le_dec _ _); [reflexivity|]. cbn.
  destruct (fault (OpUpdateAccount _)); [reflexivity|]. cbn.
  destruct (fault (OpInsertTrade _)); [reflexivity|]. cbn.
  destruct (trades w !! InsertTrade.id body); reflexivity.
Qed.

(** Either the trade is created, or the tables are as they were. *)
Lemma postTrade_atomic (nowMs : Z) (body : InsertTrade.t) (w : World) :
  (post nowMs body w).2 <> Ok TradeCreated ->
  sameTables w (post nowMs body w).1.
Proof.
  destruct (accepts body) eqn:Hv.
  - rewrite postTrade_run by done.
    repeat (first [destruct (fault _) | destruct (accounts w !! _)
                  | destruct (Qlt_le_dec _ _) | destruct (trades w !! _)];
            try (intros _; split; reflexivity)).
    intros H. contradiction H. reflexivity.
  - rewrite postTrade_invalid by done. intros _. split; reflexivity.
Qed.
End PostTrade.

(** * The claims about POST /api/trades *)

Section CreateTradeClaims.
Variable fault : DbOp -> bool.
Variable random : nat -> Q.
Variable is_uuid : string -> bool.
Variable is_email : string -> bool.

Local Open Scope Q_scope.

Local Abbreviation post := (postTrade fault is_uuid is_email).
Local Abbreviation accepts := (schemaAccepts is_uuid is_email).

Lemma accepts_amount (body : InsertTrade.t) :
  accepts body = true -> 0 <= InsertTrade.amount body.
Proof.
  unfold schemaAccepts. rewrite !andb_true_iff.
  intros [[[[[[_ _] Ha] _] _] _] _]. apply Qle_bool_iff. exact Ha.
Qed.



End CreateTradeClaims.

(** * The theorems at concrete worlds *)

Section Witnesses.
Import Example.
Local Open Scope Q_scope.

Lemma half_in_range (n : nat) : 0 <= half n /\ half n < 1.
Proof. split; reflexivity || discriminate. Qed.

Lemma high_in_range (n : nat) : 0 <= high n /\ high n < 1.
Proof. split; reflexivity || discriminate. Qed.

Lemma onGrid8_Z (z : Z) : Num.onGrid8 (inject_Z z).
Proof.
  exists (z * Zpos (Num.pow10 8))%Z. unfold Qeq. cbn [Qnum Qden inject_Z]. lia.
Qed.


End Witnesses.



(** The row of the settled trade is completed and won. *)
Lemma never_records_draw_witness :
  let row :=
    settledRow (settleLocals 0.5 0.5 (Example.pendingRow up 1000))
      (Example.pendingRow up 1000) in
  trades (resolvePendingTrades noFault Example.half 1000
            (Example.oneTrade up)).1 !! "t1" = Some row
  /\ (trades (Example.oneTrade up) !! "t1" = Some row
      \/ (status row = completed
          /\ (outcome row = Some win \/ outcome row = Some loss))).
Proof.
  cbn zeta. split; [vm_compute; reflexivity|].
  apply (never_records_draw noFault Example.half 1000 (Example.oneTrade up) "t1").
  vm_compute. reflexivity.
Defined.

(** One pending trade: the first sweep resolves one trade; the second,
    whose query fails, resolves none and changes no table. *)
Lemma second_sweep_is_noop_witness :
  (forall op, noFault op = false)
  /\ Sample.queryFails OpSelectDueTrades = true
  /\ let w1 := (resolvePendingTrades noFault Example.half 1000
                  (Example.oneTrade up)).1 in
     let w2 := (resolvePendingTrades Sample.queryFails Example.half 1000
                  w1).1 in
     let w3 := (resolvePendingTrades Sample.queryFails Example.half 1000
                  (Example.oneTrade up)).1 in
     resolvedCount (console w1) = 1%nat
     /\ dueTrades 1000 w1 = []
     /\ sameTables w1 w2
     /\ resolvedCount (console w2) = 1%nat
     /\ sameTables (Example.oneTrade up) w3
     /\ resolvedCount (console w3) = 0%nat.
Proof.
  split; [reflexivity|]. split; [reflexivity|]. cbn zeta.
  destruct (second_sweep_is_noop noFault Example.half Sample.queryFails 1000
              (Example.oneTrade up))
    as [Hfirst _].
  destruct (Hfirst (fun _ => eq_refl))
    as (Hcount & _ & _ & Hnone & Hsame & _ & Hcount2).
  destruct (second_sweep_is_noop Sample.queryFails Example.half noFault 1000
              (Example.oneTrade up))
    as [_ Hfailed].
  destruct (Hfailed eq_refl) as (Hsame3 & _ & Hcount3).
  split; [rewrite Hcount; vm_compute; reflexivity|].
  split; [exact Hnone|]. split; [exact Hsame|].
  split; [rewrite Hcount2, Hcount; vm_compute; reflexivity|].
  split; [exact Hsame3|]. rewrite Hcount3. reflexivity.
Defined.

(** A row that is already completed in the store is settled again when a
    sweep still holds it as pending: the account is credited again. *)
Lemma status_only_moves_to_completed_witness :
  let w1 := (resolvePendingTrades noFault Example.half 1000
               (Example.oneTrade up)).1 in
  (delivery_time (Example.pendingRow up 1000) <= 1000)
  /\ status <$> trades w1 !! "t1" = Some completed
  /\ exists w',
       transaction
         (settleTrade noFault Example.half 1000
            ("t1", Example.pendingRow up 1000)) w1 = (w', Ok tt)
       /\ balance <$> accounts w1 !! "u1" = Some (Num.toFixed 8 10130)
       /\ balance <$> accounts w' !! "u1" = Some (Num.toFixed 8 11260).
Proof.
  cbn zeta. split; [reflexivity|]. split; [vm_compute; reflexivity|].
  destruct (status_only_moves_to_completed noFault Example.half 1000
              (resolvePendingTrades noFault Example.half 1000
                 (Example.oneTrade up)).1
              ("t1", Example.pendingRow up 1000) ltac:(reflexivity))
    as (_ & w' & Hrun & _ & Hacc).
  exists w'. split; [exact Hrun|]. split; [vm_compute; reflexivity|].
  cbn [snd] in Hacc. change (user_id (Example.pendingRow up 1000)) with "u1" in Hacc.
  rewrite Hacc. vm_compute. reflexivity.
Defined.

(** Two pending trades and a failure on the first: the sweep ends there
    and the second trade stays pending. *)
Lemma failure_ends_the_sweep_witness :
  let fault := Example.failsOn "t1" in
  let row := Example.pendingRow up 1000 in
  let w1 := started 2 Example.twoTrades in
  let w2 := (transaction (settleTrade fault Example.half 1000 ("t1", row)) w1).1 in
  (resolvePendingTrades fault Example.half 1000 Example.twoTrades).2 = Ok tt
  /\ fault OpSelectDueTrades = false
  /\ dueTrades 1000 Example.twoTrades = [] ++ ("t1", row) :: [("t2", row)]
  /\ resolveEach fault Example.half 1000 [] w1 = (w1, Ok tt)
  /\ transaction (settleTrade fault Example.half 1000 ("t1", row)) w1
     = (w2, Throw (DbError (OpUpdateTrade "t1")))
  /\ resolvePendingTrades fault Example.half 1000 Example.twoTrades
     = (addLog LogFinished (addLog ErrorResolving w2), Ok tt)
  /\ trades w2 !! "t2" = Some row.
Proof.
  cbn zeta.
  pose proof (failure_ends_the_sweep (Example.failsOn "t1") Example.half 1000
                Example.twoTrades) as [Hok Hstop].
  split; [exact Hok|]. split; [reflexivity|].
  split; [vm_compute; reflexivity|]. split; [reflexivity|].
  split; [vm_compute; reflexivity|].
  destruct (Hstop [] ("t1", Example.pendingRow up 1000)
              [("t2", Example.pendingRow up 1000)]
              (started 2 Example.twoTrades)
              (transaction
                 (settleTrade (Example.failsOn "t1") Example.half 1000
                    ("t1", Example.pendingRow up 1000))
                 (started 2 Example.twoTrades)).1
              (DbError (OpUpdateTrade "t1"))
              eq_refl ltac:(vm_compute; reflexivity)
              ltac:(vm_compute; reflexivity) ltac:(vm_compute; reflexivity))
    as (Hrun & _ & Hrows).
  split; [exact Hrun|].
  apply Hrows. apply elem_of_cons. right. apply elem_of_cons. left. reflexivity.
Defined.

(** The same trade bet up and bet down. *)
Lemma direction_does_not_influence_settlement_witness :
  forgetDirections (Example.oneTrade up)
    = forgetDirections (Example.oneTrade down)
  /\ forgetDirections
       (resolvePendingTrades noFault Example.half 1000 (Example.oneTrade up)).1
     = forgetDirections
         (resolvePendingTrades noFault Example.half 1000
            (Example.oneTrade down)).1.
Proof.
  split; [vm_compute; reflexivity|].
  apply (direction_does_not_influence_settlement noFault Example.half 1000
           (Example.oneTrade up) (Example.oneTrade down)).
  vm_compute. reflexivity.
Defined.




(** * Where the code departs from the stated claims *)





(** C5 as stated fails: a sweep that queried while the trade was pending
    and runs its loop after another sweep completed it settles the trade a
    second time; the stored status is not read again, and the account is
    credited twice. *)
Lemma settled_twice_counterexample :
  let w0 := Example.oneTrade up in
  let snapshot := dueTrades 1000 w0 in
  let w1 := (resolvePendingTrades noFault Example.half 1000 w0).1 in
  let res := resolveEach noFault Example.half 1000 snapshot w1 in
  status <$> trades w1 !! "t1" = Some completed
  /\ balance <$> accounts w1 !! "u1" = Some (Num.toFixed 8 10130)
  /\ res.2 = Ok tt
  /\ balance <$> accounts res.1 !! "u1" = Some (Num.toFixed 8 11260)
  /\ ~ sameTables w1 res.1.
Proof.
  cbn zeta. split; [vm_compute; reflexivity|].
  split; [vm_compute; reflexivity|]. split; [vm_compute; reflexivity|].
  split; [vm_compute; reflexivity|].
  intros [Hacc _].
  apply (f_equal (fun m : gmap string Account => balance <$> m !! "u1")) in Hacc.
  vm_compute in Hacc. discriminate.
Qed.


(** C7 as stated fails: two trades are due, the update of the first one
    fails, and the second one, none of whose statements would fail, is not
    processed: it is still pending after the sweep. *)
Lemma remaining_trades_not_processed_counterexample :
  let fault := Example.failsOn "t1" in
  let row := Example.pendingRow up 1000 in
  let res := resolvePendingTrades fault Example.half 1000 Example.twoTrades in
  dueTrades 1000 Example.twoTrades = [("t1", row); ("t2", row)]
  /\ fault (OpSelectAccount "u1") = false
  /\ fault (OpUpdateAccount "u1") = false
  /\ fault (OpUpdateTrade "t2") = false
  /\ res.2 = Ok tt
  /\ trades res.1 !! "t2" = Some row
  /\ status row = pending
  /\ ErrorResolving ∈ console res.1.
Proof.
  cbn zeta. split; [vm_compute; reflexivity|].
  split; [reflexivity|]. split; [reflexivity|]. split; [reflexivity|].
  split; [vm_compute; reflexivity|]. split; [vm_compute; reflexivity|].
  split; [reflexivity|].
  apply list_elem_of_In. vm_compute. tauto.
Qed.

(** C8 as stated fails: two trades are due and the update of the first one
    fails, so the first sweep resolves none of the two and both are still
    due; the second sweep at the same time, in which nothing fails,
    resolves both and changes both tables. *)
Lemma second_sweep_resolves_counterexample :
  let w1 := (resolvePendingTrades (Example.failsOn "t1") Example.half 1000
               Example.twoTrades).1 in
  let w2 := (resolvePendingTrades noFault Example.half 1000 w1).1 in
  length (dueTrades 1000 Example.twoTrades) = 2%nat
  /\ resolvedCount (console w1) = 0%nat
  /\ length (dueTrades 1000 w1) = 2%nat
  /\ resolvedCount (console w2) = 2%nat
  /\ status <$> trades w1 !! "t1" = Some pending
  /\ status <$> trades w2 !! "t1" = Some completed
  /\ ~ sameTables w1 w2.
Proof.
  cbn zeta. repeat (split; [vm_compute; reflexivity|]).
  intros [_ Htrades].
  apply (f_equal (fun m : gmap string Trade => status <$> m !! "t1"))
    in Htrades.
  vm_compute in Htrades. discriminate.
Qed.

(** * Further properties *)

(** ** numToString and stringToNum *)

Section NumberTexts.
Local Open Scope Q_scope.


(** X2. Rounding is idempotent: the number read back from the text
    [numToString] wrote is written and read back as the same number; and
    for a number that is not below zero, for which [toFixed] prints no
    minus sign, the text written again is the same text. *)
Theorem numToString_round_trip (x : Q) :
  stringToNum (numToString (Some (stringToNum (numToString (Some x)))))
  = stringToNum (numToString (Some x))
  /\ (0 <= x ->
      numToString (Some (stringToNum (numToString (Some x))))
      = numToString (Some x)).
Proof.
  cbn [numToString stringToNum]. unfold Num.parseFloat.
  rewrite toFixed_twice. split; reflexivity.
Qed.

(** X3. [numToString] keeps the order of numbers: a smaller number never
    gets a greater text. *)
Theorem numToString_monotone (x y : Q) :
  x <= y ->
  stringToNum (numToString (Some x)) <= stringToNum (numToString (Some y)).
Proof.
  intros Hxy. cbn [numToString stringToNum]. unfold Num.parseFloat.
  apply toFixed_le, Hxy.
Qed.
End NumberTexts.

(** 0.000000014 is written as 0.00000001 and 0.000000016 as 0.00000002. *)
Lemma numToString_monotone_witness :
  (0.000000014 <= 0.000000016)%Q
  /\ (stringToNum (numToString (Some 0.000000014%Q))
      <= stringToNum (numToString (Some 0.000000016%Q)))%Q.
Proof.
  split; [vm_compute; discriminate|].
  apply (numToString_monotone 0.000000014 0.000000016).
  vm_compute. discriminate.
Defined.

(** ** The trade routes: what they leave alone *)

Section CoreFrames.
Variable fault : DbOp -> bool.
Variable random : nat -> Q.

Lemma accountStep_refl (o : option Account) : accountStep o o.
Proof. destruct o; cbn; auto. Qed.

Lemma accountStep_trans (o1 o2 o3 : option Account) :
  accountStep o1 o2 -> accountStep o2 o3 -> accountStep o1 o3.
Proof.
  destruct o1 as [a1|], o2 as [a2|], o3 as [a3|]; cbn; try tauto.
  intros (Hu1 & He1 & H1) (Hu2 & He2 & H2).
  split; [congruence|]. split; [congruence|].
  destruct H2 as [H2|H2]; [|auto]. rewrite H2. exact H1.
Qed.

Lemma accountStep_alter (q : Q) (k k' : string) (m : gmap string Account) :
  accountStep (m !! k') (alter (setBalance (Num.toFixed 8 q)) k m !! k').
Proof.
  rewrite lookup_alter. case_decide; [subst k'|apply accountStep_refl].
  destruct (m !! k) as [a|]; [|exact I].
  split; [reflexivity|]. split; [reflexivity|]. right. apply toFixed_onGrid8.
Qed.

Lemma settleTrade_accounts (nowMs : Z) (trade : string * Trade) (w : World)
    (k : string) :
  accountStep (accounts w !! k)
    (accounts (transaction (settleTrade fault random nowMs trade) w).1 !! k).
Proof.
  destruct (settleTrade_cases fault random nowMs trade w)
    as [[_ ->]|[(_ & _ & -> & _)|(e & _ & _ & -> & _)]];
    [|apply accountStep_refl..].
  cbn [fst settleWorld accounts]. rewrite lookup_alter.
  case_decide as Hk; [rewrite <- Hk|apply accountStep_refl].
  destruct (accounts w !! user_id trade.2) as [a|]; [|exact I].
  split; [reflexivity|]. split; [reflexivity|]. right. apply toFixed_onGrid8.
Qed.

Lemma resolveEach_accounts (nowMs : Z) l (w : World) (k : string) :
  accountStep (accounts w !! k)
    (accounts (resolveEach fault random nowMs l w).1 !! k).
Proof.
  revert w. induction l as [|x l IH]; intros w; [apply accountStep_refl|].
  rewrite resolveEach_cons.
  pose proof (settleTrade_accounts nowMs x w k) as Hstep.
  destruct (transaction _ w) as [w' [[]|e]]; cbn [fst] in *.
  - eapply accountStep_trans; [exact Hstep|apply IH].
  - exact Hstep.
Qed.

Lemma sweep_accounts (nowMs : Z) (w : World) (k : string) :
  accountStep (accounts w !! k)
    (accounts (resolvePendingTrades fault random nowMs w).1 !! k).
Proof.
  rewrite resolvePendingTrades_run.
  destruct (fault OpSelectDueTrades); [apply accountStep_refl|]. cbn zeta.
  pose proof (resolveEach_accounts nowMs (dueTrades nowMs w)
                (started (length (dueTrades nowMs w)) w) k) as H.
  destruct (resolveEach _ _ _ _ _) as [w1 [[]|e]]; exact H.
Qed.

Lemma sweep_rowStep (nowMs : Z) (w : World) (k : string) :
  rowStep (dueTrades nowMs w) k (trades w !! k)
    (trades (resolvePendingTrades fault random nowMs w).1 !! k).
Proof.
  rewrite resolvePendingTrades_run.
  destruct (fault OpSelectDueTrades); [left; reflexivity|]. cbn zeta.
  pose proof (resolveEach_rows fault random nowMs (dueTrades nowMs w)
                (started (length (dueTrades nowMs w)) w) k
                (NoDup_dueTrades nowMs w)) as H.
  destruct (resolveEach _ _ _ _ _) as [w1 [[]|e]]; exact H.
Qed.

(** X4. Whatever fails, a sweep adds and removes no account and no trade,
    changes nothing of an account but its balance, and changes nothing of
    a trade but its status, outcome and settlement fields: the owner, the
    asset, the type, the direction, the amount, the entry price, the
    delivery time, the timestamp and the email of a trade stay as they
    were. *)
Theorem sweep_keeps_rows_and_terms (nowMs : Z) (w : World) :
  let w' := (resolvePendingTrades fault random nowMs w).1 in
  (forall k, is_Some (accounts w' !! k) <-> is_Some (accounts w !! k))
  /\ (forall k a a',
        accounts w !! k = Some a -> accounts w' !! k = Some a' ->
        username a' = username a /\ email a' = email a)
  /\ (forall k, is_Some (trades w' !! k) <-> is_Some (trades w !! k))
  /\ (forall k t t',
        trades w !! k = Some t -> trades w' !! k = Some t' ->
        user_id t' = user_id t /\ crypto_id t' = crypto_id t
        /\ crypto_name t' = crypto_name t
        /\ crypto_symbol t' = crypto_symbol t
        /\ type t' = type t /\ direction t' = direction t
        /\ amount t' = amount t /\ initial_price t' = initial_price t
        /\ delivery_time t' = delivery_time t
        /\ timestamp t' = timestamp t /\ trade_email t' = trade_email t).
Proof.
  cbn zeta. split; [|split; [|split]].
  - intros k. pose proof (sweep_accounts nowMs w k) as H.
    destruct (accounts w !! k), (accounts _ !! k); cbn in H;
      try contradiction; split; intros; eauto; by apply is_Some_None in H0.
  - intros k a a' Ha Ha'. pose proof (sweep_accounts nowMs w k) as H.
    rewrite Ha, Ha' in H. cbn in H. tauto.
  - intros k. destruct (sweep_rowStep nowMs w k)
      as [->|(t & s & -> & _ & -> & _)]; [done|].
    split; intros _; eauto.
  - intros k t t' Ht Ht'. destruct (sweep_rowStep nowMs w k)
      as [Heq|(t0 & s & H0 & _ & H1 & _)].
    + rewrite Heq, Ht in Ht'. injection Ht' as <-. repeat split.
    + rewrite Ht in H0. injection H0 as <-.
      rewrite Ht' in H1. injection H1 as ->. repeat split.
Qed.
End CoreFrames.

(** ** The trade routes: balances *)

(** What a sweep does to a balance, for a relation [R] between balances
    that holds across a credit of a final amount. *)
Section SweepBalances.
Variable fault : DbOp -> bool.
Variable random : nat -> Q.
Variable R : Q -> Q -> Prop.

Local Open Scope Q_scope.

Hypothesis R_refl : forall b, R b b.
Hypothesis R_trans : forall b1 b2 b3, R b1 b2 -> R b2 b3 -> R b1 b3.

(** [R] holds across the credit of the final amount of [t]. *)
Local Abbreviation credits t :=
  (forall b i j,
     R b (Num.toFixed 8
            (b + Settle.finalAmount (settleLocals (random i) (random j) t)))).

Lemma balanceStep_refl (o : option Account) : balanceStep R o o.
Proof. destruct o; cbn; auto. Qed.

Lemma balanceStep_trans (o1 o2 o3 : option Account) :
  balanceStep R o1 o2 -> balanceStep R o2 o3 -> balanceStep R o1 o3.
Proof.
  destruct o1 as [a1|], o2 as [a2|], o3 as [a3|]; cbn; try tauto.
  apply R_trans.
Qed.

Lemma settleTrade_balanceStep (nowMs : Z) (trade : string * Trade)
    (w : World) (k : string) :
  credits trade.2 ->
  balanceStep R (accounts w !! k)
    (accounts (transaction (settleTrade fault random nowMs trade) w).1 !! k).
Proof.
  intros Hc.
  destruct (settleTrade_cases fault random nowMs trade w)
    as [[_ ->]|[(_ & _ & -> & _)|(e & _ & _ & -> & _)]];
    [|apply balanceStep_refl..].
  cbn [fst settleWorld accounts]. rewrite lookup_alter.
  case_decide as Hk; [rewrite <- Hk|apply balanceStep_refl].
  destruct (accounts w !! user_id trade.2) as [a|]; [|exact I].
  cbn. apply Hc.
Qed.

Lemma resolveEach_balanceStep (nowMs : Z) l (w : World) (k : string) :
  Forall (fun x => credits x.2) l ->
  balanceStep R (accounts w !! k)
    (accounts (resolveEach fault random nowMs l w).1 !! k).
Proof.
  intros Hl. revert w.
  induction Hl as [|x l Hx Hl IH]; intros w; [apply balanceStep_refl|].
  rewrite resolveEach_cons.
  pose proof (settleTrade_balanceStep nowMs x w k Hx) as Hstep.
  destruct (transaction _ w) as [w' [[]|e]]; cbn [fst] in *.
  - eapply balanceStep_trans; [exact Hstep|apply IH].
  - exact Hstep.
Qed.

Lemma sweep_balanceStep (nowMs : Z) (w : World) (k : string) :
  (forall k t, trades w !! k = Some t -> credits t) ->
  balanceStep R (accounts w !! k)
    (accounts (resolvePendingTrades fault random nowMs w).1 !! k).
Proof.
  intros Hc. rewrite resolvePendingTrades_run.
  destruct (fault OpSelectDueTrades); [apply balanceStep_refl|]. cbn zeta.
  assert (Forall (fun x => credits x.2) (dueTrades nowMs w)) as Hl.
  { apply Forall_forall. intros [k' t'] Hin.
    apply elem_of_dueTrades in Hin as [Hin _]. exact (Hc k' t' Hin). }
  pose proof (resolveEach_balanceStep nowMs (dueTrades nowMs w)
                (started (length (dueTrades nowMs w)) w) k Hl) as H.
  destruct (resolveEach _ _ _ _ _) as [w1 [[]|e]]; exact H.
Qed.
End SweepBalances.

Section CoreBalances.
Variable fault : DbOp -> bool.
Variable random : nat -> Q.

Local Open Scope Q_scope.

Hypothesis random_range : forall n, 0 <= random n /\ random n < 1.

Lemma settleLocals_finalAmount_nonneg (i j : nat) (t : Trade) :
  0 <= amount t ->
  0 <= Settle.finalAmount (settleLocals (random i) (random j) t).
Proof.
  intros Ha. destruct (random_range j) as [Hj0 Hj1].
  unfold settleLocals, WIN_PERCENTAGE_SIMULATION, MIN_PROFIT_PERCENTAGE,
    MAX_PROFIT_PERCENTAGE, MIN_LOSS_PERCENTAGE, MAX_LOSS_PERCENTAGE.
  destruct (Qlt_le_dec _ _); cbn [Settle.finalAmount]; nra.
Qed.

Lemma toFixed_credit (b x : Q) :
  Num.onGrid8 b -> 0 <= x -> b <= Num.toFixed 8 (b + x).
Proof.
  intros Hg Hx. rewrite <- (toFixed_id_onGrid b Hg) at 1.
  apply toFixed_le. lra.
Qed.

Lemma raisedOnGrid_refl (b : Q) : raisedOnGrid b b.
Proof. intros H. split; [lra|done]. Qed.

Lemma raisedOnGrid_trans (b1 b2 b3 : Q) :
  raisedOnGrid b1 b2 -> raisedOnGrid b2 b3 -> raisedOnGrid b1 b3.
Proof.
  intros H1 H2 Hg. destruct (H1 Hg) as [Hle Hg2].
  destruct (H2 Hg2) as [Hle2 Hg3]. split; [lra|done].
Qed.

Lemma staysNonneg_trans (b1 b2 b3 : Q) :
  staysNonneg b1 b2 -> staysNonneg b2 b3 -> staysNonneg b1 b3.
Proof. unfold staysNonneg. tauto. Qed.

(** X5. A sweep pays and never charges: when the draws lie in [0, 1), no
    trade has a negative amount and every balance has at most eight
    fractional digits, no balance is lower after the sweep than before,
    whatever fails. *)
Theorem sweep_never_lowers_a_balance (nowMs : Z) (w : World)
    (k : string) (a a' : Account) :
  (forall k t, trades w !! k = Some t -> 0 <= amount t) ->
  balancesOnGrid w ->
  accounts w !! k = Some a ->
  accounts (resolvePendingTrades fault random nowMs w).1 !! k = Some a' ->
  balance a <= balance a'.
Proof.
  intros Hamt Hgrid Ha Ha'.
  pose proof (sweep_balanceStep fault random raisedOnGrid
                raisedOnGrid_refl raisedOnGrid_trans nowMs w k) as H.
  rewrite Ha, Ha' in H. cbn in H. apply H; [|exact (Hgrid k a Ha)].
  intros k0 t Ht b i j Hg. split; [|apply toFixed_onGrid8].
  apply toFixed_credit; [done|].
  apply settleLocals_finalAmount_nonneg. exact (Hamt k0 t Ht).
Qed.

Lemma sweep_solvent (nowMs : Z) (w : World) :
  solvent w -> solvent (resolvePendingTrades fault random nowMs w).1.
Proof.
  intros [Hbal Hamt]. split.
  - intros k a' Ha'.
    pose proof (sweep_balanceStep fault random staysNonneg
                  ltac:(unfold staysNonneg; tauto) staysNonneg_trans
                  nowMs w k) as H.
    rewrite Ha' in H. destruct (accounts w !! k) as [a|] eqn:Ha;
      [|cbn in H; contradiction H; clear H].
    + cbn in H. apply H; [|exact (Hbal k a Ha)].
      intros k0 t Ht b i j Hb. apply toFixed_nonneg.
      pose proof (settleLocals_finalAmount_nonneg
                    i j t (Hamt k0 t Ht)). lra.
    + intros k0 t Ht b i j Hb. apply toFixed_nonneg.
      pose proof (settleLocals_finalAmount_nonneg
                    i j t (Hamt k0 t Ht)). lra.
  - intros k t' Ht'.
    destruct (sweep_rowStep fault random nowMs w k)
      as [Heq|(t & s & Ht & _ & Hs & _)].
    + rewrite Heq in Ht'. exact (Hamt k t' Ht').
    + rewrite Ht' in Hs. injection Hs as ->. cbn. exact (Hamt k t Ht).
Qed.
End CoreBalances.

(** ** The trade routes: invariants of the tables *)

Section CoreInvariants.
Variable fault : DbOp -> bool.
Variable random : nat -> Q.
Variable is_uuid : string -> bool.
Variable is_email : string -> bool.

Local Open Scope Q_scope.

Local Abbreviation post := (postTrade fault is_uuid is_email).
Local Abbreviation accepts := (schemaAccepts is_uuid is_email).
Local Abbreviation sweep := (resolvePendingTrades fault random).

Lemma postTrade_accounts (nowMs : Z) (body : InsertTrade.t) (w : World)
    (k : string) :
  accountStep (accounts w !! k) (accounts (post nowMs body w).1 !! k).
Proof.
  destruct (accepts body) eqn:Hv;
    [|rewrite (postTrade_invalid fault is_uuid is_email) by done;
      apply accountStep_refl].
  rewrite (postTrade_run fault is_uuid is_email) by done.
  destruct (fault (OpSelectAccount _)); [apply accountStep_refl|].
  destruct (accounts w !! InsertTrade.userId body) as [a|];
    [|apply accountStep_refl].
  destruct (Qlt_le_dec _ _); [apply accountStep_refl|].
  destruct (fault (OpUpdateAccount _)); [apply accountStep_refl|].
  destruct (fault (OpInsertTrade _)); [apply accountStep_refl|].
  destruct (trades w !! InsertTrade.id body); [apply accountStep_refl|].
  apply accountStep_alter.
Qed.

Lemma accountStep_grid (w w' : World) :
  (forall k, accountStep (accounts w !! k) (accounts w' !! k)) ->
  balancesOnGrid w -> balancesOnGrid w'.
Proof.
  intros Hstep Hgrid k a' Ha'. specialize (Hstep k). rewrite Ha' in Hstep.
  destruct (accounts w !! k) as [a|] eqn:Ha; [|contradiction].
  destruct Hstep as (_ & _ & [Heq|Hg]); [|exact Hg].
  rewrite Heq. exact (Hgrid k a Ha).
Qed.

(** X6. The trade routes write every balance through [numToString]: if
    every balance has at most eight fractional digits, this is still so
    after a request to create a trade and after a sweep, whatever the
    request is and whatever fails. *)
Theorem trade_routes_keep_eight_digits (nowMs : Z) (body : InsertTrade.t)
    (w : World) :
  balancesOnGrid w ->
  balancesOnGrid (post nowMs body w).1
  /\ balancesOnGrid (sweep nowMs w).1.
Proof.
  intros Hgrid. split.
  - eapply accountStep_grid; [|exact Hgrid].
    intros k. apply postTrade_accounts.
  - eapply accountStep_grid; [|exact Hgrid].
    intros k. apply sweep_accounts.
Qed.
End CoreInvariants.

Section CoreSolvency.
Variable fault : DbOp -> bool.
Variable random : nat -> Q.
Variable is_uuid : string -> bool.
Variable is_email : string -> bool.

Local Open Scope Q_scope.

Local Abbreviation post := (postTrade fault is_uuid is_email).
Local Abbreviation accepts := (schemaAccepts is_uuid is_email).
Local Abbreviation sweep := (resolvePendingTrades fault random).

Hypothesis random_range : forall n, 0 <= random n /\ random n < 1.

Lemma postTrade_solvent (nowMs : Z) (body : InsertTrade.t) (w : World) :
  solvent w -> solvent (post nowMs body w).1.
Proof.
  intros [Hbal Hamt].
  destruct (accepts body) eqn:Hv;
    [|rewrite (postTrade_invalid fault is_uuid is_email) by done; done].
  rewrite (postTrade_run fault is_uuid is_email) by done.
  destruct (fault (OpSelectAccount _)); [done|].
  destruct (accounts w !! InsertTrade.userId body) as [a|] eqn:Ha; [|done].
  destruct (Qlt_le_dec _ _) as [|Hle]; [done|].
  destruct (fault (OpUpdateAccount _)); [done|].
  destruct (fault (OpInsertTrade _)); [done|].
  destruct (trades w !! InsertTrade.id body) eqn:Ht; [done|].
  split; cbn [fst accounts trades].
  - intros k a'. rewrite lookup_alter. case_decide as Hk.
    + subst k. rewrite Ha. cbn. intros [= <-]. cbn.
      apply toFixed_nonneg. lra.
    + apply Hbal.
  - intros k t. rewrite lookup_insert. case_decide as Hk.
    + intros [= <-]. cbn. apply toFixed_nonneg.
      exact (accepts_amount is_uuid is_email body Hv).
    + apply Hamt.
Qed.

(** X7. The trade routes overdraw no account: when the draws lie in
    [0, 1), no balance is negative and no trade has a negative amount,
    this is still so after a request to create a trade and after a sweep,
    whatever the request is and whatever fails. *)
Theorem trade_routes_keep_balances_nonnegative (nowMs : Z)
    (body : InsertTrade.t) (w : World) :
  solvent w ->
  solvent (post nowMs body w).1 /\ solvent (sweep nowMs w).1.
Proof.
  intros Hs. split; [apply postTrade_solvent, Hs|].
  apply (sweep_solvent fault random random_range), Hs.
Qed.
End CoreSolvency.

(** ** POST /api/trades: what a request leaves alone *)

Section CreateFrames.
Variable fault : DbOp -> bool.
Variable is_uuid : string -> bool.
Variable is_email : string -> bool.

Local Open Scope Q_scope.

Local Abbreviation post := (postTrade fault is_uuid is_email).
Local Abbreviation accepts := (schemaAccepts is_uuid is_email).

Lemma postTrade_created (nowMs : Z) (body : InsertTrade.t) (w w' : World) :
  post nowMs body w = (w', Ok TradeCreated) ->
  trades w !! InsertTrade.id body = None
  /\ exists a,
       accounts w !! InsertTrade.userId body = Some a
       /\ w' = mkWorld
                 (alter
                    (setBalance
                       (Num.toFixed 8
                          (balance a
                           - Num.toFixed 8 (InsertTrade.amount body))))
                    (InsertTrade.userId body) (accounts w))
                 (<[InsertTrade.id body :=
                      tradeToInsert nowMs (withDefaults body)]> (trades w))
                 (cursor w) (console w).
Proof.
  destruct (accepts body) eqn:Hv;
    [|rewrite (postTrade_invalid fault is_uuid is_email) by done; done].
  rewrite (postTrade_run fault is_uuid is_email) by done.
  destruct (fault (OpSelectAccount _)); [done|].
  destruct (accounts w !! InsertTrade.userId body) as [a|] eqn:Ha; [|done].
  destruct (Qlt_le_dec _ _) as [|Hle]; [done|].
  destruct (fault (OpUpdateAccount _)); [done|].
  destruct (fault (OpInsertTrade _)); [done|].
  destruct (trades w !! InsertTrade.id body) eqn:Ht; [done|].
  intros [= <-]. split; [reflexivity|]. exists a. split; reflexivity.
Qed.

(** X8. A stored trade is never overwritten: when the id of the body is
    the id of a stored trade, the handler does not answer "Trade created"
    and leaves both tables as they were, the balance included; if the
    schema accepts the body, no statement is failed by the database
    itself and the balance covers the amount, the answer is
    "Failed to create single trade" (500). *)
Theorem create_never_overwrites (nowMs : Z) (body : InsertTrade.t)
    (w : World) (t : Trade) :
  trades w !! InsertTrade.id body = Some t ->
  (post nowMs body w).2 <> Ok TradeCreated
  /\ sameTables w (post nowMs body w).1
  /\ (accepts body = true ->
      (forall op, fault op = false) ->
      forall a,
        accounts w !! InsertTrade.userId body = Some a ->
        Num.toFixed 8 (InsertTrade.amount body) <= balance a ->
        (post nowMs body w).2 = Ok FailedToCreate).
Proof.
  intros Ht.
  assert ((post nowMs body w).2 <> Ok TradeCreated) as Hno.
  { intros Hc. destruct (post nowMs body w) as [w' r] eqn:Hrun.
    cbn in Hc. subst r. apply postTrade_created in Hrun as [Hnone _].
    congruence. }
  split; [exact Hno|].
  split; [apply (postTrade_atomic fault is_uuid is_email), Hno|].
  intros Hv Hf a Ha Hle.
  rewrite (postTrade_run fault is_uuid is_email), !Hf, Ha, Ht by done.
  destruct (Qlt_le_dec _ _); [lra|reflexivity].
Qed.

(** X9. A request that is answered "Trade created" has added one row
    under an id no trade had, and has changed the balance of the account
    of the body: every other trade, every other account, the name and the
    email of that account, the stream of draws and the console are as
    they were. *)
Theorem create_changes_one_account_and_adds_one_trade (nowMs : Z)
    (body : InsertTrade.t) (w w' : World) :
  post nowMs body w = (w', Ok TradeCreated) ->
  trades w !! InsertTrade.id body = None
  /\ is_Some (trades w' !! InsertTrade.id body)
  /\ (forall k, k <> InsertTrade.id body -> trades w' !! k = trades w !! k)
  /\ (forall k,
        k <> InsertTrade.userId body -> accounts w' !! k = accounts w !! k)
  /\ (exists a a',
        accounts w !! InsertTrade.userId body = Some a
        /\ accounts w' !! InsertTrade.userId body = Some a'
        /\ username a' = username a /\ email a' = email a)
  /\ cursor w' = cursor w /\ console w' = console w.
Proof.
  intros Hrun. apply postTrade_created in Hrun as (Hnone & a & Ha & ->).
  cbn [accounts trades cursor console].
  split; [exact Hnone|]. split; [rewrite lookup_insert_eq; eauto|].
  split; [intros k Hk; by rewrite lookup_insert_ne|].
  split; [intros k Hk; by rewrite lookup_alter_ne|].
  split; [|done].
  exists a, (setBalance
               (Num.toFixed 8
                  (balance a - Num.toFixed 8 (InsertTrade.amount body))) a).
  split; [exact Ha|]. split; [|done].
  rewrite lookup_alter_eq, Ha. reflexivity.
Qed.
End CreateFrames.

(** ** The other routes *)

Section StoreFacts.

Lemma setWorld_world (s : Store) : setWorld (world s) s = s.
Proof. destruct s; reflexivity. Qed.

Lemma liftCore_ok {A} (m : M A) (s : Store) (w' : World) (a : A) :
  m (world s) = (w', Ok a) -> liftCore m s = (setWorld w' s, Done a).
Proof. intros H. unfold liftCore. rewrite H. reflexivity. Qed.

Lemma liftCore_throw {A} (m : M A) (s : Store) (w' : World) (e : Exn) :
  m (world s) = (w', Throw e) ->
  liftCore m s = (setWorld w' s, Raised (CoreError e)).
Proof. intros H. unfold liftCore. rewrite H. reflexivity. Qed.

End StoreFacts.

(** *** POST /api/trades/complete *)

Section ManualSweep.
Variable fault : DbOp -> bool.
Variable random : nat -> Q.

Lemma resolvePendingTrades_returns (nowMs : Z) (w : World) :
  (resolvePendingTrades fault random nowMs w).2 = Ok tt.
Proof.
  rewrite resolvePendingTrades_run.
  destruct (fault OpSelectDueTrades); [reflexivity|]. cbn zeta.
  destruct (resolveEach _ _ _ _ _) as [w1 [[]|e]]; reflexivity.
Qed.

Lemma postTradesComplete_run (nowMs : Z) (s : Store) :
  postTradesComplete fault random nowMs s =
    (setWorld (resolvePendingTrades fault random nowMs (world s)).1
       (addNote NoteManualRequest s),
     Done CompleteInitiated).
Proof.
  unfold postTradesComplete, tryCatchR, mbind, R_bind, note, liftCore.
  cbn [world addNote].
  pose proof (resolvePendingTrades_returns nowMs (world s)) as Hok.
  destruct (resolvePendingTrades fault random nowMs (world s)) as [w' r].
  cbn in Hok. subst r. reflexivity.
Qed.

(** X10. The manual sweep never reports a failure: whatever fails inside
    the sweep, the route answers "Trade resolution process initiated
    successfully." (200); its only effects are those of the sweep on the
    tables and one more line on the console. *)
Theorem manual_sweep_always_answers_initiated (nowMs : Z) (s : Store) :
  (postTradesComplete fault random nowMs s).2 = Done CompleteInitiated
  /\ world (postTradesComplete fault random nowMs s).1
     = (resolvePendingTrades fault random nowMs (world s)).1
  /\ journal (postTradesComplete fault random nowMs s).1
     = journal s ++ [NoteManualRequest]
  /\ uids (postTradesComplete fault random nowMs s).1 = uids s
  /\ strategies (postTradesComplete fault random nowMs s).1 = strategies s
  /\ investments (postTradesComplete fault random nowMs s).1
     = investments s.
Proof. rewrite postTradesComplete_run. repeat split. Qed.
End ManualSweep.

(** *** POST /api/update-balance and PUT /api/admin/users/:userId/balance *)

Section BalanceRoutes.
Variable fault : DbOp -> bool.

Local Open Scope Q_scope.

(** The store after [update(accounts).set({ balance: b })] for [id]. *)
Local Abbreviation written id b s :=
  (setWorld
     (setAccounts (alter (setBalance b) id (accounts (world s))) (world s))
     s).

Lemma updateBalanceReturning_run (id : string) (b : Q) (s : Store) :
  updateBalanceReturning fault id (Some b) s =
    if fault (OpUpdateAccount id)
    then (s, Raised (CoreError (DbError (OpUpdateAccount id))))
    else (written id b s,
          Done (Column.account <$> (setBalance b <$> accounts (world s) !! id))).
Proof.
  unfold updateBalanceReturning, updatedRow, liftCore, updateAccountBalance,
    statement, throw, mbind, R_bind.
  destruct (fault (OpUpdateAccount id)); [by rewrite setWorld_world|].
  cbn [world setWorld setAccounts accounts]. rewrite lookup_alter_eq.
  reflexivity.
Qed.

Lemma postUpdateBalance_run (userId : string) (b : Q) (s : Store) :
  userId <> "" ->
  postUpdateBalance fault (BalanceBody.mk userId (Some b)) s =
    if fault (OpUpdateAccount userId)
    then (addNote NoteUpdateBalanceFailed s, Done BalanceFailed)
    else
      match accounts (world s) !! userId with
      | None => (written userId (Num.toFixed 8 b) s, Done BalanceUserNotFound)
      | Some a =>
          (written userId (Num.toFixed 8 b) s,
           Done (BalanceUpdated (Num.toFixed 2 (Num.toFixed 8 b))))
      end.
Proof.
  intros Hid. unfold postUpdateBalance. cbn [BalanceBody.userId BalanceBody.balance].
  rewrite bool_decide_eq_false_2 by done.
  rewrite bool_decide_eq_false_2 by done. cbn [orb].
  unfold tryCatchR, mbind, R_bind. cbn [numToString].
  rewrite updateBalanceReturning_run.
  destruct (fault (OpUpdateAccount userId)); [reflexivity|].
  destruct (accounts (world s) !! userId); reflexivity.
Qed.

Lemma putAdminBalance_run (userId : string) (b : Q) (s : Store) :
  putAdminBalance fault (Some ADMIN_EMAIL) userId (Some b) s =
    if fault (OpUpdateAccount userId)
    then (addNote (NoteAdminBalanceFailed userId) s, Done AdminBalanceFailed)
    else
      match accounts (world s) !! userId with
      | None =>
          (written userId (Num.toFixed 8 b) s, Done AdminBalanceUserNotFound)
      | Some a =>
          (written userId (Num.toFixed 8 b) s,
           Done (AdminBalanceUpdated userId (email a)
                   (Num.toFixed 2 (Num.toFixed 8 b))))
      end.
Proof.
  unfold putAdminBalance, isAdmin.
  rewrite bool_decide_eq_true_2 by done.
  rewrite bool_decide_eq_false_2 by done.
  unfold tryCatchR, mbind, R_bind. cbn [numToString].
  rewrite updateBalanceReturning_run.
  destruct (fault (OpUpdateAccount userId)); [reflexivity|].
  destruct (accounts (world s) !! userId); reflexivity.
Qed.

Lemma alter_absent {A} (f : A -> A) (k : string) (m : gmap string A) :
  m !! k = None -> alter f k m = m.
Proof.
  intros Hk. apply map_eq. intros k'. rewrite lookup_alter.
  case_decide; [subst; by rewrite Hk|reflexivity].
Qed.

(** X11. Only the admin route checks who is asking. A request to
    [PUT /api/admin/users/:userId/balance] whose [x-user-email] header is
    not the admin address is answered "Access Denied" (403) and changes
    nothing. A request to [POST /api/update-balance] for the same user
    and balance, from anyone, leaves the tables as the admin's request
    would, and is answered as the admin's request is up to the wording:
    where the admin is answered 200 with the id, the email and the
    balance of the account, it is answered 200 with that balance; where
    the admin is answered "User not found." (404), so is it; and where
    the admin is answered "Failed to update user balance." (500), it is
    answered "Failed to update balance" (500). *)
Theorem public_route_sets_balance_without_admin_check
    (userEmail : option string) (userId : string) (b : Q) (s : Store) :
  userId <> "" ->
  userEmail <> Some ADMIN_EMAIL ->
  putAdminBalance fault userEmail userId (Some b) s
  = (s, Done AdminBalanceForbidden)
  /\ world (postUpdateBalance fault (BalanceBody.mk userId (Some b)) s).1
     = world (putAdminBalance fault (Some ADMIN_EMAIL) userId (Some b) s).1
  /\ match (putAdminBalance fault (Some ADMIN_EMAIL) userId (Some b) s).2,
           (postUpdateBalance fault (BalanceBody.mk userId (Some b)) s).2
     with
     | Done (AdminBalanceUpdated id _ balance), Done (BalanceUpdated balance') =>
         id = userId /\ balance' = balance
     | Done AdminBalanceUserNotFound, Done BalanceUserNotFound => True
     | Done AdminBalanceFailed, Done BalanceFailed => True
     | _, _ => False
     end.
Proof.
  intros Hid Hmail. split; [|split].
  - unfold putAdminBalance, isAdmin.
    rewrite bool_decide_eq_false_2 by done. reflexivity.
  - rewrite postUpdateBalance_run, putAdminBalance_run by done.
    destruct (fault (OpUpdateAccount userId)); [done|].
    destruct (accounts (world s) !! userId); done.
  - rewrite postUpdateBalance_run, putAdminBalance_run by done.
    destruct (fault (OpUpdateAccount userId)); [done|].
    destruct (accounts (world s) !! userId); done.
Qed.

(** X12. [POST /api/update-balance] puts no bound on the balance: for an
    existing account and any number, negative ones included, the handler
    writes the number printed with eight fractional digits; the balance
    column keeps that text with two fractional digits, and the answer
    carries the balance as the column keeps it. Nothing else changes: the
    name and the email of the account, the other accounts and the trades
    are as they were. For a user id without account the answer is
    "User not found." (404) and the tables are as they were. *)
Theorem update_balance_writes_any_number (userId : string) (b : Q)
    (s : Store) :
  userId <> "" ->
  fault (OpUpdateAccount userId) = false ->
  let res := postUpdateBalance fault (BalanceBody.mk userId (Some b)) s in
  trades (world res.1) = trades (world s)
  /\ (forall k, k <> userId ->
        accounts (world res.1) !! k = accounts (world s) !! k)
  /\ match accounts (world s) !! userId with
     | Some a =>
         res.2 = Done (BalanceUpdated (Num.toFixed 2 (Num.toFixed 8 b)))
         /\ (exists a',
               accounts (world res.1) !! userId = Some a'
               /\ username a' = username a /\ email a' = email a
               /\ balance a' = Num.toFixed 8 b
               /\ balance (Column.account a')
                  = Num.toFixed 2 (Num.toFixed 8 b))
     | None =>
         res.2 = Done BalanceUserNotFound
         /\ accounts (world res.1) = accounts (world s)
     end.
Proof.
  intros Hid Hf. cbn zeta. rewrite postUpdateBalance_run, Hf by done.
  destruct (accounts (world s) !! userId) as [a|] eqn:Ha;
    cbn [fst snd world setWorld setAccounts accounts trades].
  - split; [reflexivity|]. split; [intros k Hk; by rewrite lookup_alter_ne|].
    split; [reflexivity|]. eexists. rewrite lookup_alter_eq, Ha.
    split; [reflexivity|]. repeat split.
  - split; [reflexivity|]. split; [intros k Hk; by rewrite lookup_alter_ne|].
    split; [reflexivity|]. by apply alter_absent.
Qed.
End BalanceRoutes.

(** *** generateUniqueAccountUid *)

Section AccountUid.
Variable faultS : Stmt -> bool.
Variable random : nat -> Q.

Local Open Scope Q_scope.

Lemma uidCandidate_range (r : Q) :
  0 <= r -> r < 1 ->
  (10000000 <= uidCandidate r <= 99999999)%Z.
Proof.
  intros H0 H1. unfold uidCandidate.
  pose proof (Qfloor_le (10000000 + r * 90000000)) as Hle.
  pose proof (Qlt_floor (10000000 + r * 90000000)) as Hlt.
  split.
  - assert (Qfloor (inject_Z 10000000) <= Qfloor (10000000 + r * 90000000))%Z
      as H; [|by rewrite Qfloor_Z in H].
    apply Qfloor_resp_le. change (inject_Z 10000000) with 10000000. lra.
  - assert (inject_Z (Qfloor (10000000 + r * 90000000)) < inject_Z 100000000)
      as H; [|rewrite <- Zlt_Qlt in H; lia].
    change (inject_Z 100000000) with 100000000. lra.
Qed.

Lemma afterDraws_0 (s : Store) : afterDraws 0 s = s.
Proof. destruct s as [[] ? ? ? ? ?]; reflexivity. Qed.

Lemma afterDraws_S (n : nat) (s : Store) :
  afterDraws n (afterDraws 1 s) = afterDraws (S n) s.
Proof.
  unfold afterDraws, setWorld. cbn. repeat f_equal. lia.
Qed.

(** One turn of the loop. *)
Lemma uidLoop_S (left : nat) (s : Store) :
  uidLoop faultS random (S left) s =
    let uid := uidCandidate (random (cursor (world s))) in
    if faultS (StmtSelectUid uid)
    then (addNote NoteUidCheckError (afterDraws 1 s), Raised UidDatabaseError)
    else if bool_decide (uid ∈ uids s)
    then uidLoop faultS random left (afterDraws 1 s)
    else (afterDraws 1 s, Done uid).
Proof.
  cbn [uidLoop]. unfold mbind, R_bind, liftCore, mathRandom, tryCatchR,
    uidExists, statementS, raise, note.
  cbn zeta. fold (afterDraws 1 s).
  destruct (faultS (StmtSelectUid _)); [reflexivity|].
  cbn [afterDraws setWorld uids].
  destruct (bool_decide _); reflexivity.
Qed.

Lemma uidLoop_done (left : nat) (s s' : Store) (uid : Z) :
  uidLoop faultS random left s = (s', Done uid) ->
  (uid ∉ uids s)
  /\ uid ∈ candidatesFrom random (cursor (world s)) left
  /\ exists n, (1 <= n <= left)%nat /\ s' = afterDraws n s.
Proof.
  revert s. induction left as [|left IH]; intros s; [discriminate|].
  rewrite uidLoop_S. cbn zeta.
  destruct (faultS (StmtSelectUid _)); [discriminate|].
  case_bool_decide as Hin.
  - intros Hrun. apply IH in Hrun as (Hfresh & Hcand & n & Hn & ->).
    split; [exact Hfresh|]. split; [cbn; right; exact Hcand|].
    exists (S n). split; [lia|apply afterDraws_S].
  - intros [= <- <-]. split; [exact Hin|]. split; [cbn; left|].
    exists 1%nat. split; [lia|reflexivity].
Qed.

Lemma candidatesFrom_range (c n : nat) (uid : Z) :
  (forall i, 0 <= random i /\ random i < 1) ->
  uid ∈ candidatesFrom random c n -> (10000000 <= uid <= 99999999)%Z.
Proof.
  intros Hr. revert c. induction n as [|n IH]; intros c; cbn.
  - intros H. by apply elem_of_nil in H.
  - intros [->|H]%elem_of_cons; [|by eapply IH].
    apply uidCandidate_range; apply Hr.
Qed.

(** X13. The uid [generateUniqueAccountUid] returns has eight digits, so
    that it fits the [uid] column, and is the uid of no account: when the
    draws lie in [0, 1), a returned uid lies between 10000000 and
    99999999, is one of the candidates drawn, and was not in the [uid]
    column when the function was called. The function took between one
    and ten draws and changed nothing else. *)
Theorem uid_has_eight_digits_and_is_unused (s s' : Store) (uid : Z) :
  (forall i, 0 <= random i /\ random i < 1) ->
  generateUniqueAccountUid faultS random s = (s', Done uid) ->
  (10000000 <= uid <= 99999999)%Z
  /\ (uid ∉ uids s)
  /\ uid ∈ uidCandidates random s
  /\ exists n, (1 <= n <= 10)%nat /\ s' = afterDraws n s.
Proof.
  intros Hr Hrun. apply uidLoop_done in Hrun as (Hfresh & Hcand & Hn).
  split; [by eapply candidatesFrom_range|]. done.
Qed.

Lemma uidLoop_find (left : nat) (s : Store) :
  (forall st, faultS st = false) ->
  uidLoop faultS random left s =
    match list_find (fun uid => uid ∉ uids s)
            (candidatesFrom random (cursor (world s)) left) with
    | Some (i, uid) => (afterDraws (S i) s, Done uid)
    | None => (afterDraws left s, Raised UidExhausted)
    end.
Proof.
  intros Hf. revert s. induction left as [|left IH]; intros s.
  - cbn. by rewrite afterDraws_0.
  - rewrite uidLoop_S. cbn zeta. rewrite Hf. cbn [candidatesFrom list_find].
    case_bool_decide as Hin.
    + rewrite decide_False by (intros H; by apply H).
      rewrite IH. cbn [afterDraws setWorld world uids cursor].
      change (1 + cursor (world s))%nat with (S (cursor (world s))).
      destruct (list_find _ _) as [[i uid]|]; cbn [fmap option_fmap option_map prod_map fst snd].
      all: by rewrite afterDraws_S.
    + rewrite decide_True by done. reflexivity.
Qed.

(** X14. When the uniqueness check does not fail,
    [generateUniqueAccountUid] returns the first of its ten candidates
    that no account has, having drawn no further candidate; it throws
    "Failed to generate a unique Account UID after multiple attempts."
    exactly when all ten candidates are taken. *)
Theorem uid_is_first_unused_candidate (s : Store) :
  (forall st, faultS st = false) ->
  generateUniqueAccountUid faultS random s =
    match list_find (fun uid => uid ∉ uids s) (uidCandidates random s) with
    | Some (i, uid) => (afterDraws (S i) s, Done uid)
    | None => (afterDraws 10 s, Raised UidExhausted)
    end.
Proof. intros Hf. apply uidLoop_find, Hf. Qed.
End AccountUid.

(** *** POST /api/invest *)

Section Invest.
Variable fault : DbOp -> bool.
Variable faultS : Stmt -> bool.
Variable uuidv4 : nat -> string.

Local Open Scope Q_scope.

Local Abbreviation invest := (postInvest fault faultS uuidv4).

(** The handler, unfolded along its checks, for a body with its three
    fields. *)
Lemma postInvest_run (nowMs : Z) (userId strategyId : string) (amount : Q)
    (s : Store) :
  userId <> "" -> strategyId <> "" ->
  invest nowMs (InvestBody.mk userId (Some amount) strategyId) s =
    if fault (OpSelectAccount userId)
    then (addNote NoteInvestError s, Done InvestFailed)
    else
      match accounts (world s) !! userId with
      | None => (s, Done InvestUserNotFound)
      | Some a =>
          if Qlt_le_dec (balance a) amount
          then (s, Done InvestInsufficient)
          else if fault (OpUpdateAccount userId)
          then (addNote NoteInvestError s, Done InvestFailed)
          else
            let s1 := debited userId (Num.toFixed 8 (balance a - amount)) s in
            if faultS (StmtSelectStrategy strategyId)
            then (addNote NoteInvestError s1, Done InvestFailed)
            else
              match strategies s !! strategyId with
              | None => (s1, Done InvestStrategyNotFound)
              | Some strategy =>
                  let id := uuidv4 (uuidCursor s) in
                  let s2 := afterUuid s1 in
                  if faultS (StmtInsertInvestment id)
                  then (addNote NoteInvestError s2, Done InvestFailed)
                  else
                    match investments s !! id with
                    | Some _ => (addNote NoteInvestError s2, Done InvestFailed)
                    | None =>
                        (setInvestments
                           (<[id := investmentRow nowMs userId strategyId
                                      amount strategy]> (investments s))
                           s2,
                         Done (InvestSimulated id))
                    end
              end
      end.
Proof.
  intros Hu Hs. unfold postInvest.
  cbn [InvestBody.amount InvestBody.userId InvestBody.strategyId].
  rewrite bool_decide_eq_false_2 by done.
  rewrite bool_decide_eq_false_2 by done. cbn [orb].
  unfold tryCatchR, mbind, R_bind, liftCore, selectAccount,
    updateAccountBalance, statement, throw, findStrategy, insertInvestment,
    statementS, raise, newUuid, note, mret, R_ret. cbn [numToString].
  destruct (fault (OpSelectAccount userId)); [by rewrite setWorld_world|].
  rewrite setWorld_world.
  destruct (accounts (world s) !! userId) as [a|]; [|reflexivity].
  unfold Num.parseFloat.
  destruct (Qlt_le_dec (balance a) amount); [reflexivity|].
  destruct (fault (OpUpdateAccount userId)); [by rewrite setWorld_world|].
  unfold debited, afterUuid, investmentRow. cbn zeta.
  destruct (faultS (StmtSelectStrategy strategyId)); [reflexivity|].
  cbn [world uids strategies investments uuidCursor journal setWorld
       setAccounts].
  destruct (strategies s !! strategyId) as [strategy|]; [|reflexivity].
  cbn [world uids strategies investments uuidCursor journal setWorld
       setAccounts].
  destruct (faultS (StmtInsertInvestment _)); [reflexivity|].
  cbn [world uids strategies investments uuidCursor journal setWorld
       setAccounts].
  destruct (investments s !! uuidv4 (uuidCursor s)); reflexivity.
Qed.


(** X16. The account is charged before the strategy is looked up and
    before the investment is recorded, and nothing undoes the charge:
    when the account exists, its balance covers the amount and the two
    statements on [accounts] do not fail, the balance written is the
    balance less the amount, printed with eight fractional digits,
    whatever the answer is. In particular a request for a strategy that
    does not exist is answered "Strategy not found." (404) with the
    account charged, and an answer other than success leaves
    [investments] as it was. The sign of the amount is not checked: an
    amount that is not positive does not lower a balance of at most
    eight fractional digits. *)
Theorem invest_charges_before_it_checks_the_strategy (nowMs : Z)
    (userId strategyId : string) (amount : Q) (s : Store) (a : Account) :
  userId <> "" -> strategyId <> "" ->
  fault (OpSelectAccount userId) = false ->
  fault (OpUpdateAccount userId) = false ->
  accounts (world s) !! userId = Some a ->
  amount <= balance a ->
  let res := invest nowMs (InvestBody.mk userId (Some amount) strategyId) s in
  accounts (world res.1) !! userId
  = Some (mkAccount (username a) (Num.toFixed 8 (balance a - amount))
            (email a))
  /\ (faultS (StmtSelectStrategy strategyId) = false ->
      strategies s !! strategyId = None ->
      res.2 = Done InvestStrategyNotFound)
  /\ ((forall id, res.2 <> Done (InvestSimulated id)) ->
      investments res.1 = investments s)
  /\ (amount <= 0 -> Num.onGrid8 (balance a) ->
      balance a <= Num.toFixed 8 (balance a - amount)).
Proof.
  intros Hu Hs Hf1 Hf2 Ha Hle. cbn zeta.
  rewrite postInvest_run, Hf1, Ha, Hf2 by done.
  destruct (Qlt_le_dec _ _) as [Hlt|_]; [lra|]. cbn zeta.
  assert (forall s', world s' = world (debited userId
                        (Num.toFixed 8 (balance a - amount)) s) ->
            accounts (world s') !! userId
            = Some (mkAccount (username a)
                      (Num.toFixed 8 (balance a - amount)) (email a)))
    as Hacc.
  { intros s' ->. cbn [debited setWorld world setAccounts accounts].
    rewrite lookup_alter_eq, Ha. reflexivity. }
  split; [|split; [|split]].
  - destruct (faultS (StmtSelectStrategy _)); [by apply Hacc|].
    destruct (strategies s !! strategyId); [|by apply Hacc].
    destruct (faultS (StmtInsertInvestment _)); [by apply Hacc|].
    destruct (investments s !! _); by apply Hacc.
  - intros -> ->. reflexivity.
  - destruct (faultS (StmtSelectStrategy _)); [done|].
    destruct (strategies s !! strategyId); [|done].
    destruct (faultS (StmtInsertInvestment _)); [done|].
    destruct (investments s !! _); [done|].
    intros Hno. by contradiction (Hno (uuidv4 (uuidCursor s))).
  - intros Hneg Hg.
    assert (balance a - amount == balance a + - amount) as Heq by ring.
    rewrite (toFixed_Qeq 8 _ _ Heq).
    apply toFixed_credit; [exact Hg|lra].
Qed.

Lemma postInvest_simulated (nowMs : Z) (userId strategyId : string)
    (amount : Q) (s s' : Store) (id : string) :
  userId <> "" -> strategyId <> "" ->
  invest nowMs (InvestBody.mk userId (Some amount) strategyId) s
  = (s', Done (InvestSimulated id)) ->
  id = uuidv4 (uuidCursor s)
  /\ investments s !! id = None
  /\ exists a strategy,
       accounts (world s) !! userId = Some a
       /\ strategies s !! strategyId = Some strategy
       /\ s' = setInvestments
                 (<[id := investmentRow nowMs userId strategyId amount
                            strategy]> (investments s))
                 (afterUuid
                    (debited userId (Num.toFixed 8 (balance a - amount)) s)).
Proof.
  intros Hu Hs. rewrite postInvest_run by done.
  destruct (fault (OpSelectAccount _)); [done|].
  destruct (accounts (world s) !! userId) as [a|]; [|done].
  destruct (Qlt_le_dec _ _); [done|].
  destruct (fault (OpUpdateAccount _)); [done|]. cbn zeta.
  destruct (faultS (StmtSelectStrategy _)); [done|].
  destruct (strategies s !! strategyId) as [strategy|]; [|done].
  destruct (faultS (StmtInsertInvestment _)); [done|].
  destruct (investments s !! uuidv4 (uuidCursor s)) eqn:Hnone; [done|].
  intros [= <- <-]. split; [reflexivity|]. split; [exact Hnone|].
  exists a, strategy. done.
Qed.

(** X17. An investment that is answered as a success is recorded under
    the id [uuidv4()] returned, which no investment had: the row holds
    the user and the strategy of the body, the amount printed with eight
    fractional digits as both its amount and its current value, the
    duration of the strategy, the status [active] and the time of the
    request; the other investments are as they were. *)
Theorem invest_success_records_the_investment (nowMs : Z)
    (userId strategyId : string) (amount : Q) (s s' : Store) (id : string) :
  userId <> "" -> strategyId <> "" ->
  invest nowMs (InvestBody.mk userId (Some amount) strategyId) s
  = (s', Done (InvestSimulated id)) ->
  id = uuidv4 (uuidCursor s)
  /\ investments s !! id = None
  /\ (exists strategy,
        strategies s !! strategyId = Some strategy
        /\ investments s' !! id
           = Some (Investment.mk userId strategyId (Num.toFixed 8 amount)
                     (Num.toFixed 8 amount) nowMs
                     (Strategy.duration_days strategy) Investment.active
                     nowMs nowMs))
  /\ (forall k, k <> id -> investments s' !! k = investments s !! k).
Proof.
  intros Hu Hs Hrun.
  apply postInvest_simulated in Hrun
    as (Hid & Hnone & a & strategy & _ & Hstrategy & ->); [|done..].
  split; [exact Hid|]. split; [exact Hnone|].
  cbn [setInvestments investments]. split.
  - exists strategy. split; [exact Hstrategy|]. by rewrite lookup_insert_eq.
  - intros k Hk. by rewrite lookup_insert_ne.
Qed.

(** X18. An investment that was answered as a success is found by the
    listing of the investments of its user: when the query does not
    fail, [GET /api/user-investments] for that user answers a list that
    holds an entry with the id returned, the amount printed with eight
    fractional digits as its amount and its current value, the status
    [active], the time of the request, and the name and the duration of
    the strategy ("Unknown Strategy" for a strategy whose name is
    empty). Every entry of the list is an investment of that user, and
    the listing changes nothing. *)
Theorem investment_is_found_by_the_listing (nowMs : Z)
    (userId strategyId : string) (amount : Q) (s s' : Store) (id : string) :
  userId <> "" -> strategyId <> "" ->
  invest nowMs (InvestBody.mk userId (Some amount) strategyId) s
  = (s', Done (InvestSimulated id)) ->
  faultS (StmtSelectUserInvestments userId) = false ->
  exists l strategy,
    getUserInvestments faultS (Some userId) s' = (s', Done (InvestmentsList l))
    /\ strategies s !! strategyId = Some strategy
    /\ Forall (fun v => InvestmentView.userId v = userId) l
    /\ exists v,
         v ∈ l
         /\ InvestmentView.id v = id
         /\ InvestmentView.strategyId v = strategyId
         /\ InvestmentView.investmentAmount v = Num.toFixed 8 amount
         /\ InvestmentView.currentValue v = Num.toFixed 8 amount
         /\ InvestmentView.status v = Investment.active
         /\ InvestmentView.startDate v = nowMs
         /\ InvestmentView.durationDays v = Strategy.duration_days strategy
         /\ InvestmentView.strategyName v
            = (if decide (Strategy.name strategy = "")
               then "Unknown Strategy" else Strategy.name strategy).
Proof.
  intros Hu Hs Hrun Hf.
  apply postInvest_simulated in Hrun
    as (Hid & Hnone & a & strategy & _ & Hstrategy & ->); [|done..].
  unfold getUserInvestments. rewrite bool_decide_eq_false_2 by done.
  unfold tryCatchR, mbind, R_bind, selectUserInvestments, statementS.
  rewrite Hf. cbn [setInvestments investments strategies afterUuid debited
    setWorld].
  eexists _, strategy. split; [reflexivity|]. split; [exact Hstrategy|].
  split.
  - apply Forall_fmap, Forall_fmap, Forall_forall.
    intros x [Hx _]%list_elem_of_filter. exact Hx.
  - eexists. split.
    + apply list_elem_of_fmap. eexists. split; [reflexivity|].
      apply list_elem_of_fmap. eexists. split; [reflexivity|].
      apply list_elem_of_filter. split; [|apply elem_of_map_to_list,
        lookup_insert_eq]. reflexivity.
    + cbn. rewrite Hstrategy. cbn. repeat split; reflexivity.
Qed.
End Invest.

(** *** seedStrategies *)

Section Seed.
Variable faultS : Stmt -> bool.

Lemma defaultStrategies_fresh (s : Store) :
  strategies s = ∅ ->
  NoDup defaultStrategies.*1
  /\ Forall (fun k => strategies s !! k = None) defaultStrategies.*1.
Proof.
  intros ->. split.
  - apply (bool_decide_unpack _). vm_compute. reflexivity.
  - apply Forall_forall. intros k _. apply lookup_empty.
Qed.

(** X19. [seedStrategies] never throws and never touches a table that
    has rows: whatever fails, it returns; it changes nothing but
    [strategies] and the console; a table with at least one row is left
    as it was; an empty table is left empty or given exactly the three
    default strategies, and it is given them when its two statements do
    not fail. *)
Theorem seedStrategies_fills_only_an_empty_table (s : Store) :
  let res := seedStrategies faultS s in
  res.2 = Done tt
  /\ world res.1 = world s /\ uids res.1 = uids s
  /\ investments res.1 = investments s
  /\ (strategies s <> ∅ -> strategies res.1 = strategies s)
  /\ (strategies s = ∅ ->
      strategies res.1 = ∅
      \/ strategies res.1 = list_to_map defaultStrategies)
  /\ (strategies s = ∅ ->
      faultS StmtSelectAnyStrategy = false ->
      faultS StmtInsertStrategies = false ->
      strategies res.1 = list_to_map defaultStrategies).
Proof.
  cbn zeta.
  unfold seedStrategies, tryCatchR, mbind, R_bind, note, anyStrategy,
    insertStrategies, statementS, raise.
  cbn [addNote world uids strategies investments].
  destruct (faultS StmtSelectAnyStrategy).
  { cbn. repeat split; auto. intros _ [=]. }
  case_bool_decide as Hne.
  { cbn. repeat split; auto. intros He. contradiction. }
  cbn [addNote world uids strategies investments].
  destruct (faultS StmtInsertStrategies).
  { cbn. repeat split; auto. intros _ _ [=]. }
  assert (strategies s = ∅) as Hempty.
  { destruct (decide (strategies s = ∅)); [done|contradiction]. }
  rewrite bool_decide_eq_true_2 by (by apply defaultStrategies_fresh).
  cbn [addNote setStrategies world uids strategies investments fst snd].
  rewrite Hempty, (right_id_L ∅ (∪)).
  repeat split; auto. intros H. contradiction.
Qed.
End Seed.

(** *** POST /api/transactions *)

Section SaveTransactions.
Variable faultS : Stmt -> bool.
Variable is_uuid : string -> bool.
Variable is_email : string -> bool.

Local Abbreviation save := (postTransactions faultS is_uuid is_email).
Local Abbreviation accepts := (schemaAccepts is_uuid is_email).

Lemma parseAll_run (userId : string) (l : list InsertTrade.t) (s : Store) :
  parseAll is_uuid is_email userId l s =
    if forallb (fun t => accepts (withUserId userId t)) l
    then (s, Done (validated userId <$> l))
    else (s, Raised (CoreError ZodError)).
Proof.
  induction l as [|t l IH]; [reflexivity|].
  cbn [parseAll forallb]. unfold mbind, R_bind, liftCore, parse.
  destruct (accepts (withUserId userId t)); cbn [andb].
  - unfold mret at 1, M_ret. rewrite setWorld_world, IH.
    destruct (forallb _ l); reflexivity.
  - unfold throw. by rewrite setWorld_world.
Qed.

Lemma savedRows_ids (nowMs : Z) (userId : string) (l : list InsertTrade.t) :
  (savedRows nowMs userId l).*1 = InsertTrade.id <$> l.
Proof.
  unfold savedRows. rewrite <- !list_fmap_compose.
  apply list_fmap_ext. intros i t _. reflexivity.
Qed.

(** The handler, unfolded along its checks, for a body with its two
    fields. *)
Lemma postTransactions_run (nowMs : Z) (userId : string)
    (l : list InsertTrade.t) (s : Store) :
  userId <> "" ->
  save nowMs (TransactionsBody.mk userId (Some l)) s =
    if forallb (fun t => accepts (withUserId userId t)) l
    then
      let rows := savedRows nowMs userId l in
      if faultS (StmtInsertTrades rows.*1)
      then (addNote NoteTransactionsFailed s, Done SaveFailed)
      else if bool_decide
                (rows <> []
                 /\ NoDup rows.*1
                 /\ Forall (fun k => trades (world s) !! k = None) rows.*1)
      then (setWorld
              (setTrades (list_to_map rows ∪ trades (world s)) (world s)) s,
            Done TransactionsSaved)
      else (addNote NoteTransactionsFailed s, Done SaveFailed)
    else (addNote NoteTransactionsFailed s, Done SaveValidationFailed).
Proof.
  intros Hu. unfold postTransactions.
  cbn [TransactionsBody.transactions TransactionsBody.userId].
  rewrite bool_decide_eq_false_2 by done.
  unfold tryCatchR, mbind, R_bind. rewrite parseAll_run.
  destruct (forallb _ l); [|reflexivity]. cbn zeta.
  fold (savedRows nowMs userId l).
  unfold insertTrades, statementS, raise.
  destruct (faultS (StmtInsertTrades _)); [reflexivity|].
  destruct (bool_decide _); reflexivity.
Qed.

(** X20. Saving transactions in bulk never checks or charges a balance,
    and stores all the rows or none: whatever the body is and whatever
    fails, the handler returns an answer, [accounts] is as it was, and
    unless the answer is "Transactions saved successfully." [trades] is
    as it was too. *)
Theorem bulk_save_charges_nothing_and_is_all_or_nothing (nowMs : Z)
    (body : TransactionsBody.t) (s : Store) :
  let res := save nowMs body s in
  (exists r, res.2 = Done r)
  /\ accounts (world res.1) = accounts (world s)
  /\ (res.2 <> Done TransactionsSaved ->
      trades (world res.1) = trades (world s)).
Proof.
  cbn zeta. destruct body as [userId [l|]]; [|cbn; eauto].
  destruct (decide (userId = "")) as [->|Hu]; [cbn; eauto|].
  rewrite postTransactions_run by done.
  destruct (forallb _ l); [|cbn; eauto]. cbn zeta.
  destruct (faultS _); [cbn; eauto|].
  destruct (bool_decide _); cbn; [|eauto].
  split; [eauto|]. split; [reflexivity|]. intros H. by contradiction H.
Qed.

(** X21. When the answer is "Transactions saved successfully.", every
    element of the body has been stored under its own id, which no stored
    trade had and no other element of the body has, as the row the
    handler builds for it: the row belongs to the user of the body,
    whatever user the element names, and is [pending] unless the element
    gives a status. The trades stored before are all kept. *)
Theorem bulk_save_stores_every_element (nowMs : Z) (userId : string)
    (l : list InsertTrade.t) (s s' : Store) :
  userId <> "" ->
  save nowMs (TransactionsBody.mk userId (Some l)) s
  = (s', Done TransactionsSaved) ->
  NoDup (InsertTrade.id <$> l)
  /\ (forall t, t ∈ l ->
        trades (world s) !! InsertTrade.id t = None
        /\ exists row,
             trades (world s') !! InsertTrade.id t = Some row
             /\ row = (transactionToInsert nowMs (validated userId t)).2
             /\ user_id row = userId
             /\ status row = default pending (InsertTrade.status t))
  /\ (forall k, k ∉ (InsertTrade.id <$> l) ->
        trades (world s') !! k = trades (world s) !! k).
Proof.
  intros Hu. rewrite postTransactions_run by done.
  destruct (forallb _ l); [|done]. cbn zeta.
  destruct (faultS _); [done|].
  case_bool_decide as Hok; [|done]. intros [= <-].
  destruct Hok as (_ & Hnodup & Hfresh).
  rewrite savedRows_ids in Hnodup, Hfresh.
  cbn [setWorld world setTrades trades].
  split; [exact Hnodup|]. split.
  - intros t Ht. split.
    + rewrite Forall_forall in Hfresh. apply Hfresh.
      apply list_elem_of_fmap. eauto.
    + eexists. split; [|split; [reflexivity|]].
      * apply lookup_union_Some_l.
        apply elem_of_list_to_map_1; [by rewrite savedRows_ids|].
        unfold savedRows. rewrite <- list_fmap_compose.
        apply list_elem_of_fmap. exists t. split; [reflexivity|exact Ht].
      * split; [reflexivity|]. cbn. by destruct (InsertTrade.status t).
  - intros k Hk. rewrite lookup_union_r; [reflexivity|].
    apply not_elem_of_list_to_map_1. by rewrite savedRows_ids.
Qed.
End SaveTransactions.

(** *** GET /api/transactions *)

Section ListTransactions.
Variable faultS : Stmt -> bool.
Variable trim : string -> string.

Local Abbreviation listing := (getTransactions faultS trim).

Local Instance newerFirst_total : Total newerFirst.
Proof. intros x y. unfold newerFirst. lia. Qed.

Local Instance newerFirst_trans : Transitive newerFirst.
Proof. intros x y z. unfold newerFirst. lia. Qed.

(** X22. The listing of the trades of an email address reads and never
    writes. Without an email, or with an empty one, the answer is
    "Email is a required query parameter." (400). Otherwise a list that
    is returned holds exactly the stored trades whose email is the
    trimmed address, each once, the newest first; the store is as it
    was. *)
Theorem transactions_are_listed_newest_first (email : option string)
    (s s' : Store) (r : TransactionsResponse) :
  listing email s = (s', Done r) ->
  match email with
  | None => r = TransactionsEmailRequired /\ s' = s
  | Some e =>
      if decide (e = "") then r = TransactionsEmailRequired /\ s' = s
      else
        world s' = world s
        /\ forall l, r = TransactionsList l ->
             s' = s
             /\ exists rows,
                  l = parsedTrade <$> rows
                  /\ StronglySorted newerFirst rows
                  /\ NoDup rows
                  /\ forall k t,
                       (k, t) ∈ rows <->
                       trades (world s) !! k = Some t
                       /\ trade_email t = Some (trim e)
  end.
Proof.
  destruct email as [e|]; [|by intros [= <- <-]].
  unfold getTransactions. case_bool_decide as He.
  { rewrite decide_True by done. by intros [= <- <-]. }
  rewrite decide_False by done.
  unfold tryCatchR, mbind, R_bind, selectTradesByEmail, statementS, raise,
    note.
  destruct (faultS _).
  { intros [= <- <-]. split; [reflexivity|]. intros l [=]. }
  intros [= <- <-]. split; [reflexivity|]. intros l [= <-].
  split; [reflexivity|].
  eexists. split; [reflexivity|].
  split; [apply StronglySorted_merge_sort; apply _|].
  split.
  - rewrite merge_sort_Permutation. apply NoDup_filter, NoDup_map_to_list.
  - intros k t. rewrite merge_sort_Permutation, list_elem_of_filter.
    unfold hasEmail. cbn [snd]. rewrite elem_of_map_to_list. tauto.
Qed.
End ListTransactions.

(** *** The sweep run every minute *)

Section IntervalSweep.
Variable fault : DbOp -> bool.
Variable random : nat -> Q.

Local Abbreviation direct := (resolvePendingTradesDirect fault random).
Local Abbreviation exported := (resolvePendingTrades fault random).

(** The store once the loop has printed its own line for [trade]. *)
Local Abbreviation noted trade s := (addNote (NoteProcessing trade.1) s).

Lemma settleTradeDirect_ok (nowMs : Z) (trade : string * Trade) (s : Store) :
  delivery_time trade.2 <= nowMs ->
  fault (OpSelectAccount (user_id trade.2)) = false ->
  fault (OpUpdateAccount (user_id trade.2)) = false ->
  fault (OpUpdateTrade trade.1) = false ->
  settleTradeDirect fault random nowMs trade s =
    (setWorld (settleWorld random trade (world s)) (noted trade s), Done tt).
Proof.
  intros Hdue F1 F2 F3. unfold settleTradeDirect.
  destruct (decide _); [|lia].
  unfold mbind, R_bind, liftCore, note. cbn [log world setWorld addNote].
  rewrite simulateOutcome_run. cbn zeta. cbn [world setWorld].
  unfold selectAccount, updateAccountBalance, updateTrade, statement.
  rewrite F1, F2, F3. cbn [accounts world setWorld addLog].
  destruct (accounts (world s) !! user_id trade.2) as [a|] eqn:Ha.
  - cbn. unfold settleWorld. rewrite Ha.
    rewrite (alter_credit _ _ a) by done. reflexivity.
  - cbn. unfold settleWorld. rewrite Ha.
    rewrite (alter_id' (creditAccount _)) by done. reflexivity.
Qed.

Lemma forEachR_ok (nowMs : Z) (l : list (string * Trade)) (s : Store) :
  (forall op, fault op = false) ->
  Forall (fun x => delivery_time x.2 <= nowMs) l ->
  exists s',
    forEachR l (settleTradeDirect fault random nowMs) s = (s', Done tt)
    /\ world s' = sweepWorld random l (world s)
    /\ journal s' = journal s ++ (NoteProcessing <$> l.*1)
    /\ uids s' = uids s /\ strategies s' = strategies s
    /\ investments s' = investments s /\ uuidCursor s' = uuidCursor s.
Proof.
  intros Hf Hl. revert s.
  induction Hl as [|x l Hx Hl IH]; intros s.
  - exists s. cbn. by rewrite app_nil_r.
  - cbn [forEachR]. unfold mbind, R_bind.
    rewrite settleTradeDirect_ok by auto.
    destruct (IH (setWorld (settleWorld random x (world s)) (noted x s)))
      as (s' & -> & Hw & Hj & Hrest).
    exists s'. split; [reflexivity|]. split; [exact Hw|].
    split; [|exact Hrest].
    rewrite Hj. cbn [setWorld addNote journal fmap list_fmap].
    rewrite <- app_assoc. reflexivity.
Qed.

(** The sweep, unfolded up to its loop. *)
Lemma resolvePendingTradesDirect_run (nowMs : Z) (s : Store) :
  direct nowMs s =
    if fault OpSelectDueTrades
    then (setWorld
            (addLog LogFinished
               (addLog ErrorResolving (addLog LogStarted (world s)))) s,
          Done tt)
    else
      let due := dueTrades nowMs (world s) in
      match forEachR due (settleTradeDirect fault random nowMs)
              (setWorld (started (length due) (world s)) s) with
      | (s', Done _) => (setWorld (addLog LogFinished (world s')) s', Done tt)
      | (s', Raised _) =>
          (setWorld (addLog LogFinished (addLog ErrorResolving (world s'))) s',
           Done tt)
      end.
Proof.
  unfold resolvePendingTradesDirect, tryFinallyR, tryCatchR, mbind, R_bind,
    liftCore, selectDueTrades, statement, throw.
  cbn [log world setWorld].
  destruct (fault OpSelectDueTrades); [reflexivity|]. cbn zeta.
  match goal with
  | |- context [forEachR ?l ?b ?s0] =>
      change (forEachR (dueTrades nowMs (world s))
                (settleTradeDirect fault random nowMs)
                (setWorld (started (length (dueTrades nowMs (world s)))
                             (world s)) s))
        with (forEachR l b s0);
      destruct (forEachR l b s0) as [s' [[]|e]]
  end; reflexivity.
Qed.

(** X23. The sweep that runs every minute does on the tables what the
    exported sweep does, as long as no statement fails: from the same
    tables, draws and console it leaves the same tables, draws and
    console, and it returns; beside that it prints one line of its own
    for every due trade. *)
Theorem interval_sweep_agrees_with_exported_sweep (nowMs : Z) (s : Store) :
  (forall op, fault op = false) ->
  (direct nowMs s).2 = Done tt
  /\ world (direct nowMs s).1 = (exported nowMs (world s)).1
  /\ journal (direct nowMs s).1
     = journal s ++ (NoteProcessing <$> (dueTrades nowMs (world s)).*1).
Proof.
  intros Hf. rewrite (resolvePendingTrades_noFault random fault nowMs _ Hf).
  rewrite resolvePendingTradesDirect_run, Hf. cbn zeta.
  destruct (forEachR_ok nowMs (dueTrades nowMs (world s))
              (setWorld (started (length (dueTrades nowMs (world s)))
                           (world s)) s)
              Hf (Forall_dueTrades nowMs (world s)))
    as (s' & -> & Hw & Hj & _).
  cbn [fst snd world setWorld journal].
  split; [reflexivity|]. split; [by rewrite Hw|exact Hj].
Qed.
Lemma settleTradeDirect_update_fails (nowMs : Z) (trade : string * Trade)
    (s : Store) (a : Account) :
  delivery_time trade.2 <= nowMs ->
  accounts (world s) !! user_id trade.2 = Some a ->
  fault (OpSelectAccount (user_id trade.2)) = false ->
  fault (OpUpdateAccount (user_id trade.2)) = false ->
  fault (OpUpdateTrade trade.1) = true ->
  let res := settleTradeDirect fault random nowMs trade s in
  let l := settleLocals (random (cursor (world s)))
             (random (S (cursor (world s)))) trade.2 in
  res.2 = Raised (CoreError (DbError (OpUpdateTrade trade.1)))
  /\ trades (world res.1) = trades (world s)
  /\ accounts (world res.1)
     = alter (creditAccount (Settle.finalAmount l)) (user_id trade.2)
         (accounts (world s)).
Proof.
  intros Hdue Ha F1 F2 F3. cbn zeta. unfold settleTradeDirect.
  destruct (decide _); [|lia].
  unfold mbind, R_bind, liftCore, note. cbn [log world setWorld addNote].
  rewrite simulateOutcome_run. cbn zeta. cbn [world setWorld].
  unfold selectAccount, updateAccountBalance, updateTrade, statement, throw.
  rewrite F1, F2, F3. cbn [accounts world setWorld addLog]. rewrite Ha.
  cbn. split; [reflexivity|]. split; [reflexivity|].
  by rewrite (alter_credit _ _ a).
Qed.

Lemma settleTrade_update_fails (nowMs : Z) (trade : string * Trade)
    (w : World) (a : Account) :
  delivery_time trade.2 <= nowMs ->
  accounts w !! user_id trade.2 = Some a ->
  fault (OpSelectAccount (user_id trade.2)) = false ->
  fault (OpUpdateAccount (user_id trade.2)) = false ->
  fault (OpUpdateTrade trade.1) = true ->
  let res := transaction (settleTrade fault random nowMs trade) w in
  res.2 = Throw (DbError (OpUpdateTrade trade.1)) /\ sameTables w res.1.
Proof.
  intros Hdue Ha F1 F2 F3. cbn zeta. unfold transaction, settleTrade.
  destruct (decide _); [|lia].
  unfold selectAccount, updateAccountBalance, updateTrade, statement.
  unfold mbind, M_bind, throw; cbn [log].
  rewrite simulateOutcome_run; cbn.
  rewrite F1. cbn. rewrite Ha. cbn. rewrite F2. cbn. rewrite F3. cbn.
  split; [reflexivity|]. split; reflexivity.
Qed.

(** X24. The two sweeps part when the update of a trade fails. Let the
    first due trade belong to an existing account, and let the update of
    that trade fail after the account has been read and credited. The
    exported sweep, which settles each trade in a transaction, leaves
    both tables as they were. The sweep that runs every minute leaves the
    trade as it was, pending and due, but keeps the credit: the balance
    written is the balance plus the final amount of the trade, which the
    next sweep would pay once more. *)
Theorem interval_sweep_keeps_credit_of_unsettled_trade (nowMs : Z)
    (s : Store) (k : string) (t : Trade) (rest : list (string * Trade))
    (a : Account) :
  dueTrades nowMs (world s) = (k, t) :: rest ->
  accounts (world s) !! user_id t = Some a ->
  fault OpSelectDueTrades = false ->
  fault (OpSelectAccount (user_id t)) = false ->
  fault (OpUpdateAccount (user_id t)) = false ->
  fault (OpUpdateTrade k) = true ->
  let finalAmount :=
    Settle.finalAmount
      (settleLocals (random (cursor (world s)))
         (random (S (cursor (world s)))) t) in
  let d := world (direct nowMs s).1 in
  let e := (exported nowMs (world s)).1 in
  trades d = trades (world s)
  /\ trades d !! k = Some t
  /\ accounts d !! user_id t
     = Some (mkAccount (username a)
               (Num.toFixed 8 (balance a + finalAmount)) (email a))
  /\ trades e = trades (world s)
  /\ accounts e = accounts (world s).
Proof.
  intros Hdue Ha F0 F1 F2 F3. cbn zeta.
  assert ((k, t) ∈ dueTrades nowMs (world s)) as Hin
    by (rewrite Hdue; left).
  apply elem_of_dueTrades in Hin as (Ht & _ & Hd).
  rewrite resolvePendingTradesDirect_run, resolvePendingTrades_run, F0.
  cbn zeta. rewrite Hdue. cbn [forEachR]. rewrite resolveEach_cons.
  unfold mbind, R_bind.
  set (s0 := setWorld _ s). set (w0 := started _ (world s)).
  destruct (settleTradeDirect_update_fails nowMs (k, t) s0 a Hd Ha F1 F2 F3)
    as (Hr & Htr & Hacc).
  destruct (settleTrade_update_fails nowMs (k, t) w0 a Hd Ha F1 F2 F3)
    as (Hr' & Hacc' & Htr').
  destruct (settleTradeDirect _ _ _ _ s0) as [s1 r1].
  destruct (transaction _ w0) as [w1 r1'].
  cbn [fst snd] in *. subst r1 r1'.
  cbn [fst snd world setWorld addLog trades accounts].
  rewrite Htr, Hacc, Htr', Hacc'. cbn [s0 w0 world setWorld started addLog
    trades accounts cursor].
  split; [reflexivity|]. split; [exact Ht|].
  split; [|split; reflexivity].
  rewrite lookup_alter_eq, Ha. reflexivity.
Qed.
End IntervalSweep.

(** *** Balances across the other routes *)

Section RoutesSolvency.
Variable fault : DbOp -> bool.
Variable faultS : Stmt -> bool.
Variable random : nat -> Q.
Variable uuidv4 : nat -> string.
Variable is_uuid : string -> bool.
Variable is_email : string -> bool.

Local Open Scope Q_scope.

Hypothesis random_range : forall n, 0 <= random n /\ random n < 1.

Lemma postInvest_solvent (nowMs : Z) (body : InvestBody.t) (s : Store) :
  solvent (world s) ->
  solvent (world (postInvest fault faultS uuidv4 nowMs body s).1).
Proof.
  intros Hs. destruct body as [userId [amount|] strategyId]; [|exact Hs].
  destruct (decide (userId = "")) as [->|Hu]; [exact Hs|].
  destruct (decide (strategyId = "")) as [->|Hi].
  { unfold postInvest. cbn [InvestBody.amount InvestBody.userId
      InvestBody.strategyId].
    rewrite (bool_decide_eq_true_2 ("" = "")) by done.
    rewrite orb_true_r. exact Hs. }
  rewrite postInvest_run by done.
  destruct (fault (OpSelectAccount _)); [exact Hs|].
  destruct (accounts (world s) !! userId) as [a|] eqn:Ha; [|exact Hs].
  destruct (Qlt_le_dec _ _) as [|Hle]; [exact Hs|].
  destruct (fault (OpUpdateAccount _)); [exact Hs|]. cbn zeta.
  assert (solvent (world (debited userId
                            (Num.toFixed 8 (balance a - amount)) s)))
    as Hd.
  { destruct Hs as [Hbal Hamt]. split; [|exact Hamt].
    intros k a'. cbn [debited setWorld world setAccounts accounts].
    rewrite lookup_alter. case_decide as Hk; [|apply Hbal].
    subst k. rewrite Ha. intros [= <-]. cbn. apply toFixed_nonneg. lra. }
  destruct (faultS (StmtSelectStrategy _)); [exact Hd|].
  destruct (strategies s !! strategyId); [|exact Hd].
  destruct (faultS (StmtInsertInvestment _)); [exact Hd|].
  destruct (investments s !! _); exact Hd.
Qed.

Lemma postTransactions_solvent (nowMs : Z) (body : TransactionsBody.t)
    (s : Store) :
  solvent (world s) ->
  solvent (world (postTransactions faultS is_uuid is_email nowMs body s).1).
Proof.
  intros Hs. destruct body as [userId [l|]]; [|exact Hs].
  destruct (decide (userId = "")) as [->|Hu]; [exact Hs|].
  rewrite postTransactions_run by done.
  destruct (forallb _ l) eqn:Hall; [|exact Hs]. cbn zeta.
  destruct (faultS _); [exact Hs|].
  case_bool_decide as Hok; [|exact Hs].
  destruct Hs as [Hbal Hamt]. split; [exact Hbal|].
  intros k t. cbn [fst setWorld world setTrades trades].
  intros [Hin|[_ Hin]]%lookup_union_Some_raw; [|exact (Hamt k t Hin)].
  apply elem_of_list_to_map_2 in Hin. unfold savedRows in Hin.
  rewrite <- list_fmap_compose in Hin.
  apply list_elem_of_fmap in Hin as (t0 & [= -> ->] & Ht0).
  cbn. apply toFixed_nonneg.
  rewrite forallb_forall in Hall.
  apply (accepts_amount is_uuid is_email (withUserId userId t0)).
  apply Hall. by apply list_elem_of_In.
Qed.

(** X25. Only the two balance routes can make a balance negative. When
    the draws lie in [0, 1), no balance is negative and no trade has a
    negative amount, this is still so after a request to invest, after a
    bulk save of transactions and after a manual sweep, whatever the
    request is and whatever fails; and after [POST /api/update-balance]
    provided the balance sent is not negative. *)
Theorem other_routes_keep_balances_nonnegative (nowMs : Z)
    (investBody : InvestBody.t) (saveBody : TransactionsBody.t)
    (s : Store) :
  solvent (world s) ->
  solvent (world (postInvest fault faultS uuidv4 nowMs investBody s).1)
  /\ solvent
       (world (postTransactions faultS is_uuid is_email nowMs saveBody s).1)
  /\ solvent (world (postTradesComplete fault random nowMs s).1)
  /\ (forall userId b,
        userId <> "" -> 0 <= b ->
        solvent
          (world (postUpdateBalance fault
                    (BalanceBody.mk userId (Some b)) s).1)).
Proof.
  intros Hs. split; [by apply postInvest_solvent|].
  split; [by apply postTransactions_solvent|]. split.
  - rewrite postTradesComplete_run. cbn [fst setWorld world].
    apply (sweep_solvent fault random random_range), Hs.
  - intros userId b Hu Hb. rewrite postUpdateBalance_run by done.
    assert (solvent
              (setAccounts
                 (alter (setBalance (Num.toFixed 8 b)) userId
                    (accounts (world s))) (world s))) as Hw.
    { destruct Hs as [Hbal Hamt]. split; [|exact Hamt].
      intros k a'. cbn [setAccounts accounts]. rewrite lookup_alter.
      case_decide as Hk; [|apply Hbal]. subst k.
      destruct (accounts (world s) !! userId) as [a|]; [|done].
      intros [= <-]. cbn. by apply toFixed_nonneg. }
    destruct (fault _); [exact Hs|].
    destruct (accounts (world s) !! userId); exact Hw.
Qed.
End RoutesSolvency.

(** * The further properties at concrete worlds *)

Section ExtraWitnesses.
Import Example.
Local Open Scope Q_scope.

Lemma oneTrade_amounts (d : Direction) (k : string) (t : Trade) :
  trades (oneTrade d) !! k = Some t -> 0 <= amount t.
Proof.
  unfold oneTrade. cbn [trades].
  intros [_ <-]%lookup_singleton_Some. cbn. discriminate.
Qed.

Lemma oneTrade_grid (d : Direction) : balancesOnGrid (oneTrade d).
Proof.
  intros k a. unfold oneTrade. cbn [accounts].
  intros [_ <-]%lookup_singleton_Some. exact (onGrid8_Z 9000).
Qed.

Lemma bank_grid (z : Z) : balancesOnGrid (bank (inject_Z z)).
Proof.
  intros k a. unfold bank. cbn [accounts].
  intros [_ <-]%lookup_singleton_Some. exact (onGrid8_Z z).
Qed.

Lemma bank_solvent (z : Z) : (0 <= z)%Z -> solvent (bank (inject_Z z)).
Proof.
  intros Hz. split.
  - intros k a. unfold bank. cbn [accounts].
    intros [_ <-]%lookup_singleton_Some. cbn. unfold Qle. cbn. lia.
  - intros k t. unfold bank. cbn [trades]. by rewrite lookup_empty.
Qed.
End ExtraWitnesses.

(** A balance of 9000 and a won trade of 1000: 10130 after the sweep. *)
Lemma sweep_never_lowers_a_balance_witness :
  (forall n, 0 <= Example.half n /\ Example.half n < 1)%Q
  /\ (forall k t, trades (Example.oneTrade up) !! k = Some t ->
        0 <= amount t)%Q
  /\ balancesOnGrid (Example.oneTrade up)
  /\ accounts (Example.oneTrade up) !! "u1" = Some (Example.alice 9000)
  /\ accounts (resolvePendingTrades noFault Example.half 1000
                 (Example.oneTrade up)).1 !! "u1"
     = Some (Example.alice (Num.toFixed 8 10130))
  /\ (9000 <= Num.toFixed 8 10130)%Q.
Proof.
  split; [exact half_in_range|]. split; [exact (oneTrade_amounts up)|].
  split; [exact (oneTrade_grid up)|]. split; [vm_compute; reflexivity|].
  split; [vm_compute; reflexivity|].
  apply (sweep_never_lowers_a_balance noFault Example.half half_in_range
           1000 (Example.oneTrade up) "u1" (Example.alice 9000)
           (Example.alice (Num.toFixed 8 10130))
           (oneTrade_amounts up) (oneTrade_grid up)).
  - vm_compute. reflexivity.
  - vm_compute. reflexivity.
Defined.

(** A balance of 100: on the grid after a request and after a sweep. *)
Lemma trade_routes_keep_eight_digits_witness :
  balancesOnGrid (Example.bank 100)
  /\ balancesOnGrid
       (postTrade noFault Example.anyString Example.anyString 600
          (Example.request "t1" 10) (Example.bank 100)).1
  /\ balancesOnGrid
       (resolvePendingTrades noFault Example.half 1000 (Example.bank 100)).1.
Proof.
  split; [exact (bank_grid 100)|].
  apply (trade_routes_keep_eight_digits noFault Example.half
           Example.anyString Example.anyString 600
           (Example.request "t1" 10) (Example.bank 100)).
  exact (bank_grid 100).
Defined.

(** A balance of 100: no balance is negative after a request and after a
    sweep. *)
Lemma trade_routes_keep_balances_nonnegative_witness :
  (forall n, 0 <= Example.half n /\ Example.half n < 1)%Q
  /\ solvent (Example.bank 100)
  /\ solvent
       (postTrade noFault Example.anyString Example.anyString 600
          (Example.request "t1" 10) (Example.bank 100)).1
  /\ solvent
       (resolvePendingTrades noFault Example.half 1000 (Example.bank 100)).1.
Proof.
  split; [exact half_in_range|].
  split; [exact (bank_solvent 100 ltac:(lia))|].
  apply (trade_routes_keep_balances_nonnegative noFault Example.half
           Example.anyString Example.anyString half_in_range 600
           (Example.request "t1" 10) (Example.bank 100)).
  exact (bank_solvent 100 ltac:(lia)).
Defined.

(** A second request with the id "t1" of a stored trade. *)
Lemma create_never_overwrites_witness :
  let res := postTrade noFault Example.anyString Example.anyString 600
               (Example.request "t1" 10) (Example.oneTrade up) in
  trades (Example.oneTrade up) !! "t1" = Some (Example.pendingRow up 1000)
  /\ res.2 = Ok FailedToCreate
  /\ sameTables (Example.oneTrade up) res.1.
Proof.
  cbn zeta. split; [vm_compute; reflexivity|].
  destruct (create_never_overwrites noFault Example.anyString
              Example.anyString 600 (Example.request "t1" 10)
              (Example.oneTrade up) (Example.pendingRow up 1000)
              ltac:(vm_compute; reflexivity))
    as (_ & Hsame & Hfail).
  split; [|exact Hsame].
  apply (Hfail eq_refl (fun _ => eq_refl) (Example.alice 9000)).
  - vm_compute. reflexivity.
  - vm_compute. discriminate.
Defined.

(** A request of 10 against a balance of 100. *)
Lemma create_changes_one_account_and_adds_one_trade_witness :
  let res := postTrade noFault Example.anyString Example.anyString 600
               (Example.request "t1" 10) (Example.bank 100) in
  res = (res.1, Ok TradeCreated)
  /\ trades (Example.bank 100) !! "t1" = None
  /\ is_Some (trades res.1 !! "t1")
  /\ (forall k, k <> "t1" -> trades res.1 !! k = trades (Example.bank 100) !! k)
  /\ (forall k, k <> "u1" ->
        accounts res.1 !! k = accounts (Example.bank 100) !! k).
Proof.
  cbn zeta. split; [vm_compute; reflexivity|].
  destruct (create_changes_one_account_and_adds_one_trade noFault
              Example.anyString Example.anyString 600
              (Example.request "t1" 10) (Example.bank 100)
              (postTrade noFault Example.anyString Example.anyString 600
                 (Example.request "t1" 10) (Example.bank 100)).1
              ltac:(vm_compute; reflexivity))
    as (Hnew & Hin & Htrades & Haccounts & _).
  auto.
Defined.

(** Nobody in particular sets the balance of "u1" to 1.005, which the
    column keeps as 1.01; the administrator's route answers the same
    balance, with the id and the email of the account. *)
Lemma public_route_sets_balance_without_admin_check_witness :
  let s := Demo.store (Example.bank 100) in
  "u1" <> "" /\ None <> Some ADMIN_EMAIL
  /\ putAdminBalance noFault None "u1" (Some 1.005%Q) s
     = (s, Done AdminBalanceForbidden)
  /\ world (postUpdateBalance noFault (BalanceBody.mk "u1" (Some 1.005%Q)) s).1
     = world (putAdminBalance noFault (Some ADMIN_EMAIL) "u1"
                (Some 1.005%Q) s).1
  /\ (postUpdateBalance noFault (BalanceBody.mk "u1" (Some 1.005%Q)) s).2
     = Done (BalanceUpdated (Num.toFixed 2 1.01))
  /\ (putAdminBalance noFault (Some ADMIN_EMAIL) "u1" (Some 1.005%Q) s).2
     = Done (AdminBalanceUpdated "u1" (email (Example.alice 100))
               (Num.toFixed 2 1.01)).
Proof.
  cbn zeta. split; [done|]. split; [done|].
  destruct (public_route_sets_balance_without_admin_check noFault None "u1"
              1.005 (Demo.store (Example.bank 100)) ltac:(done) ltac:(done))
    as (Hdenied & Hworld & _).
  split; [exact Hdenied|]. split; [exact Hworld|].
  split; vm_compute; reflexivity.
Defined.

(** The balance of "u1" is set to 1.005: the row is written with
    1.00500000, the column keeps 1.01 and the answer says 1.01. *)
Lemma update_balance_writes_any_number_witness :
  let s := Demo.store (Example.bank 100) in
  let res :=
    postUpdateBalance noFault (BalanceBody.mk "u1" (Some 1.005%Q)) s in
  "u1" <> "" /\ noFault (OpUpdateAccount "u1") = false
  /\ accounts (world s) !! "u1" = Some (Example.alice 100)
  /\ res.2 = Done (BalanceUpdated (Num.toFixed 2 1.01))
  /\ (exists a',
        accounts (world res.1) !! "u1" = Some a'
        /\ balance a' = Num.toFixed 8 1.005
        /\ balance (Column.account a') = Num.toFixed 2 1.01)
  /\ trades (world res.1) = trades (world s).
Proof.
  cbn zeta. split; [done|]. split; [reflexivity|].
  split; [vm_compute; reflexivity|].
  destruct (update_balance_writes_any_number noFault "u1" 1.005
              (Demo.store (Example.bank 100)) ltac:(done) eq_refl)
    as (Htrades & _ & Hrow).
  change (accounts (world (Demo.store (Example.bank 100))) !! "u1")
    with (Some (Example.alice 100)) in Hrow.
  destruct Hrow as [Hanswer (a' & Ha' & _ & _ & Hb & Hkept)].
  split; [rewrite Hanswer; vm_compute; reflexivity|].
  split; [|exact Htrades].
  exists a'. split; [exact Ha'|]. split; [exact Hb|].
  rewrite Hkept. vm_compute. reflexivity.
Defined.

(** A draw of 0.5 gives the uid 55000000. *)
Lemma uid_has_eight_digits_and_is_unused_witness :
  let s := Demo.store Example.nobody in
  (forall i, 0 <= Example.half i /\ Example.half i < 1)%Q
  /\ generateUniqueAccountUid Demo.noFaultS Example.half s
     = (afterDraws 1 s, Done 55000000)
  /\ (10000000 <= 55000000 <= 99999999)
  /\ 55000000 ∉ uids s.
Proof.
  cbn zeta. split; [exact half_in_range|].
  split; [vm_compute; reflexivity|].
  destruct (uid_has_eight_digits_and_is_unused Demo.noFaultS Example.half
              (Demo.store Example.nobody)
              (afterDraws 1 (Demo.store Example.nobody)) 55000000
              half_in_range ltac:(vm_compute; reflexivity))
    as (Hrange & Hfresh & _).
  auto.
Defined.

(** Every draw gives 55000000, the uid of an account: ten attempts, then
    the function gives up. *)
Lemma uid_is_first_unused_candidate_witness :
  let s := Demo.taken Example.nobody in
  (forall st, Demo.noFaultS st = false)
  /\ list_find (fun uid => uid ∉ uids s) (uidCandidates Example.half s) = None
  /\ generateUniqueAccountUid Demo.noFaultS Example.half s
     = (afterDraws 10 s, Raised UidExhausted).
Proof.
  cbn zeta. split; [reflexivity|].
  assert (list_find (fun uid => uid ∉ uids (Demo.taken Example.nobody))
            (uidCandidates Example.half (Demo.taken Example.nobody)) = None)
    as Hnone by (vm_compute; reflexivity).
  split; [exact Hnone|].
  pose proof (uid_is_first_unused_candidate Demo.noFaultS Example.half
                (Demo.taken Example.nobody) (fun _ => eq_refl)) as Hrun.
  rewrite Hnone in Hrun. exact Hrun.
Defined.


(** 30 asked of a balance of 100 for a strategy that does not exist: the
    answer is 404 and the balance written is 70. *)
Lemma invest_charges_before_it_checks_the_strategy_witness :
  let s := Demo.store (Example.bank 100) in
  let res := postInvest noFault Demo.noFaultS Demo.uuids 600
               (InvestBody.mk "u1" (Some 30%Q) "5day") s in
  "u1" <> "" /\ "5day" <> ""
  /\ noFault (OpSelectAccount "u1") = false
  /\ noFault (OpUpdateAccount "u1") = false
  /\ accounts (world s) !! "u1" = Some (Example.alice 100)
  /\ (30 <= balance (Example.alice 100))%Q
  /\ strategies s !! "5day" = None
  /\ res.2 = Done InvestStrategyNotFound
  /\ accounts (world res.1) !! "u1"
     = Some (Example.alice (Num.toFixed 8 (100 - 30)))
  /\ investments res.1 = investments s.
Proof.
  cbn zeta. split; [done|]. split; [done|]. split; [reflexivity|].
  split; [reflexivity|]. split; [vm_compute; reflexivity|].
  split; [vm_compute; discriminate|]. split; [vm_compute; reflexivity|].
  destruct (invest_charges_before_it_checks_the_strategy noFault
              Demo.noFaultS Demo.uuids 600 "u1" "5day" 30
              (Demo.store (Example.bank 100)) (Example.alice 100)
              ltac:(done) ltac:(done) eq_refl eq_refl
              ltac:(vm_compute; reflexivity)
              ltac:(vm_compute; discriminate))
    as (Hcharged & Hanswer & Hnone & _).
  pose proof (Hanswer eq_refl ltac:(vm_compute; reflexivity)) as Hmissing.
  split; [exact Hmissing|]. split; [exact Hcharged|].
  apply Hnone. intros id. rewrite Hmissing. discriminate.
Defined.

(** 30 invested in the 5-day strategy. *)
Lemma invest_success_records_the_investment_witness :
  let s := Demo.seeded (Example.bank 100) in
  let res := postInvest noFault Demo.noFaultS Demo.uuids 600
               (InvestBody.mk "u1" (Some 30%Q) "5day") s in
  "u1" <> "" /\ "5day" <> ""
  /\ res = (res.1, Done (InvestSimulated "inv-0"))
  /\ investments s !! "inv-0" = None
  /\ exists row,
       investments res.1 !! "inv-0" = Some row
       /\ Investment.investmentAmount row = Num.toFixed 8 30
       /\ Investment.durationDays row = 5.
Proof.
  cbn zeta. split; [done|]. split; [done|].
  split; [vm_compute; reflexivity|].
  destruct (invest_success_records_the_investment noFault Demo.noFaultS
              Demo.uuids 600 "u1" "5day" 30
              (Demo.seeded (Example.bank 100))
              (postInvest noFault Demo.noFaultS Demo.uuids 600
                 (InvestBody.mk "u1" (Some 30%Q) "5day")
                 (Demo.seeded (Example.bank 100))).1
              "inv-0" ltac:(done) ltac:(done) ltac:(vm_compute; reflexivity))
    as (_ & Hnew & (strategy & Hstrategy & Hrow) & _).
  split; [exact Hnew|].
  eexists. split; [exact Hrow|]. split; [reflexivity|].
  cbn [Investment.durationDays].
  assert (strategy = Strategy.mk "5-Day Strategy" (Some 0.015%Q)
                       (Some 0.02%Q) 5) as ->; [|reflexivity].
  assert (strategies (Demo.seeded (Example.bank 100)) !! "5day"
          = Some (Strategy.mk "5-Day Strategy" (Some 0.015%Q)
                    (Some 0.02%Q) 5)) as Hseeded
    by (vm_compute; reflexivity).
  rewrite Hseeded in Hstrategy. by injection Hstrategy.
Defined.

(** Two elements sent by "u1", the second naming "u2": both are stored
    as trades of "u1". *)
Lemma bulk_save_stores_every_element_witness :
  let s := Demo.store (Example.bank 100) in
  let l := [Example.request "t1" 10; Demo.foreign "t2" 20] in
  let res := postTransactions Demo.noFaultS Example.anyString
               Example.anyString 600 (TransactionsBody.mk "u1" (Some l)) s in
  "u1" <> ""
  /\ res = (res.1, Done TransactionsSaved)
  /\ Demo.foreign "t2" 20 ∈ l
  /\ trades (world s) !! "t2" = None
  /\ exists row,
       trades (world res.1) !! "t2" = Some row
       /\ user_id row = "u1" /\ status row = pending.
Proof.
  cbn zeta. split; [done|]. split; [vm_compute; reflexivity|].
  assert (Demo.foreign "t2" 20
          ∈ [Example.request "t1" 10; Demo.foreign "t2" 20]) as Hin
    by (right; left).
  split; [exact Hin|].
  destruct (bulk_save_stores_every_element Demo.noFaultS Example.anyString
              Example.anyString 600 "u1"
              [Example.request "t1" 10; Demo.foreign "t2" 20]
              (Demo.store (Example.bank 100))
              (postTransactions Demo.noFaultS Example.anyString
                 Example.anyString 600
                 (TransactionsBody.mk "u1"
                    (Some [Example.request "t1" 10; Demo.foreign "t2" 20]))
                 (Demo.store (Example.bank 100))).1
              ltac:(done) ltac:(vm_compute; reflexivity))
    as (_ & Hstored & _).
  destruct (Hstored _ Hin) as (Hnew & row & Hrow & _ & Huser & Hstatus).
  split; [exact Hnew|]. exists row. auto.
Defined.

(** The trades of "a@example.com": "t2" of time 700, then "t1" of time
    500. *)
Lemma transactions_are_listed_newest_first_witness :
  let s := Demo.store Demo.mailbox in
  let l := parsedTrade
             <$> [("t2", Demo.mailed 700 "a@example.com");
                  ("t1", Demo.mailed 500 "a@example.com")] in
  getTransactions Demo.noFaultS Demo.sameText (Some "a@example.com") s
  = (s, Done (TransactionsList l))
  /\ exists rows,
       l = parsedTrade <$> rows
       /\ StronglySorted newerFirst rows
       /\ NoDup rows.
Proof.
  cbn zeta.
  assert (getTransactions Demo.noFaultS Demo.sameText
            (Some "a@example.com") (Demo.store Demo.mailbox)
          = (Demo.store Demo.mailbox,
             Done (TransactionsList
                     (parsedTrade
                        <$> [("t2", Demo.mailed 700 "a@example.com");
                             ("t1", Demo.mailed 500 "a@example.com")]))))
    as Hrun by (vm_compute; reflexivity).
  split; [exact Hrun|].
  pose proof (transactions_are_listed_newest_first Demo.noFaultS
                Demo.sameText (Some "a@example.com")
                (Demo.store Demo.mailbox) _ _ Hrun) as Hlisted.
  cbn beta iota in Hlisted. rewrite decide_False in Hlisted by done.
  destruct Hlisted as [_ Hlisted].
  destruct (Hlisted _ eq_refl) as (_ & rows & Hrows & Hsorted & Hnodup & _).
  exists rows. auto.
Defined.

(** One due trade and no failure: the two sweeps leave the same world. *)
Lemma interval_sweep_agrees_with_exported_sweep_witness :
  let s := Demo.store (Example.oneTrade up) in
  (forall op, noFault op = false)
  /\ world (resolvePendingTradesDirect noFault Example.half 1000 s).1
     = (resolvePendingTrades noFault Example.half 1000 (world s)).1
  /\ journal (resolvePendingTradesDirect noFault Example.half 1000 s).1
     = [NoteProcessing "t1"].
Proof.
  cbn zeta. split; [reflexivity|].
  destruct (interval_sweep_agrees_with_exported_sweep noFault Example.half
              1000 (Demo.store (Example.oneTrade up)) (fun _ => eq_refl))
    as (_ & Hworld & Hjournal).
  split; [exact Hworld|]. rewrite Hjournal. vm_compute. reflexivity.
Defined.

(** A balance of 9000, a won trade of 1000 and a failing update of the
    trade: the sweep run every minute writes a balance of 10130 and leaves
    the trade pending, the exported sweep changes neither table. *)
Lemma interval_sweep_keeps_credit_of_unsettled_trade_witness :
  let fault := Example.failsOn "t1" in
  let s := Demo.store (Example.oneTrade up) in
  let d := world (resolvePendingTradesDirect fault Example.half 1000 s).1 in
  let e := (resolvePendingTrades fault Example.half 1000 (world s)).1 in
  dueTrades 1000 (world s) = [("t1", Example.pendingRow up 1000)]
  /\ accounts (world s) !! "u1" = Some (Example.alice 9000)
  /\ fault OpSelectDueTrades = false
  /\ fault (OpSelectAccount "u1") = false
  /\ fault (OpUpdateAccount "u1") = false
  /\ fault (OpUpdateTrade "t1") = true
  /\ trades d !! "t1" = Some (Example.pendingRow up 1000)
  /\ accounts d !! "u1" = Some (Example.alice (Num.toFixed 8 10130))
  /\ accounts e !! "u1" = Some (Example.alice 9000).
Proof.
  cbn zeta. split; [vm_compute; reflexivity|].
  split; [vm_compute; reflexivity|].
  split; [reflexivity|]. split; [reflexivity|]. split; [reflexivity|].
  split; [reflexivity|].
  destruct (interval_sweep_keeps_credit_of_unsettled_trade
              (Example.failsOn "t1") Example.half 1000
              (Demo.store (Example.oneTrade up)) "t1"
              (Example.pendingRow up 1000) [] (Example.alice 9000)
              ltac:(vm_compute; reflexivity) ltac:(vm_compute; reflexivity)
              eq_refl eq_refl eq_refl eq_refl)
    as (_ & Hpending & Hcredit & _ & Hsame).
  split; [exact Hpending|].
  change (user_id (Example.pendingRow up 1000)) with "u1" in Hcredit.
  split; [rewrite Hcredit; vm_compute; reflexivity|].
  rewrite Hsame. vm_compute. reflexivity.
Defined.

(** A balance of 100: no balance is negative after an investment of 30,
    a bulk save, a manual sweep and a balance update to 5. *)
Lemma other_routes_keep_balances_nonnegative_witness :
  let s := Demo.store (Example.bank 100) in
  (forall n, 0 <= Example.half n /\ Example.half n < 1)%Q
  /\ solvent (world s)
  /\ solvent
       (world (postInvest noFault Demo.noFaultS Demo.uuids 600
                 (InvestBody.mk "u1" (Some 30%Q) "5day") s).1)
  /\ solvent
       (world (postTransactions Demo.noFaultS Example.anyString
                 Example.anyString 600
                 (TransactionsBody.mk "u1" (Some [Example.request "t1" 10]))
                 s).1)
  /\ solvent (world (postTradesComplete noFault Example.half 600 s).1)
  /\ solvent
       (world (postUpdateBalance noFault (BalanceBody.mk "u1" (Some 5%Q))
                 s).1).
Proof.
  cbn zeta. split; [exact half_in_range|].
  split; [exact (bank_solvent 100 ltac:(lia))|].
  destruct (other_routes_keep_balances_nonnegative noFault Demo.noFaultS
              Example.half Demo.uuids Example.anyString Example.anyString
              half_in_range 600 (InvestBody.mk "u1" (Some 30%Q) "5day")
              (TransactionsBody.mk "u1" (Some [Example.request "t1" 10]))
              (Demo.store (Example.bank 100))
              (bank_solvent 100 ltac:(lia)))
    as (Hinvest & Hsave & Hsweep & Hupdate).
  split; [exact Hinvest|]. split; [exact Hsave|].
  split; [|apply Hupdate; [done|vm_compute; discriminate]].
  exact Hsweep.
Defined.

(** 30 invested in the 5-day strategy, then the investments of "u1" are
    listed. *)
Lemma investment_is_found_by_the_listing_witness :
  let s := Demo.seeded (Example.bank 100) in
  let res := postInvest noFault Demo.noFaultS Demo.uuids 600
               (InvestBody.mk "u1" (Some 30%Q) "5day") s in
  "u1" <> "" /\ "5day" <> ""
  /\ res = (res.1, Done (InvestSimulated "inv-0"))
  /\ Demo.noFaultS (StmtSelectUserInvestments "u1") = false
  /\ exists l v,
       getUserInvestments Demo.noFaultS (Some "u1") res.1
       = (res.1, Done (InvestmentsList l))
       /\ v ∈ l
       /\ InvestmentView.id v = "inv-0"
       /\ InvestmentView.investmentAmount v = Num.toFixed 8 30
       /\ InvestmentView.status v = Investment.active.
Proof.
  cbn zeta. split; [done|]. split; [done|].
  split; [vm_compute; reflexivity|]. split; [reflexivity|].
  destruct (investment_is_found_by_the_listing noFault Demo.noFaultS
              Demo.uuids 600 "u1" "5day" 30
              (Demo.seeded (Example.bank 100))
              (postInvest noFault Demo.noFaultS Demo.uuids 600
                 (InvestBody.mk "u1" (Some 30%Q) "5day")
                 (Demo.seeded (Example.bank 100))).1
              "inv-0" ltac:(done) ltac:(done) ltac:(vm_compute; reflexivity)
              eq_refl)
    as (l & strategy & Hlist & _ & _ & v & Hin & Hid & _ & Hamount & _
        & Hstatus & _).
  exists l, v. auto.
Defined.
